(** * Live-Market-Prize2: tick routing, indicators, strategies and the position store

    A shallow embedding of the Python sources

      - [market/Strategies/indicators.py]   ([calculate_rsi], [calculate_macd],
          the length test of [calculate_adx])
      - [market/Strategies/strategies.py]   ([check_adx_strategy], [check_macd_strategy])
      - [market/Datafeed/connection.py]     ([on_data], the token-to-symbol
          map of [setup_connection])
      - [market/WebSocketUtility/consumers.py]
          ([send_current_indicators], the body of [refresh_loop],
           [handle_subscribe], [handle_unsubscribe] and its branch of
           [receive], [handle_get_historical],
           [get_open_position_for_token], [open_position_db],
           [close_position_db], [handle_strategy_signal])
      - [market/models.py]                  ([Position])

    Conventions of the model.

    - A Python [float] that holds a finite value is the rational it denotes
      ([Q]); arithmetic is exact, so binary64 rounding error is outside the
      model, but for the two boundaries named below.  Comparisons of
      rationals are stated with [==], [<=], [<] of [QArith].  Where the
      source can meet a value that is not finite ([np.inf] in the RSI ratio,
      NaN or infinities in an indicator handed to a strategy) the value is
      represented explicitly.
    - [round(x, n)] is rounding to [n] decimals, ties to even.
    - Exact arithmetic and binary64 arithmetic part ways where a result
      falls exactly on a boundary: a product that is half-way between two
      cents, a difference that equals the threshold it is compared with.
      Two such places decide what is stored already for prices in cents:
      [round(target, 2)] and [round(stoploss, 2)] in [open_position_db],
      and the test [abs(mtm - open_position.mtm) > 0.05] in [on_data].
      There the model carries the binary64 computation of the source as
      well (module [Binary64], on the kernel's primitive floats) and lets
      it decide on the boundary; everywhere else the exact value decides.
    - The Django table of [Position] rows is a list in primary-key order.
    - [self.send(json.dumps(...))] appends a message to the list of messages
      sent so far; a message keeps the fields of its JSON object.  The
      answers of [handle_unsubscribe] and [handle_get_historical] are results
      of their models instead.
    - Text built by an f-string from a number is kept as a constructor that
      carries the number; the [adx] block of the indicator message, which
      pandas computes with rolling windows, is kept as the three series it
      is computed from.
    - The state carries one field the source does not have, [close_calls]:
      the arguments of each call of [close_position_db], in call order. *)

From Stdlib Require Import QArith Qround Qabs Qminmax ZArith Lia Lqa.
From Stdlib Require Floats Uint63.
From stdpp Require Import gmap strings list fin_maps.

Local Open Scope string_scope.
Local Open Scope list_scope.

(** ** Numbers *)

Module Num.

Definition Qltb (x y : Q) : bool := negb (Qle_bool y x).
Definition Qgeb (x y : Q) : bool := Qle_bool y x.
Definition Qgtb (x y : Q) : bool := negb (Qle_bool x y).

(** Nearest integer, ties to the even neighbour. *)
Definition round_half_even (x : Q) : Z :=
  let f := Qfloor x in
  match (x - inject_Z f ?= 1 # 2)%Q with
  | Lt => f
  | Gt => (f + 1)%Z
  | Eq => if Z.even f then f else (f + 1)%Z
  end.

(** [round(x, nd)] of Python 3 for a finite float. *)
Definition py_round (x : Q) (nd : nat) : Q :=
  let scale := inject_Z (10 ^ Z.of_nat nd) in
  (inject_Z (round_half_even (x * scale)) / scale)%Q.

(** A float as a strategy can receive it: finite, an infinity or NaN. *)
Inductive fnum : Type :=
| Fin (q : Q)
| PInf
| NInf
| NaN.

(** IEEE [x > y]; any comparison with NaN is false. *)
Definition f_gt (x y : fnum) : bool :=
  match x, y with
  | NaN, _ | _, NaN => false
  | Fin a, Fin b => Qgtb a b
  | PInf, PInf => false
  | PInf, _ => true
  | _, PInf => false
  | NInf, _ => false
  | Fin _, NInf => true
  end.

Definition f_lt (x y : fnum) : bool := f_gt y x.

End Num.
Export Num.

(** ** Binary64 arithmetic at the boundaries *)

Module Binary64.

(** The double nearest to an integer (the integer itself below 2^53). *)
Definition b64_of_Z (z : Z) : PrimFloat.float :=
  if (z <? 0)%Z then PrimFloat.opp (PrimFloat.of_uint63 (Uint63.of_Z (- z)))
  else PrimFloat.of_uint63 (Uint63.of_Z z).

Definition b64_of_nat (n : nat) : PrimFloat.float := b64_of_Z (Z.of_nat n).

(** The double a rational is held as: the quotient of its numerator and
    denominator in lowest terms, which binary64 division rounds to the
    nearest double when both are below 2^53 (prices and amounts in cents
    are).  This is also how Python evaluates [ltp_raw / 100]. *)
Definition b64_of_Q (q : Q) : PrimFloat.float :=
  let r := Qred q in
  PrimFloat.div (b64_of_Z (Qnum r)) (b64_of_Z (Zpos (Qden r))).

(** The exact value of a finite double. *)
Definition Q_of_b64 (x : PrimFloat.float) : option Q :=
  match FloatOps.Prim2SF x with
  | SpecFloat.S754_zero _ => Some 0%Q
  | SpecFloat.S754_finite s m e =>
      let v := (inject_Z (Zpos m) * Qpower 2 e)%Q in
      Some (if s then (- v)%Q else v)
  | SpecFloat.S754_infinity _ | SpecFloat.S754_nan => None
  end.

(** [x] is half-way between two decimals of [nd] digits. *)
Definition half_way (x : Q) (nd : nat) : bool :=
  let scale := inject_Z (10 ^ Z.of_nat nd) in
  Qeq_bool (x * scale - inject_Z (Qfloor (x * scale))) (1 # 2).

(** [round(x, nd)] of a float [x] that arithmetic produced.  [exact] is the
    value the arithmetic has without rounding error, [computed] the double
    the source holds; Python rounds the double.  The two roundings agree
    unless [exact] is half-way between two decimals: the double then lies
    on one side of it, and the decimal on that side is the result. *)
Definition round_computed (exact : Q) (computed : PrimFloat.float)
    (nd : nat) : Q :=
  let scale := inject_Z (10 ^ Z.of_nat nd) in
  let below := Qfloor (exact * scale) in
  if half_way exact nd then
    match Q_of_b64 computed with
    | Some v =>
        if Qltb v exact then (inject_Z below / scale)%Q
        else if Qltb exact v then (inject_Z (below + 1) / scale)%Q
        else py_round exact nd
    | None => py_round exact nd
    end
  else py_round exact nd.

(** [x > bound] for a float [x] that arithmetic produced: the exact value
    decides, and when it equals the bound the comparison of the doubles
    does. *)
Definition gt_computed (exact : Q) (computed : PrimFloat.float)
    (bound : Q) : bool :=
  if Qeq_bool exact bound then PrimFloat.ltb (b64_of_Q bound) computed
  else Qgtb exact bound.

(** An amount in cents. *)
Definition in_cents (q : Q) : Prop :=
  exists k : Z, (q == inject_Z k / 100)%Q.

(** Prices and amounts for which the arithmetic modelled here is accurate
    to far less than a cent in binary64: prices in cents up to a million,
    quantities up to a million, stored amounts in cents up to a million
    million. *)
Definition ordinary_price (q : Q) : Prop :=
  in_cents q /\ (0 <= q <= 1000000)%Q.

Definition ordinary_quantity (n : nat) : Prop := (Z.of_nat n <= 1000000)%Z.

Definition ordinary_amount (q : Q) : Prop :=
  in_cents q /\ (0 <= q <= 1000000000000)%Q.

(** [c] is [x] rounded to cents: a value in cents within half a cent of
    [x], the nearest one (ties to even counted) unless [x] is half-way
    between two cents. *)
Definition rounded_to_cents (x c : Q) : Prop :=
  in_cents c
  /\ (Qabs (c - x) <= 1 # 200)%Q
  /\ (half_way x 2 = false -> c = py_round x 2).

End Binary64.
Export Binary64.

(** ** Strategy engine ([market/Strategies/strategies.py]) *)

Module Strategies.

(** A value read from an indicator dictionary with [.get]: [None] (also for
    a missing key), a string such as ["Not enough data"], or a number. *)
Inductive pyval : Type :=
| VNone
| VStr (s : string)
| VFloat (x : fnum).

Inductive Action : Type := BUY | SELL | EXIT.

#[global] Instance Action_eq_dec : EqDecision Action.
Proof. solve_decision. Defined.

(** The [reason] text of a signal; an f-string keeps the number it formats. *)
Inductive reason_text : Type :=
| R_adx_uptrend (di_plus : fnum)        (* "+DI {di_plus:.2f} > 20 (strong uptrend)" *)
| R_adx_downtrend (di_minus : fnum)     (* "-DI {di_minus:.2f} > 20 (strong downtrend)" *)
| R_adx_up_weak (di_plus : fnum)        (* "+DI fell to {di_plus:.2f} < 18 (uptrend weakening)" *)
| R_adx_down_weak (di_minus : fnum)     (* "-DI fell to {di_minus:.2f} < 18 (downtrend weakening)" *)
| R_macd_bullish (line : fnum)          (* "MACD line {macd_line:.4f} > 0 (bullish)" *)
| R_macd_bearish (line : fnum)          (* "MACD line {macd_line:.4f} < 0 (bearish)" *)
| R_text (s : string).

Record Signal : Type := mkSignal {
  action : Action;
  reason : reason_text;
  confidence : option string
}.

Record adx_info : Type := mkAdxInfo {
  adx : pyval;
  di_plus : pyval;
  di_minus : pyval
}.

Record macd_info : Type := mkMacdInfo {
  line : pyval;
  signal : pyval;
  histogram : pyval
}.

(** [isinstance(x, str) or x is None] *)
Definition str_or_none (v : pyval) : bool :=
  match v with
  | VFloat _ => false
  | VNone | VStr _ => true
  end.

Definition check_adx_strategy (info : adx_info) (current_side : string)
  : option Signal :=
  match di_plus info, di_minus info with
  | VFloat dp, VFloat dm =>
      if String.eqb current_side "NONE" then
        if f_gt dp (Fin 20) && f_gt dp dm then
          Some (mkSignal BUY (R_adx_uptrend dp) (Some "high"))
        else if f_gt dm (Fin 20) && f_gt dm dp then
          Some (mkSignal SELL (R_adx_downtrend dm) (Some "high"))
        else None
      else if String.eqb current_side "LONG" then
        if f_lt dp (Fin 18) then
          Some (mkSignal EXIT (R_adx_up_weak dp) None)
        else None
      else if String.eqb current_side "SHORT" then
        if f_lt dm (Fin 18) then
          Some (mkSignal EXIT (R_adx_down_weak dm) None)
        else None
      else None
  | _, _ => None  (* any(isinstance(x, str) or x is None ...) *)
  end.

(** [check_macd_strategy]; a string in [line] makes [macd_line > 0] raise,
    which is the [inr] result. *)
Definition check_macd_strategy (info : macd_info) (current_side : string)
  : option Signal + unit :=
  match line info with
  | VNone => inl None
  | VStr _ =>
      if String.eqb current_side "NONE" || String.eqb current_side "LONG"
         || String.eqb current_side "SHORT"
      then inr tt else inl None
  | VFloat l =>
      inl (if String.eqb current_side "NONE" then
             if f_gt l (Fin 0) then
               Some (mkSignal BUY (R_macd_bullish l) None)
             else if f_lt l (Fin 0) then
               Some (mkSignal SELL (R_macd_bearish l) None)
             else None
           else if String.eqb current_side "LONG" then
             if f_lt l (Fin 0) then
               Some (mkSignal EXIT
                       (R_text "MACD line crossed below 0 (bearish crossover)") None)
             else None
           else if String.eqb current_side "SHORT" then
             if f_gt l (Fin 0) then
               Some (mkSignal EXIT
                       (R_text "MACD line crossed above 0 (bullish crossover)") None)
             else None
           else None)
  end.

End Strategies.
Export Strategies.

(** ** Indicator engine ([market/Strategies/indicators.py]) *)

Module Indicators.

(** [np.diff] *)
Fixpoint diff (l : list Q) : list Q :=
  match l with
  | a :: (b :: _) as t => (b - a)%Q :: diff t
  | _ => []
  end.

Definition Qsum (l : list Q) : Q := fold_right Qplus 0%Q l.

Definition Qnat (n : nat) : Q := inject_Z (Z.of_nat n).

(** [rs = up / down if down != 0 else np.inf]; [None] is [np.inf]. *)
Definition rs_of (up down : Q) : option Q :=
  if Qeq_bool down 0 then None else Some (up / down)%Q.

(** [100. - 100. / (1. + rs)]; with [rs = inf] the quotient is [0.]. *)
Definition rsi_of (rs : option Q) : Q :=
  match rs with
  | None => 100
  | Some r => 100 - 100 / (1 + r)
  end%Q.

(** One pass of the body of [for i in range(period, len(closes))]. *)
Definition rsi_step (period : nat) (deltas : list Q)
    (st : Q * Q * list Q) (i : nat) : Q * Q * list Q :=
  let '(up, down, rsi) := st in
  let delta := default 0%Q (deltas !! (i - 1)%nat) in
  let '(upval, downval) :=
    if Qgtb delta 0 then (delta, 0%Q) else (0%Q, (- delta)%Q) in
  let up := ((up * (Qnat period - 1) + upval) / Qnat period)%Q in
  let down := ((down * (Qnat period - 1) + downval) / Qnat period)%Q in
  (up, down, <[i := rsi_of (rs_of up down)]> rsi).

(** [calculate_rsi(closes, period)], for [period >= 1] and closes that are
    floats, so that [np.zeros_like(closes)] is a float array. *)
Definition calculate_rsi (closes : list Q) (period : nat) : option Q :=
  if (length closes <? period + 1)%nat then None
  else
    let deltas := diff closes in
    let seed := take (period + 1) deltas in
    let up := (Qsum (filter (fun d => Qgeb d 0 = true) seed) / Qnat period)%Q in
    let down := (- Qsum (filter (fun d => Qltb d 0 = true) seed) / Qnat period)%Q in
    let rsi := replicate (length closes) 0%Q in         (* np.zeros_like(closes) *)
    let rsi := replicate (min period (length closes)) (rsi_of (rs_of up down))
                 ++ drop period rsi in                   (* rsi[:period] = ... *)
    let '(_, _, rsi) :=
      fold_left (rsi_step period deltas)
                (seq period (length closes - period)) (up, down, rsi) in
    last rsi.

(** [pd.Series(xs).ewm(span=span, adjust=False).mean()], for [span >= 1]:
    below 1 pandas raises [ValueError] instead of returning a series. *)
Fixpoint ewm_from (alpha prev : Q) (xs : list Q) : list Q :=
  match xs with
  | [] => []
  | x :: t =>
      let y := ((1 - alpha) * prev + alpha * x)%Q in
      y :: ewm_from alpha y t
  end.

Definition ewm_mean (span : nat) (xs : list Q) : list Q :=
  match xs with
  | [] => []
  | x :: t => x :: ewm_from (2 / (Qnat span + 1))%Q x t
  end.

(** [calculate_macd(closes, fast, slow, signal)], for spans [fast], [slow]
    and [signal] that are at least 1, as [ewm] requires. *)
Definition calculate_macd (closes : list Q) (fast slow signal : nat)
  : option Q * option Q * option Q :=
  if (length closes <? slow)%nat then (None, None, None)
  else
    let ema_fast := ewm_mean fast closes in
    let ema_slow := ewm_mean slow closes in
    let macd_line := zip_with Qminus ema_fast ema_slow in
    let signal_line := ewm_mean signal macd_line in
    let histogram := zip_with Qminus macd_line signal_line in
    (last macd_line, last signal_line, last histogram).

(** Average gain and average loss of a seed window, as lines 9-10 compute
    them. *)
Definition seed_avg (period : nat) (seed : list Q) : Q * Q :=
  ((Qsum (filter (fun d => Qgeb d 0 = true) seed) / Qnat period)%Q,
   (- Qsum (filter (fun d => Qltb d 0 = true) seed) / Qnat period)%Q).

(** Wilder's smoothing of one delta into the two averages (lines 17-24
    without the array). *)
Definition wilder_step (period : nat) (st : Q * Q) (delta : Q) : Q * Q :=
  let '(up, down) := st in
  let '(upval, downval) :=
    if Qgtb delta 0 then (delta, 0%Q) else (0%Q, (- delta)%Q) in
  (((up * (Qnat period - 1) + upval) / Qnat period)%Q,
   ((down * (Qnat period - 1) + downval) / Qnat period)%Q).

(** The reading of the specification: the seed averages the first [period]
    deltas, every later delta is smoothed in once, the last value is
    returned. *)
Definition rsi_seeded_on_period (closes : list Q) (period : nat) : option Q :=
  if (length closes <? period + 1)%nat then None
  else
    let deltas := diff closes in
    let seed := take period deltas in
    let up := (Qsum (filter (fun d => Qgeb d 0 = true) seed) / Qnat period)%Q in
    let down := (- Qsum (filter (fun d => Qltb d 0 = true) seed) / Qnat period)%Q in
    let '(up, down) :=
      fold_left (wilder_step period) (drop period deltas) (up, down) in
    Some (rsi_of (rs_of up down)).

(** What the source computes, without the array: the seed window is the
    first [period + 1] deltas, and smoothing starts at delta [period - 1],
    inside that window. *)
Definition rsi_as_coded (closes : list Q) (period : nat) : option Q :=
  if (length closes <? period + 1)%nat then None
  else
    let deltas := diff closes in
    let '(up, down) :=
      fold_left (wilder_step period) (drop (period - 1) deltas)
                (seed_avg period (take (period + 1) deltas)) in
    Some (rsi_of (rs_of up down)).

End Indicators.
Export Indicators.

(** ** Positions ([market/models.py]) and the consumer's state *)

Module Store.

(** [Position.status]; the model file names these three values. *)
Inductive Status : Type := OPEN | CLOSED | SQUARED_OFF.

#[global] Instance Status_eq_dec : EqDecision Status.
Proof. solve_decision. Defined.

(** A row of the [Position] table.  The primary key of a row is its index
    in the table, so it is not a field. *)
Record Position : Type := mkPosition {
  symbol : string;
  exchange : string;
  token : string;
  entry_price : option Q;
  entry_datetime : Z;
  exit_price : option Q;
  exit_datetime : option Z;
  target : option Q;
  stoploss : option Q;
  mtm : Q;
  status : Status;
  lots : nat;
  quantity : nat
}.

Definition set_mtm (m : Q) (p : Position) : Position :=
  mkPosition (symbol p) (exchange p) (token p) (entry_price p)
    (entry_datetime p) (exit_price p) (exit_datetime p) (target p)
    (stoploss p) m (status p) (lots p) (quantity p).

(** The four assignments of [close_position_db] before [position.save()]. *)
Definition set_closed (price : Q) (at_time : Z) (m : Q) (p : Position)
  : Position :=
  mkPosition (symbol p) (exchange p) (token p) (entry_price p)
    (entry_datetime p) (Some price) (Some at_time) (target p)
    (stoploss p) m CLOSED (lots p) (quantity p).

Definition open_for (tok : string) (p : Position) : Prop :=
  token p = tok /\ status p = OPEN.

#[global] Instance open_for_dec tok p : Decision (open_for tok p).
Proof. unfold open_for. apply _. Defined.

(** [Position.objects.filter(token=tok, status="OPEN").first()]: a query
    without [order_by] is read in primary-key order. *)
Definition filter_open_first (tok : string) (table : list Position)
  : option (nat * Position) :=
  list_find (open_for tok) table.

(** [filter(...).order_by('-entry_datetime').first()]: the open row of the
    token with the latest [entry_datetime]; among rows of equal time the
    database decides, the model keeps the lowest primary key. *)
Fixpoint latest_open (tok : string) (i : nat) (rows : list Position)
    (best : option (nat * Position)) : option (nat * Position) :=
  match rows with
  | [] => best
  | p :: rest =>
      let best' :=
        if decide (open_for tok p) then
          match best with
          | Some (_, b) =>
              if (entry_datetime b <? entry_datetime p)%Z
              then Some (i, p) else best
          | None => Some (i, p)
          end
        else best in
      latest_open tok (S i) rest best'
  end.

Definition get_open_position_for_token (tok : string)
    (table : list Position) : option (nat * Position) :=
  latest_open tok 0 table None.

(** How many open rows the table holds for a token. *)
Definition open_count (tok : string) (rows : list Position) : nat :=
  length (filter (open_for tok) rows).

(** One entry of the instrument list downloaded at login. *)
Record Instrument : Type := mkInstrument {
  i_token : option string;
  i_symbol : option string;
  i_exch_seg : option string
}.

(** A candle row [timestamp, open, high, low, close, volume]. *)
Record Candle : Type := mkCandle {
  c_timestamp : string;
  c_open : Q;
  c_high : Q;
  c_low : Q;
  c_close : Q;
  c_volume : Q
}.

(** What [smart_api.getCandleData(params)] does: raises, or returns a
    value; [Reply status data] is a dictionary whose ['status'] is [True]
    exactly when [status] is, with the rows under ['data'] (no rows for a
    missing key); [NoReply] is [None]. *)
Inductive candle_reply : Type :=
| Raises
| NoReply
| Reply (status_true : bool) (data : list Candle).

(** The JSON objects handed to [self.send]. *)
Inductive Msg : Type :=
| MPrice (symbol : string) (token : option string) (ltp : Q)
| MMtmUpdate (token symbol : string) (ltp mtm entry_price : Q)
    (direction_guess : string)
| MAutoExit (token symbol : string) (exit_price : Q)
    (exit_reason : option reason_text) (mtm : Q)
| MPositionOpened (token symbol side : string)
    (entry_price target stoploss : Q) (lots quantity : nat)
| MPositionClosed (token symbol : string) (exit_price : Q)
    (exit_datetime : Z) (pnl : Q) (quantity : nat)
    (reason : option reason_text)
| MSignalOpened (symbol token side : string) (entry_price : Q)
    (lots quantity : nat) (signal : Signal)
| MSignalClosed (symbol token : string) (exit_price pnl : Q)
    (signal : Signal)
| MNoSignal (symboltoken symbol : string) (current_position : string)
| MLiveIndicators (symboltoken symbol : string) (latest_close : option Q)
    (timestamp : Z) (rsi_14 : option Q)
    (macd : option Q * option Q * option Q)
    (adx_of : list Q * list Q * list Q)
| MSubscribed (tradingsymbols tokens : list string) (exchange : string)
    (monitored_count : nat)
| MNoNewSubscriptions
| MWarning (tradingsymbol : string)
| MError (text : string).

(** The attributes of [MarketConsumer] the modelled methods use, the
    [Position] table, the clock read by [timezone.now()], and what has left
    the process: the messages sent to the client and the subscribe requests
    made on the feed.  [sws_accepts] tells whether [self.sws.subscribe]
    returns for a request (it raises otherwise, also when [self.sws] is
    [None]).  [close_calls] is a record of the calls of [close_position_db],
    kept only to count them. *)
Record State : Type := mkState {
  subscribed_tokens : gmap Z (gset string);
  token_symbol_map : gmap string string;
  token_to_symbol : option (gmap string string);
  instrument_list : option (list Instrument);
  monitor_symbols : list string;
  indicator_refresh_task : bool;
  smart_api : option (string -> Z -> candle_reply);
  sws_accepts : Z -> list string -> bool;
  table : list Position;
  now : Z;
  sent : list Msg;
  feed_requests : list (Z * list string);
  close_calls : list (string * Q * option reason_text)
}.

Definition send (m : Msg) (st : State) : State :=
  mkState (subscribed_tokens st) (token_symbol_map st) (token_to_symbol st)
    (instrument_list st) (monitor_symbols st) (indicator_refresh_task st)
    (smart_api st) (sws_accepts st) (table st) (now st)
    (sent st ++ [m]) (feed_requests st) (close_calls st).

Definition set_table (t : list Position) (st : State) : State :=
  mkState (subscribed_tokens st) (token_symbol_map st) (token_to_symbol st)
    (instrument_list st) (monitor_symbols st) (indicator_refresh_task st)
    (smart_api st) (sws_accepts st) t (now st)
    (sent st) (feed_requests st) (close_calls st).

Definition note_close_call (c : string * Q * option reason_text)
    (st : State) : State :=
  mkState (subscribed_tokens st) (token_symbol_map st) (token_to_symbol st)
    (instrument_list st) (monitor_symbols st) (indicator_refresh_task st)
    (smart_api st) (sws_accepts st) (table st) (now st)
    (sent st) (feed_requests st) (close_calls st ++ [c]).

(** Sending several messages in a row. *)
Definition sends (msgs : list Msg) (st : State) : State :=
  fold_left (fun s m => send m s) msgs st.

(** The amounts reported by the [mtm_update] messages of a log. *)
Definition mtm_updates (log : list Msg) : list Q :=
  omap (fun m => match m with
                 | MMtmUpdate _ _ _ v _ _ => Some v
                 | _ => None
                 end) log.

(** Python truth of a string. *)
Definition truthy (s : string) : bool := negb (String.eqb s "").

(** [a or b] on optional strings, [None] and [""] being false. *)
Definition str_or (a : option string) (b : option string) : option string :=
  match a with
  | Some s => if truthy s then a else b
  | None => b
  end.

End Store.
Export Store.

(** ** Position store ([consumers.py], "Database Position Helpers") *)

Module PositionStore.

(** [self.token_symbol_map.get(tok) or self.token_to_symbol.get(tok) or tok];
    [None] when [self.token_to_symbol] is read before [setup_connection]
    has created it (AttributeError). *)
Definition symbol_name_for (st : State) (tok : string) : option string :=
  match str_or (token_symbol_map st !! tok) None with
  | Some s => Some s
  | None =>
      match token_to_symbol st with
      | None => None
      | Some m =>
          match str_or (m !! tok) None with
          | Some s => Some s
          | None => Some tok
          end
      end
  end.

Definition risk_reward : Q := 3 # 2.        (* 1.5 *)
Definition risk_percent : Q := 1 # 100.     (* 0.01 *)
Definition reward_percent : Q := risk_percent * risk_reward.

(** Lines 581-590 without rounding error: [target] and [stoploss]. *)
Definition levels (side : string) (entry_price : Q) : Q * Q :=
  if String.eqb side "LONG" then
    (entry_price * (1 + reward_percent), entry_price * (1 - risk_percent))%Q
  else
    (entry_price * (1 - reward_percent), entry_price * (1 + risk_percent))%Q.

(** The same lines in binary64, operation by operation. *)
Definition risk_reward_b64 : PrimFloat.float := b64_of_Q risk_reward.
Definition risk_percent_b64 : PrimFloat.float := b64_of_Q risk_percent.
Definition reward_percent_b64 : PrimFloat.float :=
  PrimFloat.mul risk_percent_b64 risk_reward_b64.

Definition levels_b64 (side : string) (entry_price : Q)
  : PrimFloat.float * PrimFloat.float :=
  let e := b64_of_Q entry_price in
  let one := b64_of_Z 1 in
  if String.eqb side "LONG" then
    (PrimFloat.mul e (PrimFloat.add one reward_percent_b64),
     PrimFloat.mul e (PrimFloat.sub one risk_percent_b64))
  else
    (PrimFloat.mul e (PrimFloat.sub one reward_percent_b64),
     PrimFloat.mul e (PrimFloat.add one risk_percent_b64)).

(** [round(target, 2)] and [round(stoploss, 2)]. *)
Definition rounded_levels (side : string) (entry_price : Q) : Q * Q :=
  (round_computed (levels side entry_price).1
     (levels_b64 side entry_price).1 2,
   round_computed (levels side entry_price).2
     (levels_b64 side entry_price).2 2).

Definition open_position_db (st : State) (symbol_token side : string)
    (entry_price : Q) (quantity lots : nat) : State * option Position :=
  match symbol_name_for st symbol_token with
  | None => (st, None)                 (* except Exception: return None *)
  | Some symbol_name =>
      let exchange := "NSE" in
      let '(target, stoploss) := rounded_levels side entry_price in
      let position :=
        mkPosition symbol_name exchange symbol_token (Some entry_price)
          (now st) None None (Some target) (Some stoploss)
          0%Q OPEN lots quantity in
      let st := set_table (table st ++ [position]) st in
      let st :=
        send (MPositionOpened symbol_token symbol_name side entry_price
                target stoploss lots quantity) st in
      (st, Some position)
  end.

(** Lines 637-646: the amount written at close. *)
Definition realized_pnl (position : Position) (exit_price : Q) : Q :=
  match entry_price position with
  | Some entry =>
      if Qltb entry exit_price then
        ((exit_price - entry) * Qnat (quantity position))%Q
      else
        ((entry - exit_price) * Qnat (quantity position))%Q
  | None => 0%Q
  end.

Definition close_position_db (st : State) (symbol_token : string)
    (exit_price : Q) (exit_reason : option reason_text)
  : State * option Position :=
  let st := note_close_call (symbol_token, exit_price, exit_reason) st in
  match get_open_position_for_token symbol_token (table st) with
  | None => (st, None)
  | Some (i, position) =>
      let pnl := realized_pnl position exit_price in
      let position := set_closed exit_price (now st) (py_round pnl 2) position in
      let st := set_table (<[i := position]> (table st)) st in   (* position.save() *)
      let symbol_name := default symbol_token (token_symbol_map st !! symbol_token) in
      let st :=
        send (MPositionClosed symbol_token symbol_name (py_round exit_price 2)
                (now st) (mtm position) (quantity position) exit_reason) st in
      (st, Some position)
  end.

Definition fallback_price : Q := 106265 # 100.   (* 1062.65 *)

Definition handle_strategy_signal (st : State) (symbol_token : string)
    (signal : option Signal) (latest_close : option Q) : State :=
  let symbol_name := default symbol_token (token_symbol_map st !! symbol_token) in
  let open_pos := get_open_position_for_token symbol_token (table st) in
  match signal with
  | None =>
      send (MNoSignal symbol_token symbol_name
              (match open_pos with Some _ => "OPEN" | None => "NONE" end)) st
  | Some sig =>
      let price := default fallback_price latest_close in
      match action sig, open_pos with
      | (BUY | SELL), None =>
          let side := if decide (action sig = BUY) then "LONG" else "SHORT" in
          let lots := 1%nat in
          let quantity := 50%nat in
          let '(st, position) :=
            open_position_db st symbol_token side price quantity lots in
          match position with
          | Some _ =>
              send (MSignalOpened symbol_name symbol_token side price
                      lots quantity sig) st
          | None => st
          end
      | EXIT, Some _ =>
          let '(st, closed_pos) :=
            close_position_db st symbol_token price (Some (reason sig)) in
          match closed_pos with
          | Some c =>
              send (MSignalClosed symbol_name symbol_token price (mtm c) sig) st
          | None => st
          end
      | _, _ => st
      end
  end.

End PositionStore.
Export PositionStore.

(** ** Tick router ([on_data] in [Datafeed/connection.py]) *)

Module TickRouter.

Record Tick : Type := mkTick {
  tick_token : option string;           (* message.get("token") *)
  last_traded_price : option Z          (* message.get("last_traded_price") *)
}.

(** The running amount of lines 106-109. *)
Definition tick_mtm (ltp entry : Q) (qty : nat) : Q :=
  if Qgeb ltp entry then ((ltp - entry) * Qnat qty)%Q
  else ((entry - ltp) * Qnat qty)%Q.

(** The same lines in binary64. *)
Definition tick_mtm_b64 (ltp entry : PrimFloat.float) (qty : nat)
  : PrimFloat.float :=
  if PrimFloat.leb entry ltp
  then PrimFloat.mul (PrimFloat.sub ltp entry) (b64_of_nat qty)
  else PrimFloat.mul (PrimFloat.sub entry ltp) (b64_of_nat qty).

(** [abs(mtm - open_position.mtm) > 0.05] *)
Definition mtm_moved (ltp entry : Q) (qty : nat) (stored : Q) : bool :=
  gt_computed
    (Qabs (tick_mtm ltp entry qty - stored))
    (PrimFloat.abs
       (PrimFloat.sub (tick_mtm_b64 (b64_of_Q ltp) (b64_of_Q entry) qty)
          (b64_of_Q stored)))
    (5 # 100).

(** Lines 103-126: recompute the amount, write it when it moved by more
    than 0.05.  [i] is the row of [open_position]; the result carries the
    in-memory object as well. *)
Definition on_data_mtm (st : State) (tok symbol : string) (ltp : Q)
    (i : nat) (open_position : Position) (entry : Q) : State * Position :=
  let qty := quantity open_position in
  let m := tick_mtm ltp entry qty in
  if mtm_moved ltp entry qty (mtm open_position) then
    let open_position := set_mtm (py_round m 2) open_position in
    (* open_position.save(update_fields=['mtm']) *)
    let st := set_table (alter (set_mtm (mtm open_position)) i (table st)) st in
    let st :=
      send (MMtmUpdate tok symbol (py_round ltp 2) (mtm open_position)
              (py_round entry 2) (if Qgeb ltp entry then "LONG" else "SHORT")) st in
    (st, open_position)
  else (st, open_position).

(** The condition of lines 134-135 (1% tolerance around the target). *)
Definition target_hit (ltp entry tg : Q) : bool :=
  (Qgeb ltp (tg * (99 # 100)) && Qgeb ltp entry)
  || (Qle_bool ltp (tg * (101 # 100)) && Qle_bool ltp entry).

(** The condition of lines 141-142. *)
Definition stoploss_hit (ltp entry sl : Q) : bool :=
  (Qle_bool ltp sl && Qle_bool ltp entry)
  || (Qgeb ltp sl && Qgeb ltp entry).

(** Lines 129-144: the two checks, in the order of the source. *)
Definition exit_check (ltp entry : Q) (open_position : Position)
  : option reason_text * bool :=
  let exit_reason : option reason_text := None in
  let should_exit := false in
  let '(exit_reason, should_exit) :=
    match target open_position with
    | Some tg =>
        if target_hit ltp entry tg
        then (Some (R_text "Target reached (test)"), true)
        else (exit_reason, should_exit)
    | None => (exit_reason, should_exit)
    end in
  let '(exit_reason, should_exit) :=
    match stoploss open_position with
    | Some sl =>
        if stoploss_hit ltp entry sl
        then (Some (R_text "Stoploss hit"), true)
        else (exit_reason, should_exit)
    | None => (exit_reason, should_exit)
    end in
  (exit_reason, should_exit).

(** Lines 128-162. *)
Definition on_data_exit (st : State) (tok symbol : string) (ltp : Q)
    (open_position : Position) (entry : Q) : State :=
  let '(exit_reason, should_exit) := exit_check ltp entry open_position in
  if should_exit then
    let '(st, _) := close_position_db st tok ltp exit_reason in
    send (MAutoExit tok symbol (py_round ltp 2) exit_reason
            (mtm open_position)) st
  else st.

Definition on_data (st : State) (message : Tick) : State :=
  let token := tick_token message in
  match last_traded_price message with
  | None | Some 0%Z => st                       (* if not ltp_raw: return *)
  | Some ltp_raw =>
      let ltp := (inject_Z ltp_raw / 100)%Q in
      let symbol :=
        default "UNKNOWN" (tok ← token; token_symbol_map st !! tok) in
      let st := send (MPrice symbol token (py_round ltp 2)) st in
      match token with
      | None => st                              (* no row has a NULL token *)
      | Some tok =>
          match filter_open_first tok (table st) with
          | Some (i, open_position) =>
              match entry_price open_position with
              | Some entry =>
                  let '(st, open_position) :=
                    on_data_mtm st tok symbol ltp i open_position entry in
                  on_data_exit st tok symbol ltp open_position entry
              | None => st
              end
          | None => st
          end
      end
  end.

End TickRouter.
Export TickRouter.

(** ** Subscription registry ([handle_subscribe]) *)

Module Subscription.

(** Exchange types of the SmartAPI SDK. *)
Definition EXCHANGE_MAP : gmap string Z :=
  list_to_map
    [("NSE", 1%Z); ("NFO", 2%Z); ("BSE", 3%Z); ("BFO", 4%Z);
     ("MCX", 5%Z); ("NCO", 5%Z); ("NCDEX", 7%Z); ("CDS", 13%Z)].

(** [exchange_type in self.subscribed_tokens and
     token in self.subscribed_tokens[exchange_type]] *)
Definition subscribed_under (st : State) (exchange_type : Z)
    (token : string) : bool :=
  match subscribed_tokens st !! exchange_type with
  | Some s => bool_decide (token ∈ s)
  | None => false
  end.

(** [instr.get("symbol") == ts and instr.get("exch_seg") == exchange] *)
Definition instr_matches (ts exchange : string) (instr : Instrument) : bool :=
  bool_decide (i_symbol instr = Some ts) &&
  bool_decide (i_exch_seg instr = Some exchange).

(** One pass of [for ts in tradingsymbols]: the inner loop stops at the
    first matching instrument. *)
Definition subscribe_scan (instruments : list Instrument)
    (exchange : string) (exchange_type : Z)
    (acc : list string * gmap string string * State) (ts : string)
  : list string * gmap string string * State :=
  let '(tokens, new_token_symbol_map, st) := acc in
  let not_found := (tokens, new_token_symbol_map, send (MWarning ts) st) in
  match List.find (instr_matches ts exchange) instruments with
  | Some instr =>
      match i_token instr with
      | Some token =>
          if truthy token then
            ((if subscribed_under st exchange_type token
              then tokens else tokens ++ [token]),
             <[token := ts]> new_token_symbol_map, st)
          else not_found
      | None => not_found
      end
  | None => not_found
  end.

(** The loop [for token in tokens: if token not in self.monitor_symbols]. *)
Definition monitor_add (monitor : list string) (token : string)
  : list string :=
  if bool_decide (token ∈ monitor) then monitor else monitor ++ [token].

Definition handle_subscribe (st : State) (tradingsymbols : list string)
    (exchange : string) : State :=
  match instrument_list st with
  | None | Some [] => send (MError "Instrument list not loaded") st
  | Some instruments =>
      let exchange_type := default 1%Z (EXCHANGE_MAP !! exchange) in
      let '(tokens, new_token_symbol_map, st) :=
        fold_left (subscribe_scan instruments exchange exchange_type)
                  tradingsymbols ([], ∅, st) in
      match tokens with
      | [] => send MNoNewSubscriptions st
      | _ :: _ =>
          (* self.sws.subscribe("abc123", 1, token_list) *)
          let requests := feed_requests st ++ [(exchange_type, tokens)] in
          if sws_accepts st exchange_type tokens then
            let subscribed :=
              <[exchange_type :=
                  default ∅ (subscribed_tokens st !! exchange_type)
                  ∪ list_to_set tokens]> (subscribed_tokens st) in
            let monitor := fold_left monitor_add tokens (monitor_symbols st) in
            let added_count := (length monitor - length (monitor_symbols st))%nat in
            let task :=
              if (0 <? added_count)%nat then true   (* start_indicator_monitor *)
              else indicator_refresh_task st in
            send (MSubscribed tradingsymbols tokens exchange (length monitor))
              (mkState subscribed
                 (new_token_symbol_map ∪ token_symbol_map st)
                 (token_to_symbol st) (instrument_list st) monitor task
                 (smart_api st) (sws_accepts st) (table st) (now st)
                 (sent st) requests (close_calls st))
          else
            send (MError "Subscribe failed")
              (mkState (subscribed_tokens st) (token_symbol_map st)
                 (token_to_symbol st) (instrument_list st)
                 (monitor_symbols st) (indicator_refresh_task st)
                 (smart_api st) (sws_accepts st) (table st) (now st)
                 (sent st) requests (close_calls st))
      end
  end.

(** The [tokens] list a call builds: what it reports as newly subscribed. *)
Definition newly_subscribed (st : State) (tradingsymbols : list string)
    (exchange : string) : list string :=
  match instrument_list st with
  | None | Some [] => []
  | Some instruments =>
      (fold_left
         (subscribe_scan instruments exchange
            (default 1%Z (EXCHANGE_MAP !! exchange)))
         tradingsymbols ([], ∅, st)).1.1
  end.

(** The token a requested symbol resolves to: the token of the first
    instrument with that symbol and segment, when it is a non-empty
    string. *)
Definition resolve (instruments : list Instrument) (exchange ts : string)
  : option string :=
  instr ← List.find (instr_matches ts exchange) instruments;
  token ← i_token instr;
  if truthy token then Some token else None.

(** The resolved tokens of a request that are not yet subscribed under the
    exchange type of the request, in request order. *)
Definition net_new (st : State) (instruments : list Instrument)
    (exchange : string) (exchange_type : Z) (tradingsymbols : list string)
  : list string :=
  filter (fun t => subscribed_under st exchange_type t = false)
         (omap (resolve instruments exchange) tradingsymbols).

End Subscription.
Export Subscription.

(** ** Periodic refresh ([start_indicator_monitor], [send_current_indicators]) *)

Module Refresh.

Definition send_current_indicators (st : State) (symbol_token : string)
  : State :=
  match smart_api st with
  | None => st
  | Some getCandleData =>
      match getCandleData symbol_token (now st) with
      | Raises => st                        (* except: logger.error *)
      | NoReply => st
      | Reply status_true data =>
          if negb status_true || bool_decide (length data = 0%nat) then st
          else
            let candles := drop (length data - 100) data in   (* [-100:] *)
            if (length candles <? 50)%nat then st
            else
              let closes := c_close <$> candles in
              let highs := c_high <$> candles in
              let lows := c_low <$> candles in
              let rsi := calculate_rsi closes 14 in
              let '(macd_line, macd_signal, macd_hist) :=
                calculate_macd closes 12 26 9 in
              let latest_close := last closes in
              send
                (MLiveIndicators symbol_token
                   (default "UNKNOWN" (token_symbol_map st !! symbol_token))
                   (c ← latest_close;
                    if Qeq_bool c 0 then None else Some (py_round c 2))
                   (now st)
                   ((fun r => py_round r 2) <$> rsi)
                   ((fun x => py_round x 4) <$> macd_line,
                    (fun x => py_round x 4) <$> macd_signal,
                    (fun x => py_round x 4) <$> macd_hist)
                   (highs, lows, closes))
                st
      end
  end.

(** The candle window [send_current_indicators] goes on with, if any:
    the session exists, the fetch returned rows with a true status, and
    the last hundred of them are at least fifty. *)
Definition candles_for (st : State) (symbol_token : string)
  : option (list Candle) :=
  match smart_api st with
  | None => None
  | Some getCandleData =>
      match getCandleData symbol_token (now st) with
      | Reply true data =>
          let candles := drop (length data - 100) data in
          if bool_decide (length data = 0%nat) || (length candles <? 50)%nat
          then None else Some candles
      | _ => None
      end
  end.

(** The [live_indicators_update] object built from a candle window. *)
Definition live_indicators (st : State) (symbol_token : string)
    (candles : list Candle) : Msg :=
  let closes := c_close <$> candles in
  let macd := calculate_macd closes 12 26 9 in
  MLiveIndicators symbol_token
    (default "UNKNOWN" (token_symbol_map st !! symbol_token))
    (c ← last closes; if Qeq_bool c 0 then None else Some (py_round c 2))
    (now st)
    ((fun r => py_round r 2) <$> calculate_rsi closes 14)
    ((fun x => py_round x 4) <$> macd.1.1,
     (fun x => py_round x 4) <$> macd.1.2,
     (fun x => py_round x 4) <$> macd.2)
    (c_high <$> candles, c_low <$> candles, closes).

(** One pass of the body of [while True] in [refresh_loop]; the two
    [time.sleep] calls are not part of the state. *)
Definition refresh_cycle (st : State) : State :=
  fold_left send_current_indicators (take 5 (monitor_symbols st)) st.

End Refresh.
Export Refresh.

(** ** The operations as one step function *)

Module System.

(** What the rest of the process does to the attributes the modelled
    methods read: login and the instrument download set [smart_api],
    [instrument_list] and [token_to_symbol], the feed may start or stop
    accepting requests, the clock moves.  Rows, messages and requests are
    left alone. *)
Definition env_step (st : State)
    (api : option (string -> Z -> candle_reply))
    (instruments : option (list Instrument))
    (tts : option (gmap string string))
    (accepts : Z -> list string -> bool) (clock : Z) : State :=
  mkState (subscribed_tokens st) (token_symbol_map st) tts instruments
    (monitor_symbols st) (indicator_refresh_task st) api accepts
    (table st) clock (sent st) (feed_requests st) (close_calls st).

Inductive Op : Type :=
| OpEnv (api : option (string -> Z -> candle_reply))
    (instruments : option (list Instrument))
    (tts : option (gmap string string))
    (accepts : Z -> list string -> bool) (clock : Z)
| OpTick (message : Tick)
| OpSignal (symbol_token : string) (signal : option Signal)
    (latest_close : option Q)
| OpOpen (symbol_token side : string) (entry_price : Q) (quantity lots : nat)
| OpClose (symbol_token : string) (exit_price : Q)
    (exit_reason : option reason_text)
| OpSubscribe (tradingsymbols : list string) (exchange : string)
| OpRefresh.

Definition run (st : State) (op : Op) : State :=
  match op with
  | OpEnv api instruments tts accepts clock =>
      env_step st api instruments tts accepts clock
  | OpTick message => on_data st message
  | OpSignal tok sig lc => handle_strategy_signal st tok sig lc
  | OpOpen tok side e qty lots => (open_position_db st tok side e qty lots).1
  | OpClose tok x r => (close_position_db st tok x r).1
  | OpSubscribe syms exch => handle_subscribe st syms exch
  | OpRefresh => refresh_cycle st
  end.

Definition mtm_nonneg (rows : list Position) : Prop :=
  Forall (fun p => (0 <= mtm p)%Q) rows.

End System.
Export System.

(** ** Concrete states used in the examples below *)

Module Scenario.

(** [setup_connection], lines 51-56: the token-to-symbol map of the
    downloaded instrument list. *)
Definition build_token_to_symbol (instruments : list Instrument)
  : gmap string string :=
  fold_left
    (fun m instr =>
       match i_token instr, i_symbol instr with
       | Some token, Some ts =>
           if truthy token && truthy ts then <[token := ts]> m else m
       | _, _ => m
       end)
    instruments ∅.

(** The consumer after [connect()]. *)
Definition connected : State :=
  mkState ∅ ∅ None None [] false None (fun _ _ => true) [] 0%Z [] [] [].

Definition instruments : list Instrument :=
  [ mkInstrument (Some "3045") (Some "USDINR25NOVFUT") (Some "CDS");
    mkInstrument (Some "3045") (Some "SBIN-EQ") (Some "NSE");
    mkInstrument (Some "2885") (Some "RELIANCE-EQ") (Some "NSE") ].

(** Fifty candles whose close rises by one each. *)
Definition rising_candles : list Candle :=
  (fun n : nat =>
     let c := inject_Z (Z.of_nat (100 + n)) in
     mkCandle "" c (c + 1)%Q (c - 1)%Q c 1000%Q) <$> seq 0 50.

Definition rising_api (tok : string) (t : Z) : candle_reply :=
  Reply true rising_candles.

Definition no_candles (tok : string) (t : Z) : candle_reply := NoReply.

(** The consumer after login and the instrument download. *)
Definition session : State :=
  env_step connected (Some no_candles) (Some instruments)
    (Some (build_token_to_symbol instruments)) (fun _ _ => true) 1000%Z.

(** OpenIfAbsent(token, LONG, entryPrice=100, lots=1, quantity=50). *)
Definition long_opened : State :=
  (open_position_db session "3045" "LONG" 100%Q 50 1).1.

Definition short_opened : State :=
  (open_position_db session "3045" "SHORT" 100%Q 50 1).1.

(** The row that call stores. *)
Definition long_row : Position :=
  mkPosition "SBIN-EQ" "NSE" "3045" (Some 100%Q) 1000%Z None None
    (Some (py_round (100 * (1 + reward_percent)) 2))
    (Some (py_round (100 * (1 - risk_percent)) 2))
    0%Q OPEN 1 50.

(** That position closed at 105 by a strategy exit, and the closed row. *)
Definition long_closed : State :=
  (close_position_db long_opened "3045" 105%Q
     (Some (R_text "Strategy Exit"))).1.

Definition long_closed_row : Position :=
  set_closed 105%Q 1000%Z (py_round (realized_pnl long_row 105) 2) long_row.

(** The tick with last traded price 99.00. *)
Definition tick_99 : Tick := mkTick (Some "3045") (Some 9900%Z).

Definition long_after_tick : State := on_data long_opened tick_99.

(** subscribe(["SBIN-EQ"], "NSE"), then a request on another segment
    for a symbol whose token is the same string. *)
Definition subscribed_nse : State :=
  handle_subscribe session ["SBIN-EQ"] "NSE".

Definition subscribed_cds : State :=
  handle_subscribe subscribed_nse ["USDINR25NOVFUT"] "CDS".

(** The same session with a feed that refuses every request, and the
    state after one refused subscribe(["SBIN-EQ"], "NSE"). *)
Definition feed_down : State :=
  env_step session (smart_api session) (instrument_list session)
    (token_to_symbol session) (fun _ _ => false) 1000%Z.

Definition refused_once : State :=
  handle_subscribe feed_down ["SBIN-EQ"] "NSE".

(** A session whose candle fetch returns the rising candles, after
    subscribe(["SBIN-EQ"], "NSE"): token 3045 is monitored. *)
Definition monitoring : State :=
  handle_subscribe
    (env_step connected (Some rising_api) (Some instruments)
       (Some (build_token_to_symbol instruments)) (fun _ _ => true) 1000%Z)
    ["SBIN-EQ"] "NSE".

(** The [macd] block [handle_get_historical] would hand to
    [check_macd_strategy] for those candles (each value rounded to four
    decimals). *)
Definition rising_macd : macd_info :=
  let macd := calculate_macd (c_close <$> rising_candles) 12 26 9 in
  let num (v : option Q) : pyval :=
    match v with
    | Some x => VFloat (Fin (py_round x 4))
    | None => VNone
    end in
  mkMacdInfo (num macd.1.1) (num macd.1.2) (num macd.2).

(** RSI input on which the seed of the source and the seed of the
    specification differ: fourteen rises of 1, then a fall of 1. *)
Definition closes16 : list Q :=
  (fun z => inject_Z z) <$>
    [0; 1; 2; 3; 4; 5; 6; 7; 8; 9; 10; 11; 12; 13; 14; 13]%Z.

End Scenario.
Export Scenario.

(** ** Unsubscribing ([handle_unsubscribe]) *)

Module Unsubscribe.

(** What the inner loop of [handle_unsubscribe] finds for one symbol.  The
    loop reads [instr["symbol"]], [instr["exch_seg"]] and [instr["token"]]
    by index, so an instrument without the key raises KeyError when the
    loop reaches that read; a field that is [None] stands here for a key
    the entry does not have. *)
Inductive lookup_result : Type :=
| Matched (token : string)
| NoMatch
| KeyError (key : string).

Fixpoint lookup_instrument (ts exchange : string)
    (instruments : list Instrument) : lookup_result :=
  match instruments with
  | [] => NoMatch
  | instr :: rest =>
      match i_symbol instr with
      | None => KeyError "symbol"
      | Some s =>
          if String.eqb s ts then
            match i_exch_seg instr with
            | None => KeyError "exch_seg"
            | Some seg =>
                if String.eqb seg exchange then
                  match i_token instr with
                  | None => KeyError "token"
                  | Some token => Matched token
                  end
                else lookup_instrument ts exchange rest
            end
          else lookup_instrument ts exchange rest
      end
  end.

(** The loop [for ts in tradingsymbols]: the tokens to drop, or the key of
    the KeyError that ends the call. *)
Fixpoint unsubscribe_scan (st : State) (instruments : list Instrument)
    (exchange : string) (exchange_type : Z) (tradingsymbols : list string)
    (tokens : list string) : list string + string :=
  match tradingsymbols with
  | [] => inl tokens
  | ts :: rest =>
      match lookup_instrument ts exchange instruments with
      | KeyError key => inr key
      | NoMatch =>
          unsubscribe_scan st instruments exchange exchange_type rest tokens
      | Matched token =>
          unsubscribe_scan st instruments exchange exchange_type rest
            (if subscribed_under st exchange_type token
             then tokens ++ [token] else tokens)
      end
  end.

(** The outcome of a call: the state after it, the request made on the
    feed ([self.sws.unsubscribe]), the text of the exception that left the
    method if one did, and the symbols of the ["unsubscribed"] message when
    it is sent ([Msg] has no constructor for that message, so it is not in
    [sent]). *)
Record Outcome : Type := mkOutcome {
  u_state : State;
  u_request : option (Z * list string);
  u_raised : option string;
  u_reply : option (list string)
}.

Definition with_registry (st : State)
    (subscribed : gmap Z (gset string)) (symbols : gmap string string)
  : State :=
  mkState subscribed symbols (token_to_symbol st) (instrument_list st)
    (monitor_symbols st) (indicator_refresh_task st) (smart_api st)
    (sws_accepts st) (table st) (now st) (sent st) (feed_requests st)
    (close_calls st).

(** [handle_unsubscribe]; [feed_error] is [None] when
    [self.sws.unsubscribe] returns for the request of this call, and the
    text of its exception otherwise (also when [self.sws] is [None]). *)
Definition handle_unsubscribe (st : State) (feed_error : option string)
    (tradingsymbols : list string) (exchange : string) : Outcome :=
  match instrument_list st with
  | None | Some [] =>
      mkOutcome (send (MError "Instrument list not loaded") st) None None None
  | Some instruments =>
      let exchange_type := default 1%Z (EXCHANGE_MAP !! exchange) in
      match unsubscribe_scan st instruments exchange exchange_type
              tradingsymbols [] with
      | inr key => mkOutcome st None (Some ("'" ++ key ++ "'")%string) None
      | inl [] => mkOutcome st None None None
      | inl tokens =>
          match feed_error with
          | Some text =>
              mkOutcome st (Some (exchange_type, tokens)) (Some text) None
          | None =>
              let remaining :=
                default ∅ (subscribed_tokens st !! exchange_type)
                ∖ list_to_set tokens in
              let subscribed :=
                if decide (remaining = ∅)
                then delete exchange_type (subscribed_tokens st)
                else <[exchange_type := remaining]> (subscribed_tokens st) in
              let symbols :=
                fold_left (fun m token => delete token m) tokens
                          (token_symbol_map st) in
              mkOutcome (with_registry st subscribed symbols)
                (Some (exchange_type, tokens)) None (Some tradingsymbols)
          end
      end
  end.

(** The ["unsubscribe"] branch of [receive]: an exception of the handler
    is answered with [{"error": str(e)}]. *)
Definition receive_unsubscribe (st : State) (feed_error : option string)
    (tradingsymbols : list string) (exchange : string) : State :=
  let outcome := handle_unsubscribe st feed_error tradingsymbols exchange in
  match u_raised outcome with
  | Some text => send (MError text) (u_state outcome)
  | None => u_state outcome
  end.

(** The token [handle_unsubscribe] finds for a symbol, if any. *)
Definition found (instruments : list Instrument) (exchange ts : string)
  : option string :=
  match lookup_instrument ts exchange instruments with
  | Matched token => Some token
  | _ => None
  end.

(** The tokens a request drops: those found for its symbols that are
    subscribed under the exchange type of the request, in request order. *)
Definition to_drop (st : State) (instruments : list Instrument)
    (exchange : string) (exchange_type : Z) (tradingsymbols : list string)
  : list string :=
  filter (fun t => subscribed_under st exchange_type t = true)
         (omap (found instruments exchange) tradingsymbols).

(** Every entry of the list has its three keys. *)
Definition complete (instruments : list Instrument) : Prop :=
  Forall (fun instr =>
            is_Some (i_token instr) /\ is_Some (i_symbol instr)
            /\ is_Some (i_exch_seg instr)) instruments.

(** No exchange type is kept with an empty set. *)
Definition no_empty_sets (st : State) : Prop :=
  forall exchange_type s,
    subscribed_tokens st !! exchange_type = Some s -> s <> ∅.

(** Every token subscribed under some exchange type is monitored. *)
Definition subscribed_are_monitored (st : State) : Prop :=
  forall exchange_type s token,
    subscribed_tokens st !! exchange_type = Some s -> token ∈ s ->
    token ∈ monitor_symbols st.

End Unsubscribe.
Export Unsubscribe.

(** ** Signals and sides *)

Module Sides.

(** A signal fits a side: an entry without a position, an exit for a LONG
    or a SHORT one. *)
Definition fits (side : string) (sig : Signal) : Prop :=
  (side = "NONE" /\ (action sig = BUY \/ action sig = SELL))
  \/ ((side = "LONG" \/ side = "SHORT") /\ action sig = EXIT).

End Sides.
Export Sides.

(** ** Names of tokens ([setup_connection], lines 51-56) *)

Module TokenNames.

(** An instrument gives a token a name: it carries the token and a
    non-empty symbol. *)
Definition names (tok : string) (instr : Instrument) : Prop :=
  i_token instr = Some tok
  /\ exists s, i_symbol instr = Some s /\ truthy s = true.

End TokenNames.
Export TokenNames.

(** ** Historical data with strategies ([handle_get_historical]) *)

Module Historical.

(** The fields of [params] the handler reads. *)
Record HistParams : Type := mkHistParams {
  p_symboltoken : option string;
  p_exchange : option string;
  p_interval : option string;
  p_from_date : option string;
  p_to_date : option string
}.

(** The ["historical_data_with_indicators"] object. *)
Record HistResponse : Type := mkHistResponse {
  h_symboltoken : string;
  h_interval : string;
  h_num_candles : nat;
  h_latest_close : option Q;
  h_rsi_14 : pyval;
  h_macd : macd_info;
  h_adx : adx_info
}.

(** [round(x, nd)] on a float that may be an infinity or NaN. *)
Definition f_round (x : fnum) (nd : nat) : fnum :=
  match x with
  | Fin q => Fin (py_round q nd)
  | PInf => PInf
  | NInf => NInf
  | NaN => NaN
  end.

(** Python truth of an optional string ([None] and [""] are false). *)
Definition present (s : option string) : bool :=
  match s with
  | Some v => truthy v
  | None => false
  end.

Section WithAdx.

(** The pandas computation of [calculate_adx] (true range, directional
    movement, rolling means): the triple [adx, +DI, -DI] it returns for
    series that are long enough.  It is not modelled; what follows holds
    for every such function. *)
Variable adx_core : list Q -> list Q -> list Q -> nat -> fnum * fnum * fnum.

(** [calculate_adx(highs, lows, closes, period)] *)
Definition calculate_adx (highs lows closes : list Q) (period : nat)
  : option fnum * option fnum * option fnum :=
  if (length closes <? period * 2)%nat then (None, None, None)
  else
    let '(adx, di_plus, di_minus) := adx_core highs lows closes period in
    (Some adx, Some di_plus, Some di_minus).

(** The response object built from the candles. *)
Definition hist_response (symbol_token interval : string)
    (candles : list Candle) : HistResponse :=
  let closes := c_close <$> candles in
  let highs := c_high <$> candles in
  let lows := c_low <$> candles in
  let rsi := calculate_rsi closes 14 in
  let '(macd_line, macd_signal, macd_hist) := calculate_macd closes 12 26 9 in
  let '(adx, di_plus, di_minus) := calculate_adx highs lows closes 14 in
  let num (nd : nat) (v : option Q) : pyval :=
    match v with
    | Some x => VFloat (Fin (py_round x nd))
    | None => VNone
    end in
  let fnum_or_none (v : option fnum) : pyval :=
    match v with
    | Some x => VFloat (f_round x 2)
    | None => VNone
    end in
  mkHistResponse symbol_token interval (length candles)
    ((fun c => py_round c 2) <$> last closes)
    (match rsi with
     | Some r => VFloat (Fin (py_round r 2))
     | None => VStr "Not enough data"
     end)
    (mkMacdInfo (num 4 macd_line) (num 4 macd_signal) (num 4 macd_hist))
    (mkAdxInfo
       (match adx with
        | Some x => VFloat (f_round x 2)
        | None => VStr "Not enough data"
        end)
       (fnum_or_none di_plus) (fnum_or_none di_minus)).

(** [for sig in [s for s in [adx_signal, macd_signal] if s]:
       self.handle_strategy_signal(symbol_token, sig, latest_close=...)] *)
Definition forward_signals (st : State) (symbol_token : string)
    (signals : list (option Signal)) (latest_close : option Q) : State :=
  fold_left
    (fun s sig => handle_strategy_signal s symbol_token (Some sig) latest_close)
    (omap id signals) st.

(** [handle_get_historical(params)].  [reply] is what
    [self.smart_api.getCandleData] does for the request of this call (the
    request carries the interval and the dates of [params], which the
    function in [smart_api] does not see).  The result is the state after
    the call and, when the handler gets there, the response object it sends
    last. *)
Definition handle_get_historical (st : State) (params : HistParams)
    (reply : candle_reply) : State * option HistResponse :=
  let failed := (send (MError "Historical fetch failed") st, None) in
  match p_symboltoken params with
  | Some symbol_token =>
      if present (p_symboltoken params) && present (p_from_date params)
         && present (p_to_date params)
      then
        match smart_api st with
        | None => failed                        (* AttributeError *)
        | Some _ =>
            match reply with
            | Raises | NoReply => failed
            | Reply status_true data =>
                if status_true && negb (bool_decide (length data = 0%nat))
                then
                  let interval :=
                    default "FIFTEEN_MINUTE" (p_interval params) in
                  let response := hist_response symbol_token interval data in
                  let open_pos :=
                    get_open_position_for_token symbol_token (table st) in
                  let current_side :=
                    match open_pos with Some _ => "OPEN" | None => "NONE" end in
                  let adx_signal :=
                    check_adx_strategy (h_adx response) current_side in
                  match check_macd_strategy (h_macd response) current_side with
                  | inr _ => failed
                  | inl macd_signal =>
                      (forward_signals st symbol_token
                         [adx_signal; macd_signal] (h_latest_close response),
                       Some response)
                  end
                else
                  (* the text is the ['message'] of the reply when it has one *)
                  (send (MError "No historical data or failure") st, None)
            end
        end
      else failed
  | None => failed
  end.

End WithAdx.

End Historical.
Export Historical.

(** ** How rows may change *)

Module Lifecycle.

(** The fields fixed when a row is created. *)
Definition same_terms (p q : Position) : Prop :=
  symbol q = symbol p /\ exchange q = exchange p /\ token q = token p
  /\ entry_price q = entry_price p /\ entry_datetime q = entry_datetime p
  /\ target q = target p /\ stoploss q = stoploss p
  /\ lots q = lots p /\ quantity q = quantity p.

(** One row before and after some operations: the terms stay, a row that is
    not OPEN stays as it is. *)
Definition row_step (p q : Position) : Prop :=
  same_terms p q /\ (status p <> OPEN -> q = p).

(** A table before and after: every row is still there, at its index. *)
Definition table_step (t t' : list Position) : Prop :=
  forall i p, t !! i = Some p -> exists q, t' !! i = Some q /\ row_step p q.

(** The three ways the handlers write the table for a token: a new open
    row when the token has none, a new running amount on an open row, the
    closing of an open row. *)
Inductive write (tok : string) (t : list Position) : list Position -> Prop :=
| write_open p :
    token p = tok -> status p = OPEN -> open_count tok t = 0%nat ->
    write tok t (t ++ [p])
| write_mtm (i : nat) p v :
    t !! i = Some p -> open_for tok p ->
    write tok t (<[i := set_mtm v p]> t)
| write_close (i : nat) p x at_time m :
    t !! i = Some p -> open_for tok p ->
    write tok t (<[i := set_closed x at_time m p]> t).

(** The registry of subscriptions and the monitored list are the same in
    two states. *)
Definition keeps_registry (st st' : State) : Prop :=
  subscribed_tokens st' = subscribed_tokens st
  /\ monitor_symbols st' = monitor_symbols st.

(** At most one open row for each token. *)
Definition one_open_per_token (t : list Position) : Prop :=
  forall tok, (open_count tok t <= 1)%nat.

(** The operations, with the two requests of this part: what the client
    asks and what the environment answers. *)
Inductive Command : Type :=
| Core (op : Op)
| CmdUnsubscribe (feed_error : option string) (tradingsymbols : list string)
    (exchange : string)
| CmdHistorical (params : HistParams) (reply : candle_reply).

(** The state after a command.  The ["unsubscribed"] message and the
    response of [handle_get_historical] are results of the handlers (see
    [u_reply] and the second component of [handle_get_historical]); [sent]
    holds the other messages. *)
Definition perform
    (adx_core : list Q -> list Q -> list Q -> nat -> fnum * fnum * fnum)
    (st : State) (cmd : Command) : State :=
  match cmd with
  | Core op => run st op
  | CmdUnsubscribe feed_error syms exchange =>
      receive_unsubscribe st feed_error syms exchange
  | CmdHistorical params reply =>
      (handle_get_historical adx_core st params reply).1
  end.

(** [open_position_db] is only called from [handle_strategy_signal]; a
    command that calls it directly is not one the program makes. *)
Definition made_by_program (cmd : Command) : Prop :=
  match cmd with
  | Core (OpOpen _ _ _ _ _) => False
  | _ => True
  end.

(** The token whose rows a command may write, if it may write any. *)
Definition token_of (cmd : Command) : option string :=
  match cmd with
  | Core (OpTick message) => tick_token message
  | Core (OpSignal symbol_token _ _) => Some symbol_token
  | Core (OpOpen symbol_token _ _ _ _) => Some symbol_token
  | Core (OpClose symbol_token _ _) => Some symbol_token
  | CmdHistorical params _ => p_symboltoken params
  | _ => None
  end.

End Lifecycle.
Export Lifecycle.

(** ** More inputs for the examples *)

Module Examples.

Definition rising_closes : list Q := c_close <$> rising_candles.

Definition falling_closes : list Q :=
  (fun n : nat => inject_Z (Z.of_nat (200 - n))) <$> seq 0 30.

Definition flat_closes : list Q := replicate 30 100%Q.

(** An ADX computation that reports a strong uptrend. *)
Definition adx_uptrend (highs lows closes : list Q) (period : nat)
  : fnum * fnum * fnum :=
  (Fin 30, Fin 25, Fin 10).

Definition hist_request : HistParams :=
  mkHistParams (Some "3045") (Some "NSE") (Some "FIFTEEN_MINUTE")
    (Some "2026-01-01 09:15") (Some "2026-01-10 15:30").

(** A run that subscribes, opens a position on a signal, receives a tick,
    unsubscribes, asks for the history and refreshes. *)
Definition sample_run : list Command :=
  [ Core (OpSubscribe ["SBIN-EQ"] "NSE");
    Core (OpSignal "3045" (Some (mkSignal BUY (R_text "manual") None))
            (Some 100%Q));
    Core (OpTick (mkTick (Some "3045") (Some 9900%Z)));
    CmdUnsubscribe None ["SBIN-EQ"] "NSE";
    CmdHistorical hist_request (Reply true rising_candles);
    Core OpRefresh ].

(** Commands that concern token 2885 only. *)
Definition reliance_run : list Command :=
  [ Core (OpSignal "2885" (Some (mkSignal SELL (R_text "manual") None))
            (Some 2500%Q));
    Core (OpTick (mkTick (Some "2885") (Some 250000%Z)));
    Core (OpClose "2885" 2490%Q None);
    Core (OpOpen "2885" "LONG" 2500%Q 50 1) ].

End Examples.
Export Examples.

(** * Properties *)

(** ** Numbers *)

Module NumFacts.

Lemma Qltb_lt x y : Qltb x y = true <-> (x < y)%Q.
Proof.
  unfold Qltb. rewrite negb_true_iff.
  destruct (Qle_bool y x) eqn:E.
  - apply Qle_bool_iff in E. split; [discriminate | intros H; lra].
  - split; [intros _ | reflexivity].
    apply Qnot_le_lt. intros H. apply Qle_bool_iff in H. congruence.
Qed.

Lemma Qgtb_gt x y : Qgtb x y = true <-> (y < x)%Q.
Proof. apply Qltb_lt. Qed.

Lemma Qgeb_ge x y : Qgeb x y = true <-> (y <= x)%Q.
Proof. apply Qle_bool_iff. Qed.

Lemma Qltb_ge x y : Qltb x y = false <-> (y <= x)%Q.
Proof.
  unfold Qltb. rewrite negb_false_iff. apply Qle_bool_iff.
Qed.

Lemma Qgeb_lt x y : Qgeb x y = false <-> (x < y)%Q.
Proof.
  unfold Qgeb. destruct (Qle_bool y x) eqn:E.
  - apply Qle_bool_iff in E. split; [discriminate | intros H; lra].
  - split; [intros _ | reflexivity].
    apply Qnot_le_lt. intros H. apply Qle_bool_iff in H. congruence.
Qed.

Lemma round_half_even_nonneg x : (0 <= x)%Q -> (0 <= round_half_even x)%Z.
Proof.
  intros Hx. unfold round_half_even.
  assert (Hf : (0 <= Qfloor x)%Z).
  { change 0%Z with (Qfloor 0). apply Qfloor_resp_le; assumption. }
  destruct (x - inject_Z (Qfloor x) ?= 1 # 2)%Q; try lia.
  destruct (Z.even (Qfloor x)); lia.
Qed.

Lemma py_round_nonneg x nd : (0 <= x)%Q -> (0 <= py_round x nd)%Q.
Proof.
  intros Hx. unfold py_round.
  assert (Hs : (0 < inject_Z (10 ^ Z.of_nat nd))%Q).
  { change 0%Q with (inject_Z 0). rewrite <- Zlt_Qlt.
    apply Z.pow_pos_nonneg; lia. }
  apply Qle_shift_div_l; [assumption |].
  rewrite Qmult_0_l. change 0%Q with (inject_Z 0). rewrite <- Zle_Qle.
  apply round_half_even_nonneg.
  apply Qmult_le_0_compat; [assumption | lra].
Qed.

End NumFacts.
Export NumFacts.

(** ** Rounding and comparing computed values *)

Module Binary64Facts.

Lemma scale_pos nd : (0 < inject_Z (10 ^ Z.of_nat nd))%Q.
Proof.
  change 0%Q with (inject_Z 0). rewrite <- Zlt_Qlt.
  apply Z.pow_pos_nonneg; lia.
Qed.

Lemma round_half_even_near y :
  (round_half_even y = Qfloor y \/ round_half_even y = (Qfloor y + 1)%Z)
  /\ (Qabs (inject_Z (round_half_even y) - y) <= 1 # 2)%Q.
Proof.
  pose proof (Qfloor_le y) as Hl. pose proof (Qlt_floor y) as Hu.
  rewrite inject_Z_plus in Hu. change (inject_Z 1) with 1%Q in Hu.
  unfold round_half_even.
  destruct (y - inject_Z (Qfloor y) ?= 1 # 2)%Q eqn:E.
  - apply Qeq_alt in E. destruct (Z.even (Qfloor y)).
    + split; [left; reflexivity |]. apply Qabs_Qle_condition. lra.
    + split; [right; reflexivity |]. rewrite inject_Z_plus. change (inject_Z 1) with 1%Q.
      apply Qabs_Qle_condition. lra.
  - apply Qlt_alt in E. split; [left; reflexivity |].
    apply Qabs_Qle_condition. lra.
  - apply Qgt_alt in E. split; [right; reflexivity |].
    rewrite inject_Z_plus. change (inject_Z 1) with 1%Q.
    apply Qabs_Qle_condition. lra.
Qed.

(** The result of [round_computed]: one of the two decimals around the
    exact value, within half a unit of the last digit. *)
Lemma round_computed_near exact computed nd :
  let scale := inject_Z (10 ^ Z.of_nat nd) in
  exists z,
    round_computed exact computed nd = (inject_Z z / scale)%Q
    /\ (z = Qfloor (exact * scale) \/ z = (Qfloor (exact * scale) + 1)%Z)
    /\ (Qabs (inject_Z z - exact * scale) <= 1 # 2)%Q.
Proof.
  cbn zeta. set (scale := inject_Z (10 ^ Z.of_nat nd)).
  assert (Hpy : exists z,
             py_round exact nd = (inject_Z z / scale)%Q
             /\ (z = Qfloor (exact * scale)
                 \/ z = (Qfloor (exact * scale) + 1)%Z)
             /\ (Qabs (inject_Z z - exact * scale) <= 1 # 2)%Q).
  { exists (round_half_even (exact * scale)).
    split; [reflexivity | apply round_half_even_near]. }
  unfold round_computed. fold scale.
  destruct (half_way exact nd) eqn:Eh; [| exact Hpy].
  unfold half_way in Eh. fold scale in Eh. apply Qeq_bool_iff in Eh.
  destruct (Q_of_b64 computed) as [v |]; [| exact Hpy].
  destruct (Qltb v exact).
  - exists (Qfloor (exact * scale)).
    split; [reflexivity |]. split; [left; reflexivity |].
    apply Qabs_Qle_condition. lra.
  - destruct (Qltb exact v); [| exact Hpy].
    exists (Qfloor (exact * scale) + 1)%Z.
    split; [reflexivity |]. split; [right; reflexivity |].
    rewrite inject_Z_plus. change (inject_Z 1) with 1%Q.
    apply Qabs_Qle_condition. lra.
Qed.

Lemma round_computed_off_tie exact computed nd :
  half_way exact nd = false ->
  round_computed exact computed nd = py_round exact nd.
Proof. intros H. unfold round_computed. rewrite H. reflexivity. Qed.

(** Rounding to cents never crosses a price that is itself in cents. *)
Lemma round_computed_ge_cents x c r :
  (inject_Z r / 100 <= x)%Q -> (inject_Z r / 100 <= round_computed x c 2)%Q.
Proof.
  intros H.
  destruct (round_computed_near x c 2) as (z & -> & Hz & _).
  change (inject_Z (10 ^ Z.of_nat 2)) with 100%Q in *.
  assert (E : (inject_Z r / 100 * 100 == inject_Z r)%Q) by (field; lra).
  assert (Hr : (r <= Qfloor (x * 100))%Z).
  { rewrite <- (Qfloor_Z r). apply Qfloor_resp_le. lra. }
  apply Qle_shift_div_l; [lra |].
  rewrite E. rewrite <- Zle_Qle. lia.
Qed.

Lemma round_computed_le_cents x c r :
  (x <= inject_Z r / 100)%Q -> (round_computed x c 2 <= inject_Z r / 100)%Q.
Proof.
  intros H.
  destruct (round_computed_near x c 2) as (z & -> & Hz & Hn).
  change (inject_Z (10 ^ Z.of_nat 2)) with 100%Q in *.
  assert (E : (inject_Z r / 100 * 100 == inject_Z r)%Q) by (field; lra).
  assert (Hy : (x * 100 <= inject_Z r)%Q) by lra.
  apply Qabs_Qle_condition in Hn.
  assert (Hzr : (inject_Z z < inject_Z r + 1)%Q) by lra.
  change 1%Q with (inject_Z 1) in Hzr.
  rewrite <- inject_Z_plus, <- Zlt_Qlt in Hzr.
  apply Qle_shift_div_r; [lra |].
  rewrite E. rewrite <- Zle_Qle. lia.
Qed.

Lemma round_computed_nonneg x c : (0 <= x)%Q -> (0 <= round_computed x c 2)%Q.
Proof.
  intros H. pose proof (round_computed_ge_cents x c 0) as G.
  assert (E : (inject_Z 0 / 100 == 0)%Q) by reflexivity.
  rewrite E in G. apply G, H.
Qed.

Lemma round_computed_cents x c : rounded_to_cents x (round_computed x c 2).
Proof.
  destruct (round_computed_near x c 2) as (z & E & _ & Hn).
  change (inject_Z (10 ^ Z.of_nat 2)) with 100%Q in *.
  split; [| split].
  - exists z. rewrite E. reflexivity.
  - rewrite E. apply Qabs_Qle_condition in Hn. apply Qabs_Qle_condition.
    split.
    + apply Qle_minus_iff.
      assert (X : (inject_Z z / 100 - x + - - (1 # 200)
                   == (inject_Z z - x * 100 + (1 # 2)) / 100)%Q)
        by (field; lra).
      rewrite X. apply Qle_shift_div_l; lra.
    + apply Qle_minus_iff.
      assert (X : ((1 # 200) + - (inject_Z z / 100 - x)
                   == ((1 # 2) - (inject_Z z - x * 100)) / 100)%Q)
        by (field; lra).
      rewrite X. apply Qle_shift_div_l; lra.
  - apply round_computed_off_tie.
Qed.

(** The comparison: decided by the exact value away from the bound. *)
Lemma gt_computed_above exact computed bound :
  (bound < exact)%Q -> gt_computed exact computed bound = true.
Proof.
  intros H. unfold gt_computed.
  destruct (Qeq_bool exact bound) eqn:E.
  - apply Qeq_bool_iff in E. lra.
  - apply Qgtb_gt. exact H.
Qed.

Lemma gt_computed_below exact computed bound :
  (exact < bound)%Q -> gt_computed exact computed bound = false.
Proof.
  intros H. unfold gt_computed.
  destruct (Qeq_bool exact bound) eqn:E.
  - apply Qeq_bool_iff in E. lra.
  - unfold Qgtb. apply negb_false_iff, Qle_bool_iff. lra.
Qed.

Lemma gt_computed_at exact computed bound :
  (exact == bound)%Q ->
  gt_computed exact computed bound
  = PrimFloat.ltb (b64_of_Q bound) computed.
Proof.
  intros H. unfold gt_computed.
  apply Qeq_bool_iff in H. rewrite H. reflexivity.
Qed.

End Binary64Facts.
Export Binary64Facts.

(** ** Strategy engine *)

Module StrategyFacts.

Lemma f_gt_asym x y : f_gt x y = true -> f_gt y x = false.
Proof.
  destruct x as [a| | |], y as [b| | |]; simpl; try congruence.
  intros H. apply Qgtb_gt in H.
  unfold Qgtb. apply negb_false_iff, Qle_bool_iff. lra.
Qed.

(** C8.  [check_adx_strategy] on numeric +DI and -DI: without a position it
    gives BUY exactly when [+DI > 20] and [+DI > -DI], and SELL exactly when
    [-DI > 20] and [-DI > +DI]; for a LONG position it gives EXIT exactly
    when [+DI < 18] (and nothing otherwise), for a SHORT position EXIT
    exactly when [-DI < 18] (and nothing otherwise).  When +DI or -DI is
    absent (or a string) there is no signal, whatever the side.  The two
    examples of the specification evaluate to BUY and to EXIT. *)
Theorem check_adx_strategy_rule :
  (forall a dp dm,
     let info := mkAdxInfo a (VFloat dp) (VFloat dm) in
     (action <$> check_adx_strategy info "NONE" = Some BUY
        <-> f_gt dp (Fin 20) = true /\ f_gt dp dm = true)
     /\ (action <$> check_adx_strategy info "NONE" = Some SELL
        <-> f_gt dm (Fin 20) = true /\ f_gt dm dp = true)
     /\ (action <$> check_adx_strategy info "LONG" = Some EXIT
        <-> f_lt dp (Fin 18) = true)
     /\ (check_adx_strategy info "LONG" = None
        <-> f_lt dp (Fin 18) = false)
     /\ (action <$> check_adx_strategy info "SHORT" = Some EXIT
        <-> f_lt dm (Fin 18) = true)
     /\ (check_adx_strategy info "SHORT" = None
        <-> f_lt dm (Fin 18) = false))
  /\ (forall a v s side,
        check_adx_strategy (mkAdxInfo a VNone v) side = None
        /\ check_adx_strategy (mkAdxInfo a v VNone) side = None
        /\ check_adx_strategy (mkAdxInfo a (VStr s) v) side = None
        /\ check_adx_strategy (mkAdxInfo a v (VStr s)) side = None)
  /\ action <$> check_adx_strategy
                  (mkAdxInfo VNone (VFloat (Fin 25)) (VFloat (Fin 10))) "NONE"
     = Some BUY
  /\ action <$> check_adx_strategy
                  (mkAdxInfo VNone (VFloat (Fin 15)) (VFloat (Fin 10))) "LONG"
     = Some EXIT.
Proof.
  split; [| split; [| split; reflexivity]].
  - intros a dp dm info. unfold info, check_adx_strategy. cbn -[f_gt f_lt].
    destruct (f_gt dp (Fin 20)) eqn:E1, (f_gt dp dm) eqn:E2,
             (f_gt dm (Fin 20)) eqn:E3, (f_gt dm dp) eqn:E4,
             (f_lt dp (Fin 18)) eqn:E5, (f_lt dm (Fin 18)) eqn:E6;
      try (apply f_gt_asym in E2; congruence);
      cbn; repeat split; intros; try congruence; try tauto;
      repeat match goal with H : _ /\ _ |- _ => destruct H end; congruence.
  - intros a v s side. unfold check_adx_strategy. cbn.
    destruct v; repeat split; reflexivity.
Qed.

End StrategyFacts.

(** ** Position store *)

Module StoreFacts.

Lemma open_count_zero tok rows :
  Forall (fun p => ~ open_for tok p) rows -> open_count tok rows = 0%nat.
Proof.
  unfold open_count. induction 1 as [| r rows Hr _ IH]; [reflexivity |].
  rewrite filter_cons_False by assumption. exact IH.
Qed.

Lemma latest_open_spec tok rows :
  forall i best,
    match latest_open tok i rows best with
    | None => best = None /\ Forall (fun p => ~ open_for tok p) rows
    | Some (j, p) =>
        best = Some (j, p)
        \/ exists k, j = (i + k)%nat /\ rows !! k = Some p /\ open_for tok p
    end.
Proof.
  induction rows as [| r rows IH]; intros i best; simpl.
  - destruct best as [[j p] |]; [left; reflexivity | split; [reflexivity | constructor]].
  - specialize (IH (S i)).
    destruct (decide (open_for tok r)) as [Hr | Hr].
    + destruct best as [[bj b] |].
      * destruct (entry_datetime b <? entry_datetime r)%Z.
        -- specialize (IH (Some (i, r))).
           destruct (latest_open tok (S i) rows (Some (i, r))) as [[j p] |].
           ++ destruct IH as [IH | (k & -> & Hk & Ho)].
              ** inversion IH; subst. right. exists 0%nat.
                 split; [lia | split; [reflexivity | assumption]].
              ** right. exists (S k). split; [lia | split; assumption].
           ++ destruct IH as [IH _]. discriminate.
        -- specialize (IH (Some (bj, b))).
           destruct (latest_open tok (S i) rows (Some (bj, b))) as [[j p] |].
           ++ destruct IH as [IH | (k & -> & Hk & Ho)].
              ** left. assumption.
              ** right. exists (S k). split; [lia | split; assumption].
           ++ destruct IH as [IH _]. discriminate.
      * specialize (IH (Some (i, r))).
        destruct (latest_open tok (S i) rows (Some (i, r))) as [[j p] |].
        -- destruct IH as [IH | (k & -> & Hk & Ho)].
           ++ inversion IH; subst. right. exists 0%nat.
              split; [lia | split; [reflexivity | assumption]].
           ++ right. exists (S k). split; [lia | split; assumption].
        -- destruct IH as [IH _]. discriminate.
    + specialize (IH best).
      destruct (latest_open tok (S i) rows best) as [[j p] |].
      * destruct IH as [IH | (k & -> & Hk & Ho)].
        -- left. assumption.
        -- right. exists (S k). split; [lia | split; assumption].
      * destruct IH as [-> IH]. split; [reflexivity |].
        constructor; assumption.
Qed.

Lemma get_open_Some tok rows j p :
  get_open_position_for_token tok rows = Some (j, p) ->
  rows !! j = Some p /\ open_for tok p.
Proof.
  unfold get_open_position_for_token. intros H.
  pose proof (latest_open_spec tok rows 0 None) as S. rewrite H in S.
  destruct S as [S | (k & -> & Hk & Ho)]; [discriminate |].
  split; assumption.
Qed.

Lemma get_open_None tok rows :
  get_open_position_for_token tok rows = None <-> open_count tok rows = 0%nat.
Proof.
  unfold get_open_position_for_token, open_count.
  pose proof (latest_open_spec tok rows 0 None) as S.
  split.
  - intros H. rewrite H in S. destruct S as [_ S].
    apply (open_count_zero tok rows S).
  - intros H. apply length_zero_iff_nil in H.
    destruct (latest_open tok 0 rows None) as [[j p] |]; [| reflexivity].
    destruct S as [S | (k & -> & Hk & Ho)]; [discriminate |].
    exfalso.
    assert (Hin : p ∈ filter (open_for tok) rows).
    { apply list_elem_of_filter. split; [assumption |].
      apply list_elem_of_lookup. eauto. }
    rewrite H in Hin. inversion Hin.
Qed.

Lemma open_count_close tok rows j p x t m :
  rows !! j = Some p -> open_for tok p ->
  open_count tok (<[j := set_closed x t m p]> rows)
  = (open_count tok rows - 1)%nat.
Proof.
  unfold open_count. revert j.
  induction rows as [| r rows IH]; intros j Hj Ho; [discriminate |].
  destruct j as [| j]; simpl in *.
  - inversion Hj; subst r.
    rewrite filter_cons_False.
    + rewrite filter_cons_True by assumption. simpl. lia.
    + unfold open_for. simpl. intros [_ H]. discriminate.
  - specialize (IH j Hj Ho).
    destruct (decide (open_for tok r)).
    + rewrite !filter_cons_True by assumption. simpl. rewrite IH.
      assert (0 < length (filter (open_for tok) rows))%nat; [| lia].
      assert (Hin : p ∈ filter (open_for tok) rows).
      { apply list_elem_of_filter. split; [assumption |].
        apply list_elem_of_lookup. eauto. }
      destruct (filter (open_for tok) rows); [inversion Hin | simpl; lia].
    + rewrite !filter_cons_False by assumption. exact IH.
Qed.

End StoreFacts.

Module CloseFacts.
Import StoreFacts.

Lemma close_position_db_table st tok x r :
  table (close_position_db st tok x r).1 =
  match get_open_position_for_token tok (table st) with
  | Some (i, p) =>
      <[i := set_closed x (now st)
               (py_round (realized_pnl p x) 2) p]> (table st)
  | None => table st
  end.
Proof.
  unfold close_position_db.
  change (table (note_close_call (tok, x, r) st)) with (table st).
  destruct (get_open_position_for_token tok (table st)) as [[i p] |];
    reflexivity.
Qed.

Lemma close_keeps_closed_rows st tok x r j q :
  table st !! j = Some q -> status q <> OPEN ->
  table (close_position_db st tok x r).1 !! j = Some q.
Proof.
  intros Hj Hq. rewrite close_position_db_table.
  destruct (get_open_position_for_token tok (table st)) as [[i p] |] eqn:E;
    [| assumption].
  apply get_open_Some in E. destruct E as [Hi [_ Ho]].
  rewrite list_lookup_insert_ne; [assumption |].
  intros ->. rewrite Hi in Hj. inversion Hj; subst. contradiction.
Qed.

(** C5.  Once [close_position_db] has closed a row, that row is CLOSED with
    the exit price and time of that call, and a second call for the same
    token, with any exit price and reason, leaves it (and every other closed
    row) as it is; when the token had at most one open row, the second call
    finds nothing to close: it returns [None], writes no row and sends no
    message. *)
Theorem close_position_db_idempotent :
  forall st tok x1 r1 x2 r2 st1 c,
    close_position_db st tok x1 r1 = (st1, Some c) ->
    let second := close_position_db st1 tok x2 r2 in
    (exists i,
        table st1 !! i = Some c
        /\ status c = CLOSED
        /\ exit_price c = Some x1
        /\ exit_datetime c = Some (now st)
        /\ table second.1 !! i = Some c)
    /\ (forall j q,
          table st1 !! j = Some q -> status q = CLOSED ->
          table second.1 !! j = Some q)
    /\ ((open_count tok (table st) <= 1)%nat ->
        second.2 = None
        /\ table second.1 = table st1
        /\ sent second.1 = sent st1).
Proof.
  intros st tok x1 r1 x2 r2 st1 c H second.
  assert (Hclosed : forall j q,
             table st1 !! j = Some q -> status q = CLOSED ->
             table second.1 !! j = Some q).
  { intros j q Hj Hq. apply close_keeps_closed_rows; [assumption |].
    rewrite Hq. discriminate. }
  pose proof (close_position_db_table st tok x1 r1) as Ht.
  rewrite H in Ht. cbn [fst] in Ht.
  unfold close_position_db in H.
  change (table (note_close_call (tok, x1, r1) st)) with (table st) in H.
  destruct (get_open_position_for_token tok (table st)) as [[i p] |] eqn:E;
    [| discriminate].
  injection H as _ Hc.
  change (now (note_close_call (tok, x1, r1) st)) with (now st) in Hc.
  pose proof (get_open_Some _ _ _ _ E) as [Hi Ho].
  assert (Hlook : table st1 !! i = Some c).
  { rewrite Ht, Hc. apply list_lookup_insert_eq.
    apply lookup_lt_Some in Hi. exact Hi. }
  assert (Hc' : status c = CLOSED /\ exit_price c = Some x1
                /\ exit_datetime c = Some (now st)).
  { rewrite <- Hc. repeat split; reflexivity. }
  destruct Hc' as (Hs & Hx & Hd).
  split; [| split].
  - exists i. repeat split; try assumption.
    apply Hclosed; assumption.
  - exact Hclosed.
  - intros Hone.
    assert (Hnone : get_open_position_for_token tok (table st1) = None).
    { apply get_open_None. rewrite Ht.
      rewrite (open_count_close tok (table st) i p) by assumption. lia. }
    unfold second, close_position_db.
    change (table (note_close_call (tok, x2, r2) st1)) with (table st1).
    rewrite Hnone. repeat split; reflexivity.
Qed.

Lemma close_position_db_idempotent_witness :
  close_position_db long_opened "3045" 105%Q (Some (R_text "Strategy Exit"))
  = (long_closed, Some long_closed_row)
  /\ (open_count "3045" (table long_opened) <= 1)%nat
  /\ (close_position_db long_closed "3045" 90%Q None).2 = None
  /\ table (close_position_db long_closed "3045" 90%Q None).1
     = table long_closed
  /\ sent (close_position_db long_closed "3045" 90%Q None).1
     = sent long_closed.
Proof.
  assert (H : close_position_db long_opened "3045" 105%Q
                (Some (R_text "Strategy Exit"))
              = (long_closed, Some long_closed_row))
    by (vm_compute; reflexivity).
  assert (Hone : (open_count "3045" (table long_opened) <= 1)%nat)
    by (vm_compute; lia).
  split; [exact H |]. split; [exact Hone |].
  destruct (close_position_db_idempotent long_opened "3045" 105%Q
              (Some (R_text "Strategy Exit")) 90%Q None
              long_closed long_closed_row H) as (_ & _ & Hsecond).
  exact (Hsecond Hone).
Defined.

End CloseFacts.
(** ** Tick router *)


Module TickFacts.
Import StoreFacts CloseFacts.

Lemma round_half_even_proper x y : (x == y)%Q -> round_half_even x = round_half_even y.
Proof.
  intros H. unfold round_half_even.
  rewrite (Qfloor_comp _ _ H).
  assert (E : (x - inject_Z (Qfloor y) ?= 1 # 2)%Q
              = (y - inject_Z (Qfloor y) ?= 1 # 2)%Q).
  { apply Qcompare_comp; [rewrite H |]; reflexivity. }
  rewrite E. reflexivity.
Qed.

Lemma py_round_proper x y nd : (x == y)%Q -> py_round x nd = py_round y nd.
Proof.
  intros H. unfold py_round.
  rewrite (round_half_even_proper (x * _) (y * inject_Z (10 ^ Z.of_nat nd))).
  - reflexivity.
  - rewrite H. reflexivity.
Qed.

Lemma Qnat_nonneg n : (0 <= Qnat n)%Q.
Proof.
  unfold Qnat. change 0%Q with (inject_Z 0). rewrite <- Zle_Qle. lia.
Qed.

Lemma tick_mtm_abs ltp entry qty :
  (tick_mtm ltp entry qty == Qabs (ltp - entry) * Qnat qty)%Q.
Proof.
  unfold tick_mtm. destruct (Qgeb ltp entry) eqn:E.
  - apply Qgeb_ge in E. rewrite Qabs_pos by lra. reflexivity.
  - apply Qgeb_lt in E. rewrite Qabs_neg by lra.
    assert (X : (- (ltp - entry) == entry - ltp)%Q) by ring.
    rewrite X. reflexivity.
Qed.

Lemma tick_mtm_nonneg ltp entry qty : (0 <= tick_mtm ltp entry qty)%Q.
Proof.
  rewrite tick_mtm_abs. apply Qmult_le_0_compat;
    [apply Qabs_nonneg | apply Qnat_nonneg].
Qed.

Lemma realized_pnl_nonneg p x : (0 <= realized_pnl p x)%Q.
Proof.
  unfold realized_pnl. destruct (entry_price p) as [e |]; [| lra].
  pose proof (Qnat_nonneg (quantity p)).
  destruct (Qltb e x) eqn:E.
  - apply Qltb_lt in E. apply Qmult_le_0_compat; lra.
  - apply Qltb_ge in E. apply Qmult_le_0_compat; lra.
Qed.

Lemma filter_open_first_Some tok rows i p :
  filter_open_first tok rows = Some (i, p) ->
  rows !! i = Some p /\ open_for tok p.
Proof.
  unfold filter_open_first. intros H.
  apply list_find_Some in H. destruct H as (H1 & H2 & _). split; assumption.
Qed.

Lemma filter_open_first_None tok rows :
  filter_open_first tok rows = None <-> open_count tok rows = 0%nat.
Proof.
  unfold filter_open_first. rewrite list_find_None. split.
  - apply open_count_zero.
  - unfold open_count. intros H. apply length_zero_iff_nil in H.
    apply Forall_forall. intros p Hp Ho.
    assert (Hin : p ∈ filter (open_for tok) rows)
      by (apply list_elem_of_filter; split; assumption).
    rewrite H in Hin. inversion Hin.
Qed.

Lemma alter_set_mtm v (i : nat) (rows : list Position) p :
  rows !! i = Some p ->
  alter (set_mtm v) i rows = <[i := set_mtm v p]> rows.
Proof.
  intros H. rewrite list_insert_alter.
  apply list_alter_ext; [| reflexivity].
  intros x Hx. rewrite H in Hx. inversion Hx. reflexivity.
Qed.

(** A tick with a price, for a token with an open row that has an entry
    price: the MTM block runs, then the exit block. *)
Lemma on_data_open st tok raw i pos entry :
  raw <> 0%Z ->
  filter_open_first tok (table st) = Some (i, pos) ->
  entry_price pos = Some entry ->
  let ltp := (inject_Z raw / 100)%Q in
  let sym := default "UNKNOWN" (token_symbol_map st !! tok) in
  let st_p := send (MPrice sym (Some tok) (py_round ltp 2)) st in
  let mid := on_data_mtm st_p tok sym ltp i pos entry in
  on_data st (mkTick (Some tok) (Some raw))
  = on_data_exit mid.1 tok sym ltp mid.2 entry.
Proof.
  intros Hraw Hf He ltp sym st_p mid. unfold on_data.
  cbn [tick_token last_traded_price].
  destruct raw as [| r | r]; [contradiction | |];
    cbn [mbind option_bind];
    change (table (send _ st)) with (table st);
    rewrite Hf, He; fold ltp; fold sym; fold st_p; fold mid;
    destruct mid as [s o]; reflexivity.
Qed.

(** A tick for a token without an open row changes no row and closes
    nothing. *)
Lemma on_data_no_open st tick :
  (forall tok, tick_token tick = Some tok ->
               filter_open_first tok (table st) = None) ->
  table (on_data st tick) = table st
  /\ close_calls (on_data st tick) = close_calls st.
Proof.
  intros H. unfold on_data.
  destruct (last_traded_price tick) as [[| r | r] |];
    try (split; reflexivity);
    (destruct (tick_token tick) as [tok |]; [| split; reflexivity];
     change (table (send _ st)) with (table st);
     rewrite (H tok eq_refl); split; reflexivity).
Qed.

Lemma on_data_mtm_close_calls st tok sym ltp i pos entry :
  close_calls (on_data_mtm st tok sym ltp i pos entry).1 = close_calls st.
Proof.
  unfold on_data_mtm.
  destruct (mtm_moved _ _ _ _); reflexivity.
Qed.

Lemma exit_check_set_mtm ltp entry v pos :
  exit_check ltp entry (set_mtm v pos) = exit_check ltp entry pos.
Proof. reflexivity. Qed.

Lemma on_data_mtm_object st tok sym ltp i pos entry :
  exists v, (on_data_mtm st tok sym ltp i pos entry).2 = set_mtm v pos.
Proof.
  unfold on_data_mtm. destruct (mtm_moved _ _ _ _).
  - eexists. reflexivity.
  - exists (mtm pos). destruct pos; reflexivity.
Qed.

Lemma on_data_exit_close_calls st tok sym ltp pos entry :
  close_calls (on_data_exit st tok sym ltp pos entry)
  = close_calls st
    ++ (if (exit_check ltp entry pos).2
        then [(tok, ltp, (exit_check ltp entry pos).1)] else []).
Proof.
  unfold on_data_exit.
  destruct (exit_check ltp entry pos) as [r b]. destruct b; cbn [fst snd].
  - unfold close_position_db.
    change (table (note_close_call (tok, ltp, r) st)) with (table st).
    destruct (get_open_position_for_token tok (table st)) as [[j p] |];
      reflexivity.
  - symmetry. apply app_nil_r.
Qed.

Lemma exit_check_both ltp entry pos tg sl :
  target pos = Some tg -> stoploss pos = Some sl ->
  target_hit ltp entry tg = true -> stoploss_hit ltp entry sl = true ->
  exit_check ltp entry pos = (Some (R_text "Stoploss hit"), true).
Proof.
  intros Ht Hs H1 H2. unfold exit_check. rewrite Ht, Hs, H1, H2. reflexivity.
Qed.

(** Every tick makes at most one call of [close_position_db]. *)
Lemma on_data_close_calls st tick :
  exists l, close_calls (on_data st tick) = close_calls st ++ l
            /\ (length l <= 1)%nat.
Proof.
  destruct (last_traded_price tick) as [raw |] eqn:Hp;
    [| exists []; unfold on_data; rewrite Hp, app_nil_r; split; [reflexivity | simpl; lia]].
  destruct (decide (raw = 0%Z)) as [-> | Hraw];
    [exists []; unfold on_data; rewrite Hp, app_nil_r; split; [reflexivity | simpl; lia] |].
  destruct (tick_token tick) as [tok |] eqn:Ht.
  - destruct (filter_open_first tok (table st)) as [[i pos] |] eqn:Hf.
    + destruct (entry_price pos) as [entry |] eqn:He.
      * destruct tick as [tt tp]. cbn in Hp, Ht. subst tt tp.
        rewrite (on_data_open st tok raw i pos entry Hraw Hf He).
        rewrite on_data_exit_close_calls, on_data_mtm_close_calls.
        eexists. split; [reflexivity |].
        destruct (exit_check _ _ _).2; simpl; lia.
      * exists []. rewrite app_nil_r. split; [| simpl; lia].
        unfold on_data. rewrite Hp, Ht.
        destruct raw; [contradiction | |];
          change (table (send _ st)) with (table st); rewrite Hf, He;
          reflexivity.
    + exists []. rewrite app_nil_r. split; [| simpl; lia].
      apply on_data_no_open. intros tok' Htok'.
      rewrite Ht in Htok'. inversion Htok'; subst. assumption.
  - exists []. rewrite app_nil_r. split; [| simpl; lia].
    apply on_data_no_open. intros tok' Htok'. congruence.
Qed.

End TickFacts.

Module TickTheorems.
Import StoreFacts CloseFacts TickFacts.

Lemma mtm_moved_above ltp entry qty stored :
  (5 # 100 < Qabs (tick_mtm ltp entry qty - stored))%Q ->
  mtm_moved ltp entry qty stored = true.
Proof. intros H. unfold mtm_moved. apply gt_computed_above, H. Qed.

Lemma mtm_moved_below ltp entry qty stored :
  (Qabs (tick_mtm ltp entry qty - stored) < 5 # 100)%Q ->
  mtm_moved ltp entry qty stored = false.
Proof. intros H. unfold mtm_moved. apply gt_computed_below, H. Qed.

(** C1, as the code has it.  For a tick with a price on a token whose first
    open row has an entry price, [on_data] runs the MTM block and then the
    exit block.  The MTM block computes the unsigned amount
    [|ltp - entry| * quantity]; for prices and amounts in cents of ordinary
    size it writes the amount rounded to two decimals to that row (and to
    the object in memory) when the amount differs from the stored [mtm] by
    more than 0.05, and writes nothing when it differs by less.  At a
    difference of exactly 0.05 the comparison of the doubles decides, and
    both outcomes occur: entered at 100 with quantity 5, the tick 100.01
    is written (the double is 0.05000000000002558); with quantity 1 the
    tick 100.05 is not (0.04999999999999716).  A tick for a token without
    an open row changes no row and closes nothing. *)
Theorem on_data_mtm_unsigned :
  (forall st tok raw i pos entry,
      raw <> 0%Z ->
      filter_open_first tok (table st) = Some (i, pos) ->
      entry_price pos = Some entry ->
      let ltp := (inject_Z raw / 100)%Q in
      ordinary_price ltp -> ordinary_price entry ->
      ordinary_quantity (quantity pos) -> ordinary_amount (mtm pos) ->
      let sym := default "UNKNOWN" (token_symbol_map st !! tok) in
      let st_p := send (MPrice sym (Some tok) (py_round ltp 2)) st in
      let m := (Qabs (ltp - entry) * Qnat (quantity pos))%Q in
      let mid := on_data_mtm st_p tok sym ltp i pos entry in
      let written :=
        table mid.1 = <[i := set_mtm (py_round m 2) pos]> (table st)
        /\ mid.2 = set_mtm (py_round m 2) pos
        /\ mtm_updates (sent mid.1)
           = mtm_updates (sent st) ++ [py_round m 2] in
      let skipped := mid.1 = st_p /\ mid.2 = pos in
      on_data st (mkTick (Some tok) (Some raw))
      = on_data_exit mid.1 tok sym ltp mid.2 entry
      /\ (0 <= m)%Q
      /\ ((5 # 100 < Qabs (m - mtm pos))%Q -> written)
      /\ ((Qabs (m - mtm pos) < 5 # 100)%Q -> skipped)
      /\ ((Qabs (m - mtm pos) == 5 # 100)%Q -> written \/ skipped))
  /\ ((Qabs (tick_mtm (inject_Z 10001 / 100) 100 5 - 0) == 5 # 100)%Q
      /\ mtm_moved (inject_Z 10001 / 100) 100 5 0 = true
      /\ (Qabs (tick_mtm (inject_Z 10005 / 100) 100 1 - 0) == 5 # 100)%Q
      /\ mtm_moved (inject_Z 10005 / 100) 100 1 0 = false)
  /\ (forall st tok raw,
        filter_open_first tok (table st) = None ->
        table (on_data st (mkTick (Some tok) raw)) = table st
        /\ close_calls (on_data st (mkTick (Some tok) raw)) = close_calls st).
Proof.
  split; [| split].
  - intros st tok raw i pos entry Hraw Hf He ltp _ _ _ _ sym st_p m mid.
    cbn zeta.
    split; [apply on_data_open; assumption |].
    split; [apply Qmult_le_0_compat; [apply Qabs_nonneg | apply Qnat_nonneg] |].
    pose proof (tick_mtm_abs ltp entry (quantity pos)) as Hm. fold m in Hm.
    pose proof (filter_open_first_Some _ _ _ _ Hf) as [Hi _].
    assert (Habs : (Qabs (tick_mtm ltp entry (quantity pos) - mtm pos)
                    == Qabs (m - mtm pos))%Q) by (rewrite Hm; reflexivity).
    assert (Hwritten :
      mtm_moved ltp entry (quantity pos) (mtm pos) = true ->
      table mid.1 = <[i := set_mtm (py_round m 2) pos]> (table st)
      /\ mid.2 = set_mtm (py_round m 2) pos
      /\ mtm_updates (sent mid.1)
         = mtm_updates (sent st) ++ [py_round m 2]).
    { intros E. unfold mid, on_data_mtm. rewrite E. cbn [fst snd].
      rewrite (py_round_proper _ _ 2 Hm).
      change (table (send _ (set_table ?t _))) with t.
      change (mtm (set_mtm ?v _)) with v.
      split; [apply alter_set_mtm; exact Hi |].
      split; [reflexivity |].
      unfold st_p, mtm_updates. cbn [sent send set_table].
      rewrite !omap_app. cbn [omap list_omap]. rewrite app_nil_r.
      reflexivity. }
    assert (Hskipped :
      mtm_moved ltp entry (quantity pos) (mtm pos) = false ->
      mid.1 = st_p /\ mid.2 = pos).
    { intros E. unfold mid, on_data_mtm. rewrite E. split; reflexivity. }
    split; [| split].
    + intros Hgt. apply Hwritten, mtm_moved_above. rewrite Habs. exact Hgt.
    + intros Hlt. apply Hskipped, mtm_moved_below. rewrite Habs. exact Hlt.
    + intros _.
      destruct (mtm_moved ltp entry (quantity pos) (mtm pos));
        [left; apply Hwritten | right; apply Hskipped]; reflexivity.
  - split; [vm_compute; reflexivity |].
    split; [vm_compute; reflexivity |].
    split; vm_compute; reflexivity.
  - intros st tok raw Hf. apply on_data_no_open.
    intros tok' H. cbn in H. inversion H; subst. assumption.
Qed.

(** C1 as stated fails: a position entered at 100 with quantity 50 and a
    tick at 99.00.  The signed amount of the claim is [(99 - 100) * 50 =
    -50]; the amount the MTM block reports and the row keeps is [50]. *)
Lemma on_data_mtm_signed_counterexample :
  Qred <$> mtm_updates (sent long_after_tick) = [50%Q]
  /\ Qred <$> (mtm <$> table long_after_tick) = [50%Q]
  /\ ((inject_Z 9900 / 100 - 100) * Qnat 50 == -50)%Q
  /\ ~ (tick_mtm (inject_Z 9900 / 100) 100 50
        == (inject_Z 9900 / 100 - 100) * Qnat 50)%Q.
Proof.
  split; [vm_compute; reflexivity |].
  split; [vm_compute; reflexivity |].
  split; [vm_compute; reflexivity |].
  vm_compute. discriminate.
Qed.

Lemma ordinary_price_cents (k : Z) :
  (0 <= k <= 100000000)%Z -> ordinary_price (inject_Z k / 100).
Proof.
  intros [H0 H1]. split; [exists k; reflexivity |].
  rewrite Zle_Qle in H0, H1.
  assert (E : (inject_Z k / 100 * 100 == inject_Z k)%Q) by (field; lra).
  change (inject_Z 0) with 0%Q in H0.
  change (inject_Z 100000000) with 100000000%Q in H1.
  split; lra.
Qed.

Lemma on_data_mtm_unsigned_witness :
  filter_open_first "3045" (table long_opened) = Some (0%nat, long_row)
  /\ (5 # 100
      < Qabs (Qabs (inject_Z 9900 / 100 - 100) * Qnat (quantity long_row)
              - mtm long_row))%Q
  /\ (on_data_mtm
        (send (MPrice "UNKNOWN" (Some "3045")
                 (py_round (inject_Z 9900 / 100) 2)) long_opened)
        "3045" "UNKNOWN" (inject_Z 9900 / 100)%Q 0 long_row 100%Q).2
     = set_mtm
         (py_round
            (Qabs (inject_Z 9900 / 100 - 100) * Qnat (quantity long_row)) 2)
         long_row
  /\ filter_open_first "3045" (table session) = None
  /\ table (on_data session tick_99) = table session.
Proof.
  assert (Hf : filter_open_first "3045" (table long_opened)
               = Some (0%nat, long_row)) by (vm_compute; reflexivity).
  assert (Hgt : (5 # 100
                 < Qabs (Qabs (inject_Z 9900 / 100 - 100)
                         * Qnat (quantity long_row) - mtm long_row))%Q)
    by (vm_compute; reflexivity).
  assert (Hnone : filter_open_first "3045" (table session) = None)
    by reflexivity.
  assert (Hltp : ordinary_price (inject_Z 9900 / 100))
    by (apply ordinary_price_cents; lia).
  assert (Hentry : ordinary_price 100).
  { split; [exists 10000%Z; reflexivity | split; lra]. }
  assert (Hqty : ordinary_quantity (quantity long_row))
    by (vm_compute; discriminate).
  assert (Hmtm : ordinary_amount (mtm long_row)).
  { split; [exists 0%Z; reflexivity | split; vm_compute; discriminate]. }
  split; [exact Hf |]. split; [exact Hgt |].
  destruct (proj1 on_data_mtm_unsigned long_opened "3045" 9900%Z 0%nat
              long_row 100%Q ltac:(discriminate) Hf eq_refl
              Hltp Hentry Hqty Hmtm)
    as (_ & _ & Hwrite & _).
  destruct (Hwrite Hgt) as (_ & Hobj & _).
  split; [exact Hobj |]. split; [exact Hnone |].
  exact (proj1 (proj2 (proj2 on_data_mtm_unsigned) session "3045"
                  (Some 9900%Z) Hnone)).
Defined.

End TickTheorems.

(** ** Automatic exit *)

Module ExitFacts.
Import StoreFacts CloseFacts TickFacts.

Lemma open_count_pos tok (rows : list Position) i p :
  rows !! i = Some p -> open_for tok p -> (0 < open_count tok rows)%nat.
Proof.
  intros Hi Ho. unfold open_count.
  assert (Hin : p ∈ filter (open_for tok) rows).
  { apply list_elem_of_filter. split; [exact Ho |].
    apply list_elem_of_lookup. eauto. }
  destruct (filter (open_for tok) rows); [inversion Hin | simpl; lia].
Qed.

Lemma open_unique tok (rows : list Position) :
  forall i j p q,
    (open_count tok rows <= 1)%nat ->
    rows !! i = Some p -> open_for tok p ->
    rows !! j = Some q -> open_for tok q ->
    i = j.
Proof.
  induction rows as [| r rows IH]; intros i j p q Hc Hi Hp Hj Hq;
    [discriminate |].
  unfold open_count in Hc.
  destruct (decide (open_for tok r)) as [Hr | Hr].
  - rewrite filter_cons_True in Hc by exact Hr. cbn [length] in Hc.
    destruct i as [| i], j as [| j]; [reflexivity | | |]; exfalso.
    + pose proof (open_count_pos tok rows j q Hj Hq) as H.
      unfold open_count in H. lia.
    + pose proof (open_count_pos tok rows i p Hi Hp) as H.
      unfold open_count in H. lia.
    + pose proof (open_count_pos tok rows i p Hi Hp) as H.
      unfold open_count in H. lia.
  - rewrite filter_cons_False in Hc by exact Hr.
    destruct i as [| i], j as [| j].
    + reflexivity.
    + cbn in Hi. inversion Hi; subst. contradiction.
    + cbn in Hj. inversion Hj; subst. contradiction.
    + f_equal. apply (IH i j p q); assumption.
Qed.

(** With one open row for the token, both queries find that row. *)
Lemma get_open_the_one tok (rows : list Position) i p :
  (open_count tok rows <= 1)%nat ->
  rows !! i = Some p -> open_for tok p ->
  get_open_position_for_token tok rows = Some (i, p).
Proof.
  intros Hc Hi Hp.
  destruct (get_open_position_for_token tok rows) as [[j q] |] eqn:E.
  - apply get_open_Some in E. destruct E as [Hj Hq].
    assert (j = i) by (eapply open_unique; eassumption). subst j.
    rewrite Hi in Hj. inversion Hj. reflexivity.
  - apply get_open_None in E.
    pose proof (open_count_pos tok rows i p Hi Hp). lia.
Qed.

Lemma open_count_alter_mtm tok v (rows : list Position) :
  forall i, open_count tok (alter (set_mtm v) i rows) = open_count tok rows.
Proof.
  unfold open_count.
  induction rows as [| r rows IH]; intros i; [reflexivity |].
  destruct i as [| i]; cbn [alter list_alter].
  - destruct (decide (open_for tok r)) as [Hr | Hr].
    + rewrite !filter_cons_True; [reflexivity | exact Hr | exact Hr].
    + rewrite !filter_cons_False; [reflexivity | exact Hr | exact Hr].
  - destruct (decide (open_for tok r)) as [Hr | Hr].
    + rewrite !filter_cons_True by exact Hr. cbn [length]. f_equal. apply IH.
    + rewrite !filter_cons_False by exact Hr. apply IH.
Qed.

(** After the MTM block the row of the tick is still the row at [i], still
    open, and the number of open rows is what it was. *)
Lemma on_data_mtm_row st tok sym ltp i pos entry :
  table st !! i = Some pos -> open_for tok pos ->
  let mid := on_data_mtm st tok sym ltp i pos entry in
  table mid.1 !! i = Some mid.2
  /\ open_for tok mid.2
  /\ open_count tok (table mid.1) = open_count tok (table st)
  /\ now mid.1 = now st
  /\ exit_check ltp entry mid.2 = exit_check ltp entry pos.
Proof.
  intros Hi Ho. unfold on_data_mtm. destruct (mtm_moved _ _ _ _); cbn [fst snd].
  - change (table (send _ (set_table ?t _))) with t.
    change (mtm (set_mtm ?v _)) with v.
    rewrite list_lookup_alter_eq, Hi, open_count_alter_mtm.
    repeat split; try reflexivity; apply Ho.
  - repeat split; try reflexivity; try assumption; apply Ho.
Qed.

Lemma exit_check_stoploss ltp entry pos sl :
  stoploss pos = Some sl -> stoploss_hit ltp entry sl = true ->
  exit_check ltp entry pos = (Some (R_text "Stoploss hit"), true).
Proof.
  intros Hs H. unfold exit_check. rewrite Hs, H.
  destruct (target pos) as [tg |]; [destruct (target_hit ltp entry tg) |];
    reflexivity.
Qed.

Lemma stoploss_hit_at_stop ltp entry sl :
  (ltp == sl)%Q -> (sl <= entry)%Q -> stoploss_hit ltp entry sl = true.
Proof.
  intros H1 H2. unfold stoploss_hit.
  assert (E1 : Qle_bool ltp sl = true) by (apply Qle_bool_iff; lra).
  assert (E2 : Qle_bool ltp entry = true) by (apply Qle_bool_iff; lra).
  rewrite E1, E2. reflexivity.
Qed.

(** A tick that decides to exit: one call, and with one open row for the
    token that row is closed at the price of the tick. *)
Lemma on_data_exit_closes st tok raw i pos entry :
  raw <> 0%Z ->
  filter_open_first tok (table st) = Some (i, pos) ->
  entry_price pos = Some entry ->
  let ltp := (inject_Z raw / 100)%Q in
  (exit_check ltp entry pos).2 = true ->
  let st' := on_data st (mkTick (Some tok) (Some raw)) in
  close_calls st'
  = close_calls st ++ [(tok, ltp, (exit_check ltp entry pos).1)]
  /\ ((open_count tok (table st) <= 1)%nat ->
      exists closed,
        table st' !! i = Some closed
        /\ status closed = CLOSED
        /\ exit_price closed = Some ltp
        /\ exit_datetime closed = Some (now st)
        /\ open_count tok (table st') = 0%nat).
Proof.
  intros Hraw Hf He ltp Hx st'. unfold st'.
  rewrite (on_data_open st tok raw i pos entry Hraw Hf He).
  fold ltp.
  set (sym := default "UNKNOWN" (token_symbol_map st !! tok)).
  set (st_p := send (MPrice sym (Some tok) (py_round ltp 2)) st).
  pose proof (filter_open_first_Some _ _ _ _ Hf) as [Hi Ho].
  pose proof (on_data_mtm_row st_p tok sym ltp i pos entry Hi Ho) as Hm.
  cbn zeta in Hm. destruct Hm as (Hrow & Hopen & Hcount & Hnow & Hchk).
  split.
  - rewrite on_data_exit_close_calls, on_data_mtm_close_calls, Hchk, Hx.
    reflexivity.
  - intros Hone.
    destruct (on_data_mtm st_p tok sym ltp i pos entry) as [s1 o1] eqn:Em.
    cbn [fst snd] in *.
    change (table st_p) with (table st) in Hcount.
    change (now st_p) with (now st) in Hnow.
    assert (Hget : get_open_position_for_token tok (table s1) = Some (i, o1))
      by (apply get_open_the_one; [lia | assumption | assumption]).
    unfold on_data_exit. rewrite Hchk.
    destruct (exit_check ltp entry pos) as [r b]. cbn [snd] in Hx. subst b.
    pose proof (close_position_db_table s1 tok ltp r) as Ht.
    rewrite Hget in Ht.
    destruct (close_position_db s1 tok ltp r) as [s2 c]. cbn [fst] in Ht.
    change (table (send _ s2)) with (table s2). rewrite Ht.
    eexists. split.
    + apply list_lookup_insert_eq. apply lookup_lt_Some in Hrow. exact Hrow.
    + cbn [status exit_price exit_datetime set_closed].
      rewrite Hnow.
      split; [reflexivity | split; [reflexivity | split; [reflexivity |]]].
      rewrite (open_count_close tok (table s1) i o1) by assumption. lia.
Qed.

End ExitFacts.

Module ExitTheorems.
Import StoreFacts CloseFacts TickFacts ExitFacts.

(** C4.  In the scenario of the specification (LONG at 100, stoploss 99,
    then a tick at 99.00) the tick makes one call of [close_position_db],
    with exit price 99; the row goes from OPEN to CLOSED with that exit
    price, and no later tick changes a row or closes again.  In general a
    tick makes at most one call of [close_position_db].  A tick on which
    the checks decide to exit makes exactly one call, with the price of the
    tick, and when the token has one open row that row ends CLOSED with
    that exit price and the token has no open row left.  The checks decide
    to exit, with the stoploss reason, when both conditions hold, and also
    for any position entered at 100 with stoploss 99 on a tick at 99.00. *)
Theorem on_data_closes_once :
  (close_calls long_opened = []
   /\ status <$> table long_opened = [OPEN]
   /\ (exists sl, stoploss <$> table long_opened = [Some sl] /\ (sl == 99)%Q)
   /\ (exists x r, close_calls long_after_tick = [("3045", x, r)]
                   /\ (x == 99)%Q)
   /\ status <$> table long_after_tick = [CLOSED]
   /\ (exists x, exit_price <$> table long_after_tick = [Some x]
                 /\ (x == 99)%Q)
   /\ (forall tick,
         table (on_data long_after_tick tick) = table long_after_tick
         /\ close_calls (on_data long_after_tick tick)
            = close_calls long_after_tick))
  /\ (forall st tick,
        exists l, close_calls (on_data st tick) = close_calls st ++ l
                  /\ (length l <= 1)%nat)
  /\ (forall st tok raw i pos entry,
        raw <> 0%Z ->
        filter_open_first tok (table st) = Some (i, pos) ->
        entry_price pos = Some entry ->
        (exit_check (inject_Z raw / 100) entry pos).2 = true ->
        close_calls (on_data st (mkTick (Some tok) (Some raw)))
        = close_calls st
          ++ [(tok, (inject_Z raw / 100)%Q,
               (exit_check (inject_Z raw / 100) entry pos).1)]
        /\ ((open_count tok (table st) <= 1)%nat ->
            exists closed,
              table (on_data st (mkTick (Some tok) (Some raw))) !! i
              = Some closed
              /\ status closed = CLOSED
              /\ exit_price closed = Some (inject_Z raw / 100)%Q
              /\ exit_datetime closed = Some (now st)
              /\ open_count tok
                   (table (on_data st (mkTick (Some tok) (Some raw))))
                 = 0%nat))
  /\ (forall ltp entry pos tg sl,
        target pos = Some tg ->
        stoploss pos = Some sl ->
        target_hit ltp entry tg = true ->
        stoploss_hit ltp entry sl = true ->
        exit_check ltp entry pos = (Some (R_text "Stoploss hit"), true))
  /\ (forall pos entry sl,
        stoploss pos = Some sl ->
        (entry == 100)%Q -> (sl == 99)%Q ->
        exit_check (inject_Z 9900 / 100) entry pos
        = (Some (R_text "Stoploss hit"), true)).
Proof.
  split; [| split; [| split; [| split]]].
  - split; [reflexivity |].
    split; [vm_compute; reflexivity |].
    split; [eexists; split; [vm_compute; reflexivity | reflexivity] |].
    split; [eexists _, _; split; [vm_compute; reflexivity | reflexivity] |].
    split; [vm_compute; reflexivity |].
    split; [eexists; split; [vm_compute; reflexivity | reflexivity] |].
    intros tick. apply on_data_no_open. intros tok _.
    apply filter_open_first_None. unfold open_count.
    let t := eval vm_compute in (table long_after_tick) in
    change (table long_after_tick) with t.
    rewrite filter_cons_False; [reflexivity |].
    intros [_ H]. discriminate.
  - apply on_data_close_calls.
  - intros st tok raw i pos entry Hraw Hf He Hx.
    exact (on_data_exit_closes st tok raw i pos entry Hraw Hf He Hx).
  - intros ltp entry pos tg sl. apply exit_check_both.
  - intros pos entry sl Hs He Hsl.
    apply (exit_check_stoploss _ _ _ sl Hs).
    apply stoploss_hit_at_stop.
    + rewrite Hsl. reflexivity.
    + rewrite Hsl, He. discriminate.
Qed.

Lemma on_data_closes_once_witness :
  filter_open_first "3045" (table long_opened) = Some (0%nat, long_row)
  /\ (exit_check (inject_Z 9900 / 100) 100 long_row).2 = true
  /\ (open_count "3045" (table long_opened) <= 1)%nat
  /\ close_calls (on_data long_opened (mkTick (Some "3045") (Some 9900%Z)))
     = close_calls long_opened
       ++ [("3045", (inject_Z 9900 / 100)%Q,
            (exit_check (inject_Z 9900 / 100) 100 long_row).1)]
  /\ open_count "3045"
       (table (on_data long_opened (mkTick (Some "3045") (Some 9900%Z))))
     = 0%nat.
Proof.
  assert (Hf : filter_open_first "3045" (table long_opened)
               = Some (0%nat, long_row)) by (vm_compute; reflexivity).
  assert (Hx : (exit_check (inject_Z 9900 / 100) 100 long_row).2 = true)
    by (vm_compute; reflexivity).
  assert (Hone : (open_count "3045" (table long_opened) <= 1)%nat)
    by (vm_compute; lia).
  split; [exact Hf |]. split; [exact Hx |]. split; [exact Hone |].
  destruct (proj1 (proj2 (proj2 on_data_closes_once)) long_opened "3045"
              9900%Z 0%nat long_row 100%Q ltac:(discriminate) Hf eq_refl Hx)
    as [Hcalls Hrow].
  split; [exact Hcalls |].
  destruct (Hrow Hone) as (closed & _ & _ & _ & _ & Hzero).
  exact Hzero.
Defined.

End ExitTheorems.

(** ** Ticks without a price *)

Module DropFacts.
Import StoreFacts CloseFacts TickFacts.

Lemma close_position_db_sent st tok x r :
  exists l, sent (close_position_db st tok x r).1 = sent st ++ l.
Proof.
  unfold close_position_db.
  change (table (note_close_call (tok, x, r) st)) with (table st).
  destruct (get_open_position_for_token tok (table st)) as [[i p] |].
  - eexists. reflexivity.
  - exists []. cbn. rewrite app_nil_r. reflexivity.
Qed.

Lemma on_data_mtm_sent st tok sym ltp i pos entry :
  exists l, sent (on_data_mtm st tok sym ltp i pos entry).1 = sent st ++ l.
Proof.
  unfold on_data_mtm. destruct (mtm_moved _ _ _ _).
  - eexists. reflexivity.
  - exists []. cbn. rewrite app_nil_r. reflexivity.
Qed.

Lemma on_data_exit_sent st tok sym ltp pos entry :
  exists l, sent (on_data_exit st tok sym ltp pos entry) = sent st ++ l.
Proof.
  unfold on_data_exit.
  destruct (exit_check ltp entry pos) as [r b]. destruct b.
  - destruct (close_position_db_sent st tok ltp r) as [l Hl].
    destruct (close_position_db st tok ltp r) as [s c]. cbn [fst] in Hl.
    cbn [sent send]. rewrite Hl, <- app_assoc. eexists. reflexivity.
  - exists []. rewrite app_nil_r. reflexivity.
Qed.

(** A tick with a price always sends the price first. *)
Lemma on_data_priced_sent st tok raw :
  raw <> 0%Z ->
  exists sym rest,
    sent (on_data st (mkTick tok (Some raw)))
    = sent st ++ MPrice sym tok (py_round (inject_Z raw / 100) 2) :: rest.
Proof.
  intros Hraw.
  exists (default "UNKNOWN" (t ← tok; token_symbol_map st !! t)).
  destruct tok as [t |].
  - destruct (filter_open_first t (table st)) as [[i pos] |] eqn:Hf.
    + destruct (entry_price pos) as [entry |] eqn:He.
      * rewrite (on_data_open st t raw i pos entry Hraw Hf He).
        cbn [mbind option_bind].
        match goal with
        | |- context [on_data_exit (on_data_mtm ?s ?a ?b ?c ?d ?e ?f).1
                        ?a ?b ?c _ ?f] =>
            destruct (on_data_mtm_sent s a b c d e f) as [l1 H1];
            destruct (on_data_exit_sent (on_data_mtm s a b c d e f).1 a b c
                        (on_data_mtm s a b c d e f).2 f) as [l2 H2]
        end.
        rewrite H2, H1. cbn [sent send]. rewrite <- !app_assoc.
        eexists. reflexivity.
      * exists []. unfold on_data. cbn [tick_token last_traded_price].
        destruct raw; [contradiction | |];
          change (table (send _ st)) with (table st); rewrite Hf, He;
          reflexivity.
    + exists []. unfold on_data. cbn [tick_token last_traded_price].
      destruct raw; [contradiction | |];
        change (table (send _ st)) with (table st); rewrite Hf;
        reflexivity.
  - exists []. unfold on_data. cbn [tick_token last_traded_price].
    destruct raw; [contradiction | |]; reflexivity.
Qed.

(** C9.  A tick whose last traded price is absent or zero is dropped:
    [on_data] returns at once, so the state after it is the state before it
    (no price message, no MTM write, no row changed, nothing closed).  Only
    such ticks are dropped: with any other price the price message is the
    first thing sent. *)
Theorem on_data_drops_priceless_tick :
  (forall st tok,
      on_data st (mkTick tok None) = st
      /\ on_data st (mkTick tok (Some 0%Z)) = st)
  /\ (forall st tok raw,
        raw <> 0%Z ->
        exists sym rest,
          sent (on_data st (mkTick tok (Some raw)))
          = sent st
            ++ MPrice sym tok (py_round (inject_Z raw / 100) 2) :: rest).
Proof.
  split.
  - intros st tok. split; reflexivity.
  - apply on_data_priced_sent.
Qed.

Lemma on_data_drops_priceless_tick_witness :
  on_data long_opened (mkTick (Some "3045") (Some 0%Z)) = long_opened
  /\ exists sym rest,
      sent (on_data long_opened tick_99)
      = sent long_opened
        ++ MPrice sym (Some "3045") (py_round (inject_Z 9900 / 100) 2) :: rest.
Proof.
  split.
  - exact (proj2 (proj1 on_data_drops_priceless_tick long_opened
                    (Some "3045"))).
  - exact (proj2 on_data_drops_priceless_tick long_opened (Some "3045")
             9900%Z ltac:(discriminate)).
Defined.

End DropFacts.

(** ** Opening a position *)

Module OpenFacts.
Import StoreFacts CloseFacts TickFacts.

Lemma open_position_db_row st tok side e qty lots st' p :
  open_position_db st tok side e qty lots = (st', Some p) ->
  table st' = table st ++ [p]
  /\ p = mkPosition (symbol p) "NSE" tok (Some e) (now st) None None
           (Some (rounded_levels side e).1) (Some (rounded_levels side e).2)
           0%Q OPEN lots qty.
Proof.
  unfold open_position_db. intros H.
  destruct (symbol_name_for st tok) as [name |]; [| discriminate].
  destruct (rounded_levels side e) as [tg sl]. cbn [fst snd].
  injection H as <- <-. split; reflexivity.
Qed.

Lemma half_way_proper x y nd : (x == y)%Q -> half_way x nd = half_way y nd.
Proof.
  intros H. unfold half_way.
  assert (Hf : Qfloor (x * inject_Z (10 ^ Z.of_nat nd))
               = Qfloor (y * inject_Z (10 ^ Z.of_nat nd)))
    by (rewrite H; reflexivity).
  rewrite Hf.
  destruct (Qeq_bool (x * _ - _) (1 # 2)) eqn:E1,
           (Qeq_bool (y * _ - _) (1 # 2)) eqn:E2; try reflexivity.
  - apply Qeq_bool_iff in E1. rewrite H in E1.
    apply Qeq_bool_iff in E1. congruence.
  - apply Qeq_bool_iff in E2.
    assert (E3 : (x * inject_Z (10 ^ Z.of_nat nd)
                  - inject_Z (Qfloor (y * inject_Z (10 ^ Z.of_nat nd)))
                  == 1 # 2)%Q) by (rewrite H; exact E2).
    apply Qeq_bool_iff in E3. congruence.
Qed.

Lemma rounded_to_cents_proper x y c :
  (x == y)%Q -> rounded_to_cents x c -> rounded_to_cents y c.
Proof.
  intros H (Hc & Hn & Ht). split; [exact Hc |]. split.
  - rewrite <- H. exact Hn.
  - intros Hy. rewrite <- (half_way_proper x y 2 H) in Hy.
    rewrite (Ht Hy). apply py_round_proper, H.
Qed.

Lemma rounded_levels_cents side e :
  rounded_to_cents (levels side e).1 (rounded_levels side e).1
  /\ rounded_to_cents (levels side e).2 (rounded_levels side e).2.
Proof. unfold rounded_levels. split; apply round_computed_cents. Qed.

(** C3, as the code has it.  When [open_position_db] creates a row for an
    entry price [e], the row is appended to the table as OPEN with
    [mtm = 0].  For an entry price in cents of ordinary size and side LONG
    its target is [e * (1 + 0.015)] and its stoploss [e * (1 - 0.01)],
    each rounded to cents: a value in cents within half a cent of the
    product, the nearest cent unless the product is half-way between two
    cents (where the binary64 product decides between them); for side
    SHORT the target is [e * (1 - 0.015)] and the stoploss
    [e * (1 + 0.01)], rounded likewise.  For LONG at 100 the stored target
    is 101.5 and the stoploss 99; for SHORT at 100 they are 98.5 and
    101. *)
Theorem open_position_db_target_stoploss :
  (forall st tok side e qty lots st' p,
      ordinary_price e ->
      open_position_db st tok side e qty lots = (st', Some p) ->
      table st' = table st ++ [p]
      /\ status p = OPEN
      /\ entry_price p = Some e
      /\ mtm p = 0%Q
      /\ (side = "LONG" ->
          exists tg sl,
            target p = Some tg /\ stoploss p = Some sl
            /\ rounded_to_cents (e * (1 + (15 # 1000))) tg
            /\ rounded_to_cents (e * (1 - (1 # 100))) sl)
      /\ (side = "SHORT" ->
          exists tg sl,
            target p = Some tg /\ stoploss p = Some sl
            /\ rounded_to_cents (e * (1 - (15 # 1000))) tg
            /\ rounded_to_cents (e * (1 + (1 # 100))) sl))
  /\ (exists tg sl,
        table long_opened = [long_row]
        /\ entry_price long_row = Some 100%Q
        /\ target long_row = Some tg /\ (tg == 1015 # 10)%Q
        /\ stoploss long_row = Some sl /\ (sl == 99)%Q)
  /\ (exists tg sl,
        target <$> table short_opened = [Some tg] /\ (tg == 985 # 10)%Q
        /\ stoploss <$> table short_opened = [Some sl] /\ (sl == 101)%Q).
Proof.
  split.
  - intros st tok side e qty lots st' p _ H.
    apply open_position_db_row in H. destruct H as [Ht Hp].
    split; [exact Ht |].
    rewrite Hp. cbn [status entry_price mtm target stoploss].
    split; [reflexivity |]. split; [reflexivity |]. split; [reflexivity |].
    destruct (rounded_levels_cents side e) as [Htg Hsl].
    split; intros ->; eexists _, _;
      (split; [reflexivity |]); (split; [reflexivity |]); split.
    + eapply rounded_to_cents_proper; [| exact Htg].
      cbn [levels String.eqb Ascii.eqb Bool.eqb fst].
      unfold reward_percent, risk_percent, risk_reward. ring.
    + eapply rounded_to_cents_proper; [| exact Hsl].
      cbn [levels String.eqb Ascii.eqb Bool.eqb snd].
      unfold reward_percent, risk_percent, risk_reward. ring.
    + eapply rounded_to_cents_proper; [| exact Htg].
      cbn [levels String.eqb Ascii.eqb Bool.eqb fst].
      unfold reward_percent, risk_percent, risk_reward. ring.
    + eapply rounded_to_cents_proper; [| exact Hsl].
      cbn [levels String.eqb Ascii.eqb Bool.eqb snd].
      unfold reward_percent, risk_percent, risk_reward. ring.
  - split.
    + eexists _, _.
      split; [vm_compute; reflexivity |].
      split; [reflexivity |].
      split; [reflexivity |].
      split; [vm_compute; reflexivity |].
      split; [reflexivity |].
      vm_compute; reflexivity.
    + eexists _, _.
      split; [vm_compute; reflexivity |].
      split; [reflexivity |].
      split; [vm_compute; reflexivity |].
      reflexivity.
Qed.

(** C3 as stated fails where the product is half-way between two cents.
    Entered LONG at 149, the target [149 * 1.015] is 151.235; the double
    the source holds is 151.23499999999999 and the stored target is
    151.23, where rounding 151.235 gives 151.24.  Entered LONG at 5.5, the
    stoploss [5.5 * 0.99] is 5.445; the double is above it and the stored
    stoploss is 5.45, where rounding 5.445 to the even cent gives 5.44.  No
    rule for ties on the exact product gives both. *)
Lemma open_position_db_tie_counterexample :
  (exists p tg,
      (open_position_db session "3045" "LONG" 149 50 1).2 = Some p
      /\ target p = Some tg
      /\ (tg == 15123 # 100)%Q
      /\ (149 * (1 + (15 # 1000)) == 151235 # 1000)%Q
      /\ (py_round (149 * (1 + (15 # 1000))) 2 == 15124 # 100)%Q)
  /\ (exists p sl,
        (open_position_db session "3045" "LONG" (55 # 10) 50 1).2 = Some p
        /\ stoploss p = Some sl
        /\ (sl == 545 # 100)%Q
        /\ ((55 # 10) * (1 - (1 # 100)) == 5445 # 1000)%Q
        /\ (py_round ((55 # 10) * (1 - (1 # 100))) 2 == 544 # 100)%Q).
Proof.
  split; eexists _, _; (split; [vm_compute; reflexivity |]);
    (split; [vm_compute; reflexivity |]);
    (split; [vm_compute; reflexivity |]);
    (split; vm_compute; reflexivity).
Qed.

Lemma open_position_db_target_stoploss_witness :
  open_position_db session "3045" "LONG" 100%Q 50 1
  = (long_opened, Some long_row)
  /\ exists tg sl,
       target long_row = Some tg /\ stoploss long_row = Some sl
       /\ rounded_to_cents (100 * (1 + (15 # 1000))) tg
       /\ rounded_to_cents (100 * (1 - (1 # 100))) sl.
Proof.
  assert (H : open_position_db session "3045" "LONG" 100%Q 50 1
              = (long_opened, Some long_row)) by (vm_compute; reflexivity).
  assert (Hp : ordinary_price 100).
  { split; [exists 10000%Z; reflexivity | split; lra]. }
  split; [exact H |].
  destruct (proj1 open_position_db_target_stoploss _ _ _ _ _ _ _ _ Hp H)
    as (_ & _ & _ & _ & HL & _).
  exact (HL eq_refl).
Defined.

End OpenFacts.

(** ** The sign of [mtm] *)

Module MtmFacts.
Import StoreFacts CloseFacts TickFacts OpenFacts.

Lemma tick_mtm_max ltp entry qty :
  (tick_mtm ltp entry qty == Qmax (ltp - entry) (entry - ltp) * Qnat qty)%Q.
Proof.
  unfold tick_mtm. destruct (Qgeb ltp entry) eqn:E.
  - apply Qgeb_ge in E. rewrite Q.max_l by lra. reflexivity.
  - apply Qgeb_lt in E. rewrite Q.max_r by lra. reflexivity.
Qed.

Lemma realized_pnl_max p x e :
  entry_price p = Some e ->
  (realized_pnl p x == (Qmax e x - Qmin e x) * Qnat (quantity p))%Q.
Proof.
  intros He. unfold realized_pnl. rewrite He.
  destruct (Qltb e x) eqn:E.
  - apply Qltb_lt in E. rewrite Q.max_r, Q.min_l by lra. reflexivity.
  - apply Qltb_ge in E. rewrite Q.max_l, Q.min_r by lra. reflexivity.
Qed.

Lemma open_preserves st tok side e qty lots :
  mtm_nonneg (table st) ->
  mtm_nonneg (table (open_position_db st tok side e qty lots).1).
Proof.
  intros H.
  destruct (open_position_db st tok side e qty lots) as [st' [p |]] eqn:E.
  - apply open_position_db_row in E. destruct E as [Ht Hp].
    cbn [fst]. rewrite Ht. apply Forall_app. split; [exact H |].
    constructor; [| constructor]. rewrite Hp. cbn [mtm]. lra.
  - unfold open_position_db in E.
    destruct (symbol_name_for st tok); [| injection E as <-; exact H].
    destruct (String.eqb side "LONG"); discriminate.
Qed.

Lemma close_preserves st tok x r :
  mtm_nonneg (table st) ->
  mtm_nonneg (table (close_position_db st tok x r).1).
Proof.
  intros H. rewrite close_position_db_table.
  destruct (get_open_position_for_token tok (table st)) as [[i p] |];
    [| exact H].
  apply Forall_insert; [exact H |]. cbn [mtm set_closed].
  apply py_round_nonneg, realized_pnl_nonneg.
Qed.

Lemma on_data_mtm_preserves st tok sym ltp i pos entry :
  mtm_nonneg (table st) ->
  mtm_nonneg (table (on_data_mtm st tok sym ltp i pos entry).1).
Proof.
  intros H. unfold on_data_mtm. destruct (mtm_moved _ _ _ _); [| exact H].
  cbn [fst]. change (table (send _ (set_table ?t _))) with t.
  apply Forall_alter; [exact H |].
  intros q _ _. cbn [mtm set_mtm].
  apply py_round_nonneg, tick_mtm_nonneg.
Qed.

Lemma on_data_exit_preserves st tok sym ltp pos entry :
  mtm_nonneg (table st) ->
  mtm_nonneg (table (on_data_exit st tok sym ltp pos entry)).
Proof.
  intros H. unfold on_data_exit.
  destruct (exit_check ltp entry pos) as [r b]. destruct b; [| exact H].
  pose proof (close_preserves st tok ltp r H) as Hc.
  destruct (close_position_db st tok ltp r) as [st' o]. exact Hc.
Qed.

Lemma on_data_preserves st tick :
  mtm_nonneg (table st) -> mtm_nonneg (table (on_data st tick)).
Proof.
  intros H. unfold on_data.
  destruct (last_traded_price tick) as [[| r | r] |]; try exact H;
    (destruct (tick_token tick) as [tok |]; [| exact H];
     change (table (send _ st)) with (table st);
     destruct (filter_open_first tok (table st)) as [[i pos] |]; [| exact H];
     destruct (entry_price pos) as [entry |]; [| exact H];
     match goal with
     | |- context [on_data_mtm ?s ?a ?b ?c ?d ?e ?f] =>
         pose proof (on_data_mtm_preserves s a b c d e f H) as Hm;
         destruct (on_data_mtm s a b c d e f) as [s' o']
     end;
     apply on_data_exit_preserves; exact Hm).
Qed.

Lemma handle_strategy_signal_preserves st tok sig lc :
  mtm_nonneg (table st) ->
  mtm_nonneg (table (handle_strategy_signal st tok sig lc)).
Proof.
  intros H. unfold handle_strategy_signal.
  destruct sig as [sig |]; [| exact H].
  destruct (action sig), (get_open_position_for_token tok (table st));
    try exact H;
    match goal with
    | |- context [open_position_db ?s ?a ?b ?c ?d ?e] =>
        pose proof (open_preserves s a b c d e H) as Ho;
        destruct (open_position_db s a b c d e) as [s' [o' |]]; exact Ho
    | |- context [close_position_db ?s ?a ?b ?c] =>
        pose proof (close_preserves s a b c H) as Ho;
        destruct (close_position_db s a b c) as [s' [o' |]]; exact Ho
    end.
Qed.

End MtmFacts.

(** ** Periodic refresh *)

Module RefreshFacts.
Import StoreFacts.

Lemma sends_state msgs :
  forall st,
    sends msgs st
    = mkState (subscribed_tokens st) (token_symbol_map st)
        (token_to_symbol st) (instrument_list st) (monitor_symbols st)
        (indicator_refresh_task st) (smart_api st) (sws_accepts st)
        (table st) (now st) (sent st ++ msgs) (feed_requests st)
        (close_calls st).
Proof.
  induction msgs as [| m msgs IH]; intros st.
  - destruct st. cbn. rewrite app_nil_r. reflexivity.
  - change (sends (m :: msgs) st) with (sends msgs (send m st)).
    rewrite IH. cbn [send subscribed_tokens token_symbol_map token_to_symbol
                       instrument_list monitor_symbols indicator_refresh_task
                       smart_api sws_accepts table now sent feed_requests
                       close_calls].
    rewrite <- app_assoc. reflexivity.
Qed.

Lemma sends_app l1 l2 st : sends (l1 ++ l2) st = sends l2 (sends l1 st).
Proof. unfold sends. apply fold_left_app. Qed.

Lemma send_current_indicators_eq st tok :
  send_current_indicators st tok
  = match candles_for st tok with
    | Some candles => send (live_indicators st tok candles) st
    | None => st
    end.
Proof.
  unfold send_current_indicators, candles_for, live_indicators.
  destruct (smart_api st) as [g |]; [| reflexivity].
  destruct (g tok (now st)) as [| | ok data]; try reflexivity.
  destruct ok; cbn [negb orb]; [| reflexivity].
  destruct (bool_decide (length data = 0%nat)); cbn [orb]; [reflexivity |].
  destruct (length (drop (length data - 100) data) <? 50)%nat; [reflexivity |].
  destruct (calculate_macd (c_close <$> drop (length data - 100) data) 12 26 9)
    as [[a b] c].
  reflexivity.
Qed.

Lemma refresh_fold st toks :
  forall msgs,
    fold_left send_current_indicators toks (sends msgs st)
    = sends (msgs ++ omap (fun tok => live_indicators st tok
                                        <$> candles_for st tok) toks) st.
Proof.
  induction toks as [| tok toks IH]; intros msgs.
  - cbn. rewrite app_nil_r. reflexivity.
  - cbn [fold_left]. rewrite send_current_indicators_eq.
    assert (Hc : candles_for (sends msgs st) tok = candles_for st tok)
      by (rewrite sends_state; reflexivity).
    rewrite Hc. cbn [omap list_omap].
    destruct (candles_for st tok) as [cs |] eqn:E; cbn [fmap option_fmap option_map].
    + assert (Hl : live_indicators (sends msgs st) tok cs
                   = live_indicators st tok cs)
        by (rewrite sends_state; reflexivity).
      rewrite Hl.
      change (send (live_indicators st tok cs) (sends msgs st))
        with (sends [live_indicators st tok cs] (sends msgs st)).
      rewrite <- sends_app, IH, <- app_assoc. reflexivity.
    + apply IH.
Qed.

Lemma refresh_cycle_sends st :
  refresh_cycle st
  = sends (omap (fun tok => live_indicators st tok <$> candles_for st tok)
             (take 5 (monitor_symbols st))) st.
Proof.
  unfold refresh_cycle.
  apply (refresh_fold st (take 5 (monitor_symbols st)) []).
Qed.

(** C2, as the code has it.  One pass of the refresh loop visits the first
    five monitored tokens and, for each one whose candle fetch yields a
    window, sends one [live_indicators_update]; it does nothing else: it
    runs no strategy, and no row, no call of [close_position_db] and no
    feed request comes from it. *)
Theorem refresh_cycle_only_reports :
  forall st,
    refresh_cycle st
    = sends (omap (fun tok => live_indicators st tok <$> candles_for st tok)
               (take 5 (monitor_symbols st))) st
    /\ sent (refresh_cycle st)
       = sent st
         ++ omap (fun tok => live_indicators st tok <$> candles_for st tok)
              (take 5 (monitor_symbols st))
    /\ table (refresh_cycle st) = table st
    /\ close_calls (refresh_cycle st) = close_calls st
    /\ feed_requests (refresh_cycle st) = feed_requests st.
Proof.
  intros st. split; [apply refresh_cycle_sends |].
  rewrite refresh_cycle_sends, sends_state. repeat split; reflexivity.
Qed.

(** C2 as stated fails.  One token is monitored, it has no position, its
    fetch yields fifty rising candles, and the MACD rule on those candles
    gives BUY for side NONE; forwarding that signal to the position store
    opens a row.  The refresh pass sends its one message and leaves the
    table empty. *)
Lemma refresh_cycle_forwards_nothing :
  take 5 (monitor_symbols monitoring) = ["3045"]
  /\ candles_for monitoring "3045" = Some rising_candles
  /\ get_open_position_for_token "3045" (table monitoring) = None
  /\ (exists sig,
        check_macd_strategy rising_macd "NONE" = inl (Some sig)
        /\ action sig = BUY
        /\ length (table (handle_strategy_signal monitoring "3045"
                            (Some sig) (Some 149%Q))) = 1%nat)
  /\ length (sent (refresh_cycle monitoring))
     = S (length (sent monitoring))
  /\ table (refresh_cycle monitoring) = [].
Proof.
  assert (Hvisited : take 5 (monitor_symbols monitoring) = ["3045"])
    by (vm_compute; reflexivity).
  assert (Hfetch : candles_for monitoring "3045" = Some rising_candles)
    by (vm_compute; reflexivity).
  split; [exact Hvisited |].
  split; [exact Hfetch |].
  split; [vm_compute; reflexivity |].
  split.
  - eexists. split; [lazy; reflexivity |].
    split; [reflexivity |]. vm_compute. reflexivity.
  - rewrite refresh_cycle_sends, sends_state.
    cbn [sent table]. split; [| vm_compute; reflexivity].
    rewrite Hvisited. cbn [omap list_omap]. rewrite Hfetch.
    rewrite length_app. cbn [fmap option_fmap option_map length]. lia.
Qed.

End RefreshFacts.

(** ** Subscription registry *)

Module SubscribeFacts.
Import RefreshFacts.

Lemma subscribed_under_sends ws st et t :
  subscribed_under (sends ws st) et t = subscribed_under st et t.
Proof. rewrite sends_state. reflexivity. Qed.

Lemma subscribe_scan_step instruments exchange et toks m st ts :
  exists m' ws,
    subscribe_scan instruments exchange et (toks, m, st) ts
    = (toks ++ net_new st instruments exchange et [ts], m', sends ws st).
Proof.
  unfold subscribe_scan, net_new, resolve. cbn [omap list_omap].
  destruct (List.find (instr_matches ts exchange) instruments) as [instr |];
    cbn [mbind option_bind].
  - destruct (i_token instr) as [token |]; cbn [mbind option_bind].
    + destruct (truthy token).
      * rewrite filter_cons, filter_nil.
        destruct (subscribed_under st et token) eqn:E.
        -- rewrite decide_False by congruence.
           rewrite app_nil_r. exists (<[token := ts]> m), []. reflexivity.
        -- rewrite decide_True by reflexivity.
           exists (<[token := ts]> m), []. reflexivity.
      * rewrite filter_nil, app_nil_r. exists m, [MWarning ts]. reflexivity.
    + rewrite filter_nil, app_nil_r. exists m, [MWarning ts]. reflexivity.
  - rewrite filter_nil, app_nil_r. exists m, [MWarning ts]. reflexivity.
Qed.

Lemma net_new_sends ws st instruments exchange et syms :
  net_new (sends ws st) instruments exchange et syms
  = net_new st instruments exchange et syms.
Proof.
  unfold net_new. apply list_filter_iff. intros t.
  rewrite subscribed_under_sends. reflexivity.
Qed.

Lemma net_new_cons st instruments exchange et ts syms :
  net_new st instruments exchange et (ts :: syms)
  = net_new st instruments exchange et [ts]
    ++ net_new st instruments exchange et syms.
Proof.
  unfold net_new. rewrite <- filter_app. f_equal.
  cbn [omap list_omap]. destruct (resolve instruments exchange ts); reflexivity.
Qed.

Lemma subscribe_scan_fold instruments exchange et syms :
  forall toks m st,
  exists m' ws,
    fold_left (subscribe_scan instruments exchange et) syms (toks, m, st)
    = (toks ++ net_new st instruments exchange et syms, m', sends ws st).
Proof.
  induction syms as [| ts syms IH]; intros toks m st.
  - exists m, []. cbn. unfold net_new. cbn. rewrite app_nil_r. reflexivity.
  - cbn [fold_left].
    destruct (subscribe_scan_step instruments exchange et toks m st ts)
      as (m1 & ws1 & ->).
    destruct (IH (toks ++ net_new st instruments exchange et [ts]) m1
                 (sends ws1 st)) as (m2 & ws2 & ->).
    exists m2, (ws1 ++ ws2).
    rewrite net_new_sends, <- app_assoc, <- net_new_cons, sends_app.
    reflexivity.
Qed.

Lemma monitor_add_fold tokens :
  forall monitor,
    let monitor' := fold_left monitor_add tokens monitor in
    (forall t, t ∈ monitor' <-> t ∈ monitor \/ t ∈ tokens)
    /\ (NoDup monitor -> NoDup monitor')
    /\ monitor `prefix_of` monitor'.
Proof.
  induction tokens as [| tok tokens IH]; intros monitor; cbn.
  - split; [| split].
    + intros t. rewrite elem_of_nil. tauto.
    + auto.
    + reflexivity.
  - destruct (IH (monitor_add monitor tok)) as (Hm & Hn & Hp).
    unfold monitor_add in *.
    destruct (bool_decide (tok ∈ monitor)) eqn:E.
    + apply bool_decide_eq_true in E.
      split; [| split; [exact Hn | exact Hp]].
      intros t. rewrite Hm, elem_of_cons.
      split; [tauto |]. intros [H | [-> | H]]; tauto.
    + apply bool_decide_eq_false in E.
      split; [| split].
      * intros t. rewrite Hm, elem_of_app, !elem_of_cons, elem_of_nil.
        tauto.
      * intros Hnd. apply Hn. apply NoDup_app. split; [exact Hnd |].
        split; [| apply NoDup_singleton].
        intros x Hx Hx'. apply list_elem_of_singleton in Hx'. subst. tauto.
      * etransitivity; [| exact Hp]. apply prefix_app_r. reflexivity.
Qed.

Lemma elem_of_net_new st instruments exchange et syms t :
  t ∈ net_new st instruments exchange et syms
  <-> (exists ts, ts ∈ syms /\ resolve instruments exchange ts = Some t)
      /\ subscribed_under st et t = false.
Proof.
  unfold net_new. rewrite list_elem_of_filter, list_elem_of_omap. tauto.
Qed.

Lemma net_new_nil st instruments exchange et syms :
  (forall ts t, ts ∈ syms -> resolve instruments exchange ts = Some t ->
                subscribed_under st et t = true) ->
  net_new st instruments exchange et syms = [].
Proof.
  intros H.
  destruct (net_new st instruments exchange et syms) as [| t l] eqn:E;
    [reflexivity |].
  assert (Ht : t ∈ net_new st instruments exchange et syms)
    by (rewrite E; left).
  apply elem_of_net_new in Ht. destruct Ht as [(ts & Hts & Hr) Hf].
  rewrite (H ts t Hts Hr) in Hf. discriminate.
Qed.

(** What [handle_subscribe] does once the instrument list is loaded. *)
Lemma handle_subscribe_eq st instr0 instrs syms exchange :
  instrument_list st = Some (instr0 :: instrs) ->
  let et := default 1%Z (EXCHANGE_MAP !! exchange) in
  let tokens := net_new st (instr0 :: instrs) exchange et syms in
  newly_subscribed st syms exchange = tokens
  /\ exists m ws,
      handle_subscribe st syms exchange
      = match tokens with
        | [] => send MNoNewSubscriptions (sends ws st)
        | _ :: _ =>
            if sws_accepts st et tokens then
              send (MSubscribed syms tokens exchange
                      (length (fold_left monitor_add tokens (monitor_symbols st))))
                (mkState
                   (<[et := default ∅ (subscribed_tokens st !! et)
                            ∪ list_to_set tokens]> (subscribed_tokens st))
                   (m ∪ token_symbol_map st)
                   (token_to_symbol st) (instrument_list st)
                   (fold_left monitor_add tokens (monitor_symbols st))
                   (if (0 <? length (fold_left monitor_add tokens
                                       (monitor_symbols st))
                             - length (monitor_symbols st))%nat
                    then true else indicator_refresh_task st)
                   (smart_api st) (sws_accepts st) (table st) (now st)
                   (sent st ++ ws) (feed_requests st ++ [(et, tokens)])
                   (close_calls st))
            else
              send (MError "Subscribe failed")
                (mkState (subscribed_tokens st) (token_symbol_map st)
                   (token_to_symbol st) (instrument_list st)
                   (monitor_symbols st) (indicator_refresh_task st)
                   (smart_api st) (sws_accepts st) (table st) (now st)
                   (sent st ++ ws) (feed_requests st ++ [(et, tokens)])
                   (close_calls st))
        end.
Proof.
  intros Hil et tokens.
  destruct (subscribe_scan_fold (instr0 :: instrs) exchange et syms [] ∅ st)
    as (m & ws & E).
  change ([] ++ net_new st (instr0 :: instrs) exchange et syms)
    with tokens in E.
  split.
  - unfold newly_subscribed. rewrite Hil. fold et. rewrite E. reflexivity.
  - exists m, ws. unfold handle_subscribe. rewrite Hil. fold et. rewrite E.
    destruct tokens as [| t l]; [reflexivity |].
    rewrite sends_state.
    cbn [subscribed_tokens token_symbol_map token_to_symbol instrument_list
           monitor_symbols indicator_refresh_task smart_api sws_accepts table
           now sent feed_requests close_calls].
    rewrite ?Hil. reflexivity.
Qed.

(** C6, as the code has it.  With the instrument list loaded, a subscribe
    request reports as newly subscribed the tokens its symbols resolve to
    that are not yet subscribed under the exchange type of the request
    (membership under another exchange type does not count); the feed is
    asked for exactly that list, and only when it is not empty.  When the
    feed accepts, the list is added to the set of that exchange type, the
    tokens not yet monitored are appended to the monitor list (which keeps
    its order and stays free of duplicates), the reply names the list, and a
    second identical request finds nothing new.  Otherwise the sets and the
    monitor list stay as they were.  Without an instrument list the request
    is answered with an error and nothing is new. *)
Theorem handle_subscribe_net_new :
  (forall st instr0 instrs syms exchange,
    instrument_list st = Some (instr0 :: instrs) ->
    let et := default 1%Z (EXCHANGE_MAP !! exchange) in
    let tokens := net_new st (instr0 :: instrs) exchange et syms in
    let st' := handle_subscribe st syms exchange in
    newly_subscribed st syms exchange = tokens
    /\ (forall t,
          t ∈ tokens <->
          (exists ts, ts ∈ syms
                      /\ resolve (instr0 :: instrs) exchange ts = Some t)
          /\ subscribed_under st et t = false)
    /\ feed_requests st'
       = feed_requests st
         ++ match tokens with [] => [] | _ :: _ => [(et, tokens)] end
    /\ (tokens <> [] -> sws_accepts st et tokens = true ->
        subscribed_tokens st'
        = <[et := default ∅ (subscribed_tokens st !! et)
                  ∪ list_to_set tokens]> (subscribed_tokens st)
        /\ (forall t, t ∈ monitor_symbols st'
                      <-> t ∈ monitor_symbols st \/ t ∈ tokens)
        /\ (NoDup (monitor_symbols st) -> NoDup (monitor_symbols st'))
        /\ monitor_symbols st `prefix_of` monitor_symbols st'
        /\ last (sent st')
           = Some (MSubscribed syms tokens exchange
                     (length (monitor_symbols st')))
        /\ newly_subscribed st' syms exchange = []
        /\ last (sent (handle_subscribe st' syms exchange))
           = Some MNoNewSubscriptions)
    /\ (tokens = [] \/ sws_accepts st et tokens = false ->
        subscribed_tokens st' = subscribed_tokens st
        /\ monitor_symbols st' = monitor_symbols st))
  /\ (forall st syms exchange,
        instrument_list st = None \/ instrument_list st = Some [] ->
        handle_subscribe st syms exchange
        = send (MError "Instrument list not loaded") st
        /\ newly_subscribed st syms exchange = []).
Proof.
  split;
    [| intros st syms exchange [H | H];
       unfold handle_subscribe, newly_subscribed; rewrite H;
       split; reflexivity].
  intros st instr0 instrs syms exchange Hil et tokens st'.
  destruct (handle_subscribe_eq st instr0 instrs syms exchange Hil)
    as (Hnew & m & ws & Heq).
  fold et in Hnew, Heq. fold tokens in Hnew, Heq. fold st' in Heq.
  split; [exact Hnew |].
  split; [intros t; apply elem_of_net_new |].
  destruct tokens as [| t0 l] eqn:Etok.
  - (* nothing new *)
    rewrite Heq, sends_state. cbn [feed_requests send]. rewrite app_nil_r.
    split; [reflexivity |].
    split; [intros Hne; contradiction |].
    intros _. split; reflexivity.
  - rewrite <- Etok in *.
    destruct (sws_accepts st et tokens) eqn:Eacc.
    + rewrite Heq.
      cbn [feed_requests subscribed_tokens monitor_symbols sent send].
      rewrite Etok at 1. split; [rewrite Etok; reflexivity |].
      split.
      * intros _ _.
        destruct (monitor_add_fold tokens (monitor_symbols st))
          as (Hm & Hn & Hp).
        split; [reflexivity |].
        split; [exact Hm |]. split; [exact Hn |]. split; [exact Hp |].
        split; [apply last_snoc |].
        assert (Hil' : instrument_list st' = Some (instr0 :: instrs))
          by (rewrite Heq; exact Hil).
        assert (Hnone : net_new st' (instr0 :: instrs) exchange et syms = []).
        { apply net_new_nil. intros ts t Hts Hr.
          unfold subscribed_under. rewrite Heq. cbn [subscribed_tokens send].
          rewrite lookup_insert_eq. apply bool_decide_eq_true.
          destruct (subscribed_under st et t) eqn:Es.
          - unfold subscribed_under in Es.
            destruct (subscribed_tokens st !! et) as [s |]; [| discriminate].
            apply bool_decide_eq_true in Es. cbn [default].
            apply elem_of_union. left. exact Es.
          - assert (Ht : t ∈ tokens)
              by (apply elem_of_net_new; split; [eauto | exact Es]).
            apply elem_of_union. right. apply elem_of_list_to_set. exact Ht. }
        destruct (handle_subscribe_eq st' instr0 instrs syms exchange Hil')
          as (Hnew2 & m2 & ws2 & Heq2).
        fold et in Hnew2, Heq2. rewrite Hnone in Hnew2, Heq2.
        split; [rewrite <- Heq; exact Hnew2 |].
        rewrite <- Heq, Heq2. cbn [sent send]. apply last_snoc.
      * intros [H | H]; [rewrite Etok in H |]; discriminate.
    + rewrite Heq.
      cbn [feed_requests subscribed_tokens monitor_symbols sent send].
      rewrite Etok at 1. split; [rewrite Etok; reflexivity |].
      split; [intros _ H; discriminate |].
      intros _. split; reflexivity.
Qed.

(** C6 as stated fails.  After subscribe(["SBIN-EQ"], "NSE") token 3045
    is subscribed under exchange type 1; a request on CDS for a symbol
    with the same token string reports 3045 as newly subscribed and sends
    it to the feed again, and the token is then held under two exchange
    types.  And when the feed refuses the first request, the second
    identical request builds the same list and asks the feed again. *)
Lemma handle_subscribe_other_segment_counterexample :
  (subscribed_under subscribed_nse 1 "3045" = true
   /\ newly_subscribed subscribed_nse ["USDINR25NOVFUT"] "CDS" = ["3045"]
   /\ feed_requests subscribed_cds = [(1%Z, ["3045"]); (13%Z, ["3045"])]
   /\ subscribed_under subscribed_cds 1 "3045" = true
   /\ subscribed_under subscribed_cds 13 "3045" = true
   /\ monitor_symbols subscribed_cds = ["3045"])
  /\ (newly_subscribed feed_down ["SBIN-EQ"] "NSE" = ["3045"]
      /\ newly_subscribed refused_once ["SBIN-EQ"] "NSE" = ["3045"]
      /\ feed_requests (handle_subscribe refused_once ["SBIN-EQ"] "NSE")
         = [(1%Z, ["3045"]); (1%Z, ["3045"])]).
Proof. repeat split; vm_compute; reflexivity. Qed.

Lemma handle_subscribe_net_new_witness :
  instrument_list session = Some instruments
  /\ newly_subscribed session ["SBIN-EQ"] "NSE" = ["3045"]
  /\ feed_requests subscribed_nse = [(1%Z, ["3045"])]
  /\ monitor_symbols subscribed_nse = ["3045"]
  /\ newly_subscribed subscribed_nse ["SBIN-EQ"] "NSE" = [].
Proof.
  assert (Hil : instrument_list session = Some instruments) by reflexivity.
  pose proof (proj1 handle_subscribe_net_new session _ _ ["SBIN-EQ"] "NSE"
                Hil)
    as (Hnew & _ & Hreq & Hacc & _).
  assert (Htok : net_new session instruments "NSE"
                   (default 1%Z (EXCHANGE_MAP !! "NSE")) ["SBIN-EQ"]
                 = ["3045"]) by (vm_compute; reflexivity).
  change (net_new session
            (mkInstrument (Some "3045") (Some "USDINR25NOVFUT") (Some "CDS")
             :: [mkInstrument (Some "3045") (Some "SBIN-EQ") (Some "NSE");
                 mkInstrument (Some "2885") (Some "RELIANCE-EQ") (Some "NSE")])
            "NSE" (default 1%Z (EXCHANGE_MAP !! "NSE")) ["SBIN-EQ"])
    with (net_new session instruments "NSE"
            (default 1%Z (EXCHANGE_MAP !! "NSE")) ["SBIN-EQ"]) in *.
  rewrite Htok in Hnew, Hreq, Hacc.
  destruct (Hacc ltac:(discriminate) ltac:(reflexivity))
    as (_ & _ & _ & _ & _ & Hsecond & _).
  split; [exact Hil |]. split; [exact Hnew |].
  split; [exact Hreq |]. split; [vm_compute; reflexivity |].
  exact Hsecond.
Defined.

End SubscribeFacts.

(** ** [mtm] is never negative *)

Module MtmTheorems.
Import StoreFacts CloseFacts TickFacts OpenFacts MtmFacts RefreshFacts
       SubscribeFacts.

Lemma handle_subscribe_table st syms exchange :
  table (handle_subscribe st syms exchange) = table st.
Proof.
  destruct (instrument_list st) as [[| i0 il] |] eqn:Hil;
    try (unfold handle_subscribe; rewrite Hil; reflexivity).
  destruct (handle_subscribe_eq st i0 il syms exchange Hil)
    as (_ & m & ws & ->).
  destruct (net_new st (i0 :: il) exchange _ syms);
    [rewrite sends_state; reflexivity |].
  destruct (sws_accepts st _ _); reflexivity.
Qed.

Lemma run_preserves st op :
  mtm_nonneg (table st) -> mtm_nonneg (table (run st op)).
Proof.
  intros H. destruct op; cbn [run].
  - exact H.
  - apply on_data_preserves, H.
  - apply handle_strategy_signal_preserves, H.
  - apply open_preserves, H.
  - apply close_preserves, H.
  - rewrite handle_subscribe_table. exact H.
  - rewrite refresh_cycle_sends, sends_state. exact H.
Qed.

(** C10.  Every amount written to [mtm] is non-negative: a new row has
    [mtm = 0]; the tick amount is the larger of [ltp - entry] and
    [entry - ltp] times the quantity; the amount written at close is the
    larger of entry and exit price minus the smaller, times the quantity
    (0 without an entry price); rounding keeps the sign.  Hence each
    operation keeps all rows at [mtm >= 0], and so does every run from an
    empty table. *)
Theorem mtm_never_negative :
  (forall st tok side e qty lots,
      match (open_position_db st tok side e qty lots).2 with
      | Some p => mtm p = 0%Q
      | None => True
      end)
  /\ (forall ltp entry qty,
        (tick_mtm ltp entry qty
         == Qmax (ltp - entry) (entry - ltp) * Qnat qty)%Q
        /\ (0 <= py_round (tick_mtm ltp entry qty) 2)%Q)
  /\ (forall p x,
        match entry_price p with
        | Some e =>
            (realized_pnl p x == (Qmax e x - Qmin e x) * Qnat (quantity p))%Q
        | None => (realized_pnl p x == 0)%Q
        end
        /\ (0 <= py_round (realized_pnl p x) 2)%Q)
  /\ (forall st op,
        mtm_nonneg (table st) -> mtm_nonneg (table (run st op)))
  /\ (forall st ops,
        table st = [] -> mtm_nonneg (table (fold_left run ops st))).
Proof.
  split; [| split; [| split; [| split]]].
  - intros st tok side e qty lots. unfold open_position_db.
    destruct (symbol_name_for st tok); [| exact I].
    destruct (String.eqb side "LONG"); reflexivity.
  - intros ltp entry qty. split; [apply tick_mtm_max |].
    apply py_round_nonneg, tick_mtm_nonneg.
  - intros p x. split.
    + destruct (entry_price p) as [e |] eqn:He.
      * apply realized_pnl_max, He.
      * unfold realized_pnl. rewrite He. reflexivity.
    + apply py_round_nonneg, realized_pnl_nonneg.
  - apply run_preserves.
  - intros st ops Hempty.
    assert (H : mtm_nonneg (table st)) by (rewrite Hempty; constructor).
    clear Hempty. revert st H.
    induction ops as [| op ops IH]; intros st H; [exact H |].
    cbn [fold_left]. apply IH, run_preserves, H.
Qed.

Lemma mtm_never_negative_witness :
  table session = []
  /\ mtm_nonneg
       (table (fold_left run
                 [OpSignal "3045"
                    (Some (mkSignal BUY (R_text "test") None)) (Some 100%Q);
                  OpTick tick_99]
                 session)).
Proof.
  split; [reflexivity |].
  apply (proj2 (proj2 (proj2 (proj2 mtm_never_negative)))). reflexivity.
Defined.

End MtmTheorems.

(** ** RSI *)

Module RsiFacts.

Lemma length_diff_cons a l : length (diff (a :: l)) = length l.
Proof.
  revert a. induction l as [| b l IH]; intros a; [reflexivity |].
  change (diff (a :: b :: l)) with ((b - a)%Q :: diff (b :: l)).
  cbn [length]. rewrite IH. reflexivity.
Qed.

Lemma length_diff l : length (diff l) = (length l - 1)%nat.
Proof.
  destruct l as [| a l]; [reflexivity |].
  rewrite length_diff_cons. cbn. lia.
Qed.

Lemma rsi_step_eq period deltas up down rsi i :
  rsi_step period deltas (up, down, rsi) i
  = let ud := wilder_step period (up, down)
                (default 0%Q (deltas !! (i - 1)%nat)) in
    (ud.1, ud.2, <[i := rsi_of (rs_of ud.1 ud.2)]> rsi).
Proof.
  unfold rsi_step, wilder_step.
  destruct (Qgtb (default 0%Q (deltas !! (i - 1)%nat)) 0); reflexivity.
Qed.

(** The loop over [range(a, a + k)] smooths in the deltas [a-1 .. a+k-2]
    and leaves the last value at index [a + k - 1] of the array. *)
Lemma rsi_loop period deltas k :
  forall a up down (rsi : list Q),
    (1 <= a)%nat -> (a - 1 + k <= length deltas)%nat ->
    (a + k <= length rsi)%nat ->
    let r := fold_left (rsi_step period deltas) (seq a k) (up, down, rsi) in
    let ud := fold_left (wilder_step period) (take k (drop (a - 1) deltas))
                (up, down) in
    r.1.1 = ud.1 /\ r.1.2 = ud.2
    /\ length r.2 = length rsi
    /\ ((0 < k)%nat ->
        r.2 !! (a + k - 1)%nat = Some (rsi_of (rs_of ud.1 ud.2))).
Proof.
  induction k as [| k IH]; intros a up down rsi Ha Hd Hr.
  - cbn. split; [reflexivity | split; [reflexivity | split; [reflexivity |]]].
    lia.
  - cbn [seq fold_left]. rewrite rsi_step_eq. cbn zeta.
    destruct (deltas !! (a - 1)%nat) as [x |] eqn:Ex;
      [| apply lookup_ge_None in Ex; lia].
    assert (Hdrop : take (S k) (drop (a - 1) deltas)
                    = x :: take k (drop (S a - 1) deltas)).
    { rewrite (drop_S deltas x (a - 1)) by exact Ex.
      cbn [take]. do 3 f_equal. lia. }
    rewrite Hdrop. cbn [fold_left].
    change (default 0%Q (Some x)) with x.
    destruct (wilder_step period (up, down) x) as [u1 d1] eqn:Ew.
    cbn [fst snd].
    specialize (IH (S a) u1 d1 (<[a := rsi_of (rs_of u1 d1)]> rsi)).
    rewrite length_insert in IH.
    specialize (IH ltac:(lia) ltac:(lia) ltac:(lia)).
    cbn zeta in IH. destruct IH as (H1 & H2 & H3 & H4).
    split; [exact H1 | split; [exact H2 | split; [exact H3 |]]].
    intros _. destruct k as [| k].
    + cbn. replace (a + 1 - 1)%nat with a by lia.
      apply list_lookup_insert_eq. lia.
    + replace (a + S (S k) - 1)%nat with (S a + S k - 1)%nat by lia.
      apply H4. lia.
Qed.

Lemma calculate_rsi_as_coded closes period :
  (1 <= period)%nat ->
  calculate_rsi closes period = rsi_as_coded closes period.
Proof.
  intros Hp. unfold calculate_rsi, rsi_as_coded, seed_avg.
  destruct (length closes <? period + 1)%nat eqn:E; [reflexivity |].
  apply Nat.ltb_ge in E.
  set (deltas := diff closes).
  set (up := (Qsum (filter (fun d => Qgeb d 0 = true) (take (period + 1) deltas))
              / Qnat period)%Q).
  set (down := (- Qsum (filter (fun d => Qltb d 0 = true)
                          (take (period + 1) deltas)) / Qnat period)%Q).
  set (rsi0 := replicate (period `min` length closes) (rsi_of (rs_of up down))
               ++ drop period (replicate (length closes) 0%Q)).
  assert (Hlen0 : length rsi0 = length closes).
  { unfold rsi0. rewrite length_app, length_replicate, length_drop,
      length_replicate. lia. }
  assert (Hld : length deltas = (length closes - 1)%nat)
    by apply length_diff.
  pose proof (rsi_loop period deltas (length closes - period) period up down
                rsi0 Hp ltac:(lia) ltac:(lia)) as H.
  cbn zeta in H.
  rewrite (take_ge (drop (period - 1) deltas)) in H
    by (rewrite length_drop; lia).
  destruct (fold_left (rsi_step period deltas)
              (seq period (length closes - period)) (up, down, rsi0))
    as [[u d] rsi] eqn:Er.
  destruct (fold_left (wilder_step period) (drop (period - 1) deltas)
              (up, down)) as [u' d'] eqn:Ew.
  cbn [fst snd] in H. destruct H as (-> & -> & Hl & Hlast).
  rewrite last_lookup, Hl, Hlen0.
  replace (Init.Nat.pred (length closes))
    with (period + (length closes - period) - 1)%nat by lia.
  apply Hlast. lia.
Qed.

(** C7.  [calculate_rsi(closes, 14)] is absent exactly when there are fewer
    than 15 closes, smooths with Wilder's rule and returns the last value
    only; but its seed window is the first 15 deltas (divided by 14), and
    the smoothing starts at the fourteenth delta, which is inside that
    window.  On fourteen rises of 1 followed by a fall of 1 it returns
    254800/2913 (about 87.47), where seeding on the first 14 deltas and
    smoothing in the fifteenth gives 650/7 (about 92.86). *)
Theorem calculate_rsi_seed_window :
  (forall closes,
      calculate_rsi closes 14 = None <-> (length closes < 15)%nat)
  /\ (forall closes, calculate_rsi closes 14 = rsi_as_coded closes 14)
  /\ length closes16 = 16%nat
  /\ Qred <$> calculate_rsi closes16 14 = Some (254800 # 2913)%Q
  /\ Qred <$> rsi_seeded_on_period closes16 14 = Some (650 # 7)%Q.
Proof.
  split; [| split; [| split; [| split]]].
  - intros closes. rewrite calculate_rsi_as_coded by lia.
    unfold rsi_as_coded.
    destruct (length closes <? 14 + 1)%nat eqn:E.
    + apply Nat.ltb_lt in E. split; [intros _; lia | reflexivity].
    + apply Nat.ltb_ge in E.
      destruct (fold_left _ _ _) as [u d].
      split; [discriminate | lia].
  - intros closes. apply calculate_rsi_as_coded. lia.
  - reflexivity.
  - vm_compute. reflexivity.
  - vm_compute. reflexivity.
Qed.

End RsiFacts.

(** ** More on the indicators *)

Module IndicatorFacts.
Import RsiFacts TickFacts.

Lemma Qnat_pos n : (1 <= n)%nat -> (0 < Qnat n)%Q.
Proof.
  intros H. unfold Qnat. change 0%Q with (inject_Z 0). rewrite <- Zlt_Qlt. lia.
Qed.

Lemma Qnat_pred_nonneg n : (1 <= n)%nat -> (0 <= Qnat n - 1)%Q.
Proof.
  intros H. unfold Qnat.
  assert (E : (1 <= inject_Z (Z.of_nat n))%Q).
  { change 1%Q with (inject_Z 1). rewrite <- Zle_Qle. lia. }
  lra.
Qed.

Lemma Qsum_gains_nonneg l :
  (0 <= Qsum (filter (fun d => Qgeb d 0 = true) l))%Q.
Proof.
  induction l as [| d l IH]; [cbn; lra |].
  rewrite filter_cons. destruct (decide (Qgeb d 0 = true)) as [E | E].
  - apply Qgeb_ge in E. cbn [Qsum fold_right] in *. unfold Qsum in IH. lra.
  - exact IH.
Qed.

Lemma Qsum_losses_nonpos l :
  (Qsum (filter (fun d => Qltb d 0 = true) l) <= 0)%Q.
Proof.
  induction l as [| d l IH]; [cbn; lra |].
  rewrite filter_cons. destruct (decide (Qltb d 0 = true)) as [E | E].
  - apply Qltb_lt in E. cbn [Qsum fold_right] in *. unfold Qsum in IH. lra.
  - exact IH.
Qed.

Lemma Qdiv_nonneg a b : (0 <= a)%Q -> (0 < b)%Q -> (0 <= a / b)%Q.
Proof.
  intros Ha Hb. apply Qle_shift_div_l; [exact Hb | lra].
Qed.

Lemma seed_avg_nonneg period seed :
  (1 <= period)%nat ->
  (0 <= (seed_avg period seed).1)%Q /\ (0 <= (seed_avg period seed).2)%Q.
Proof.
  intros Hp. pose proof (Qnat_pos period Hp) as Hn.
  unfold seed_avg. cbn [fst snd]. split.
  - apply Qdiv_nonneg; [apply Qsum_gains_nonneg | exact Hn].
  - apply Qdiv_nonneg; [| exact Hn].
    pose proof (Qsum_losses_nonpos seed). lra.
Qed.

Lemma wilder_step_nonneg period up down delta :
  (1 <= period)%nat -> (0 <= up)%Q -> (0 <= down)%Q ->
  (0 <= (wilder_step period (up, down) delta).1)%Q
  /\ (0 <= (wilder_step period (up, down) delta).2)%Q.
Proof.
  intros Hp Hu Hd.
  pose proof (Qnat_pos period Hp) as Hn.
  pose proof (Qnat_pred_nonneg period Hp) as Hn1.
  unfold wilder_step. destruct (Qgtb delta 0) eqn:E; cbn [fst snd].
  - apply Qgtb_gt in E. split; apply Qdiv_nonneg; try exact Hn.
    + assert (0 <= up * (Qnat period - 1))%Q
        by (apply Qmult_le_0_compat; assumption). lra.
    + assert (0 <= down * (Qnat period - 1))%Q
        by (apply Qmult_le_0_compat; assumption). lra.
  - assert (E' : (delta <= 0)%Q).
    { unfold Qgtb in E. apply negb_false_iff, Qle_bool_iff in E. exact E. }
    split; apply Qdiv_nonneg; try exact Hn.
    + assert (0 <= up * (Qnat period - 1))%Q
        by (apply Qmult_le_0_compat; assumption). lra.
    + assert (0 <= down * (Qnat period - 1))%Q
        by (apply Qmult_le_0_compat; assumption). lra.
Qed.

Lemma wilder_fold_nonneg period deltas :
  (1 <= period)%nat ->
  forall ud,
    (0 <= ud.1)%Q -> (0 <= ud.2)%Q ->
    (0 <= (fold_left (wilder_step period) deltas ud).1)%Q
    /\ (0 <= (fold_left (wilder_step period) deltas ud).2)%Q.
Proof.
  intros Hp. induction deltas as [| d deltas IH]; intros [u dn] Hu Hd;
    [split; assumption |].
  cbn [fold_left]. cbn [fst snd] in Hu, Hd.
  destruct (wilder_step_nonneg period u dn d Hp Hu Hd) as [H1 H2].
  apply IH; assumption.
Qed.

Lemma rsi_of_range up down :
  (0 <= up)%Q -> (0 <= down)%Q ->
  (0 <= rsi_of (rs_of up down) <= 100)%Q.
Proof.
  intros Hu Hd. unfold rs_of.
  destruct (Qeq_bool down 0) eqn:E; cbn [rsi_of]; [lra |].
  assert (Hd' : (0 < down)%Q).
  { apply Qeq_bool_neq in E. destruct (Qlt_le_dec 0 down) as [H | H];
      [exact H |]. exfalso. apply E. lra. }
  assert (Hr : (0 <= up / down)%Q) by (apply Qdiv_nonneg; assumption).
  assert (H1 : (0 < 1 + up / down)%Q) by lra.
  assert (Hq : (0 <= 100 / (1 + up / down) <= 100)%Q).
  { split.
    - apply Qdiv_nonneg; [lra | exact H1].
    - apply Qle_shift_div_r; [exact H1 |]. nra. }
  lra.
Qed.

(** X1.  Whatever the closes, an RSI that is returned lies between 0 and 100. *)
Theorem calculate_rsi_range :
  forall closes period v,
    (1 <= period)%nat ->
    calculate_rsi closes period = Some v ->
    (0 <= v <= 100)%Q.
Proof.
  intros closes period v Hp H.
  rewrite calculate_rsi_as_coded in H by exact Hp.
  unfold rsi_as_coded in H.
  destruct (length closes <? period + 1)%nat; [discriminate |].
  pose proof (seed_avg_nonneg period (take (period + 1) (diff closes)) Hp)
    as [Hu Hd].
  pose proof (wilder_fold_nonneg period (drop (period - 1) (diff closes)) Hp
                _ Hu Hd) as [Hu' Hd'].
  destruct (fold_left _ _ _) as [u d]. cbn [fst snd] in Hu', Hd'.
  injection H as <-. apply rsi_of_range; assumption.
Qed.

Lemma calculate_rsi_range_witness :
  exists v, calculate_rsi closes16 14 = Some v /\ (0 <= v <= 100)%Q.
Proof.
  assert (H : calculate_rsi closes16 14
              = Some (default 0%Q (calculate_rsi closes16 14)))
    by (vm_compute; reflexivity).
  eexists. split; [exact H |].
  exact (calculate_rsi_range closes16 14 _ ltac:(lia) H).
Defined.

Lemma filter_all_false {A} (P : A -> Prop) `{forall x, Decision (P x)} l :
  Forall (fun x => ~ P x) l -> filter P l = [].
Proof.
  induction 1 as [| x l Hx _ IH]; [reflexivity |].
  rewrite filter_cons_False by exact Hx. exact IH.
Qed.

Lemma filter_all_true {A} (P : A -> Prop) `{forall x, Decision (P x)} l :
  Forall P l -> filter P l = l.
Proof.
  induction 1 as [| x l Hx _ IH]; [reflexivity |].
  rewrite filter_cons_True by exact Hx. rewrite IH. reflexivity.
Qed.

Lemma Qsum_neg l :
  l <> [] -> Forall (fun d => (d < 0)%Q) l -> (Qsum l < 0)%Q.
Proof.
  intros Hne Hall. induction Hall as [| d l Hd Hl IH]; [contradiction |].
  cbn [Qsum fold_right]. destruct l as [| d' l].
  - cbn. lra.
  - assert (Qsum (d' :: l) < 0)%Q by (apply IH; discriminate).
    unfold Qsum in *. lra.
Qed.

(** Without a fall the average loss is zero from the seed on. *)
Lemma no_losses_down_zero period deltas :
  (1 <= period)%nat ->
  Forall (fun d => (0 <= d)%Q) deltas ->
  forall ud, (ud.2 == 0)%Q ->
             ((fold_left (wilder_step period) deltas ud).2 == 0)%Q.
Proof.
  intros Hp Hall. induction Hall as [| d deltas Hd _ IH]; intros [u dn] H0;
    [exact H0 |].
  cbn [fold_left]. apply IH. cbn [snd] in H0.
  unfold wilder_step. destruct (Qgtb d 0) eqn:E; cbn [snd].
  - rewrite H0. unfold Qdiv. ring.
  - assert (Ed : (d == 0)%Q).
    { unfold Qgtb in E. apply negb_false_iff, Qle_bool_iff in E. lra. }
    rewrite H0, Ed. unfold Qdiv. ring.
Qed.

(** With falls only the average gain is zero and the average loss is
    positive from the seed on. *)
Lemma only_losses period deltas :
  (1 <= period)%nat ->
  Forall (fun d => (d < 0)%Q) deltas ->
  forall ud, (ud.1 == 0)%Q -> (0 < ud.2)%Q ->
             ((fold_left (wilder_step period) deltas ud).1 == 0)%Q
             /\ (0 < (fold_left (wilder_step period) deltas ud).2)%Q.
Proof.
  intros Hp Hall.
  pose proof (Qnat_pos period Hp) as Hn.
  pose proof (Qnat_pred_nonneg period Hp) as Hn1.
  induction Hall as [| d deltas Hd _ IH]; intros [u dn] Hu Hdn;
    [split; assumption |].
  cbn [fold_left]. cbn [fst snd] in Hu, Hdn.
  assert (E : Qgtb d 0 = false).
  { unfold Qgtb. apply negb_false_iff, Qle_bool_iff. lra. }
  assert (Hs : wilder_step period (u, dn) d
               = (((u * (Qnat period - 1) + 0) / Qnat period)%Q,
                  ((dn * (Qnat period - 1) + - d) / Qnat period)%Q))
    by (unfold wilder_step; rewrite E; reflexivity).
  rewrite Hs. apply IH; cbn [fst snd].
  - rewrite Hu. unfold Qdiv. ring.
  - apply Qlt_shift_div_l; [exact Hn |].
    assert (0 <= dn * (Qnat period - 1))%Q
      by (apply Qmult_le_0_compat; lra).
    lra.
Qed.

(** X2.  An RSI over closes that never fall (flat ones included) is exactly
    100; over closes that fall at every step it is 0. *)
Theorem calculate_rsi_saturates :
  forall closes period,
    (1 <= period)%nat -> (period + 1 <= length closes)%nat ->
    (Forall (fun d => (0 <= d)%Q) (diff closes) ->
     calculate_rsi closes period = Some 100%Q)
    /\ (Forall (fun d => (d < 0)%Q) (diff closes) ->
        exists v, calculate_rsi closes period = Some v /\ (v == 0)%Q).
Proof.
  intros closes period Hp Hlen. split.
  - intros Hall.
    rewrite calculate_rsi_as_coded by exact Hp. unfold rsi_as_coded.
    destruct (length closes <? period + 1)%nat eqn:E;
      [apply Nat.ltb_lt in E; lia |].
    assert (H0 : ((seed_avg period (take (period + 1) (diff closes))).2 == 0)%Q).
    { unfold seed_avg. cbn [snd].
      rewrite filter_all_false.
      - cbn [Qsum fold_right]. unfold Qdiv. ring.
      - eapply Forall_impl; [apply Forall_take; exact Hall |].
        intros d Hd Hlt. apply Qltb_lt in Hlt. cbn in Hd. lra. }
    pose proof (no_losses_down_zero period (drop (period - 1) (diff closes))
                  Hp (Forall_drop _ _ _ Hall) _ H0) as Hd.
    destruct (fold_left _ _ _) as [u d]. cbn [snd] in Hd.
    unfold rs_of. apply Qeq_bool_iff in Hd. rewrite Hd. reflexivity.
  - intros Hall.
    rewrite calculate_rsi_as_coded by exact Hp. unfold rsi_as_coded.
    destruct (length closes <? period + 1)%nat eqn:E;
      [apply Nat.ltb_lt in E; lia |].
    pose proof (Qnat_pos period Hp) as Hn.
    set (seed := take (period + 1) (diff closes)).
    assert (Hseed : Forall (fun d => (d < 0)%Q) seed)
      by (apply Forall_take; exact Hall).
    assert (Hne : seed <> []).
    { intros Hnil. apply (f_equal length) in Hnil.
      unfold seed in Hnil. rewrite length_take, length_diff in Hnil.
      cbn in Hnil. lia. }
    assert (Hu : ((seed_avg period seed).1 == 0)%Q).
    { unfold seed_avg. cbn [fst].
      rewrite filter_all_false.
      - cbn [Qsum fold_right]. unfold Qdiv. ring.
      - eapply Forall_impl; [exact Hseed |].
        intros d Hd Hge. apply Qgeb_ge in Hge. cbn in Hd. lra. }
    assert (Hd : (0 < (seed_avg period seed).2)%Q).
    { unfold seed_avg. cbn [snd].
      rewrite filter_all_true.
      - apply Qlt_shift_div_l; [exact Hn |].
        pose proof (Qsum_neg seed Hne Hseed). lra.
      - eapply Forall_impl; [exact Hseed |].
        intros d Hlt. apply Qltb_lt. exact Hlt. }
    destruct (only_losses period (drop (period - 1) (diff closes)) Hp
                (Forall_drop _ _ _ Hall) _ Hu Hd) as [Hu' Hd'].
    destruct (fold_left _ _ _) as [u d]. cbn [fst snd] in Hu', Hd'.
    eexists. split; [reflexivity |].
    unfold rs_of.
    assert (Ed : Qeq_bool d 0 = false).
    { destruct (Qeq_bool d 0) eqn:Eq; [| reflexivity].
      apply Qeq_bool_iff in Eq. lra. }
    rewrite Ed. cbn [rsi_of].
    assert (Hr : (u / d == 0)%Q) by (rewrite Hu'; unfold Qdiv; ring).
    rewrite Hr. reflexivity.
Qed.

Lemma calculate_rsi_saturates_witness :
  calculate_rsi rising_closes 14 = Some 100%Q
  /\ exists v, calculate_rsi falling_closes 14 = Some v /\ (v == 0)%Q.
Proof.
  split.
  - apply (calculate_rsi_saturates rising_closes 14);
      [lia | vm_compute; lia |].
    vm_compute.
    repeat (constructor; [discriminate |]). constructor.
  - apply (calculate_rsi_saturates falling_closes 14);
      [lia | vm_compute; lia |].
    vm_compute.
    repeat (constructor; [reflexivity |]). constructor.
Defined.

End IndicatorFacts.

Module MacdFacts.
Import TickFacts IndicatorFacts.

Lemma length_ewm_from alpha xs : forall prev,
  length (ewm_from alpha prev xs) = length xs.
Proof.
  induction xs as [| x xs IH]; intros prev; [reflexivity |].
  cbn. rewrite IH. reflexivity.
Qed.

Lemma length_ewm_mean span xs : length (ewm_mean span xs) = length xs.
Proof.
  destruct xs as [| x xs]; [reflexivity |].
  cbn. rewrite length_ewm_from. reflexivity.
Qed.

Lemma last_is_Some {A} (l : list A) :
  (0 < length l)%nat -> exists x, last l = Some x.
Proof.
  intros H. destruct (last l) as [x |] eqn:E; [eauto |].
  apply last_None in E. subst. cbn in H. lia.
Qed.

Lemma last_zip_with_minus (a b : list Q) x y :
  length a = length b -> last a = Some x -> last b = Some y ->
  last (zip_with Qminus a b) = Some (x - y)%Q.
Proof.
  revert b. induction a as [| a0 a IH]; intros b Hlen Ha Hb;
    [discriminate |].
  destruct b as [| b0 b]; [discriminate |].
  destruct a as [| a1 a], b as [| b1 b]; try discriminate.
  - cbn in Ha, Hb. injection Ha as <-. injection Hb as <-. reflexivity.
  - change (last (a0 :: a1 :: a)) with (last (a1 :: a)) in Ha.
    change (last (b0 :: b1 :: b)) with (last (b1 :: b)) in Hb.
    change (zip_with Qminus (a0 :: a1 :: a) (b0 :: b1 :: b))
      with ((a0 - b0)%Q :: zip_with Qminus (a1 :: a) (b1 :: b)).
    specialize (IH (b1 :: b) ltac:(cbn in *; lia) Ha Hb).
    destruct (zip_with Qminus (a1 :: a) (b1 :: b)) eqn:E;
      [discriminate | exact IH].
Qed.

Lemma macd_defined closes fast slow signal :
  (1 <= slow)%nat -> (slow <= length closes)%nat ->
  exists l s h,
    calculate_macd closes fast slow signal = (Some l, Some s, Some h)
    /\ (h == l - s)%Q.
Proof.
  intros Hs H. unfold calculate_macd.
  apply Nat.ltb_ge in H. rewrite H. apply Nat.ltb_ge in H.
  set (line := zip_with Qminus (ewm_mean fast closes) (ewm_mean slow closes)).
  assert (Hl : length line = length closes).
  { unfold line. rewrite length_zip_with, !length_ewm_mean. lia. }
  destruct (last_is_Some line ltac:(lia)) as [l El].
  destruct (last_is_Some (ewm_mean signal line)
              ltac:(rewrite length_ewm_mean; lia)) as [s Es].
  exists l, s, (l - s)%Q.
  rewrite El, Es.
  rewrite (last_zip_with_minus line (ewm_mean signal line) l s);
    [split; reflexivity | | exact El | exact Es].
  rewrite length_ewm_mean. reflexivity.
Qed.

(** X3.  For spans [fast], [slow] and [signal] of at least 1,
    [calculate_macd] is absent below [slow] closes and complete from there
    on, and its histogram is its line minus its signal. *)
Theorem calculate_macd_presence :
  forall closes fast slow signal,
    (1 <= fast)%nat -> (1 <= slow)%nat -> (1 <= signal)%nat ->
    ((length closes < slow)%nat ->
     calculate_macd closes fast slow signal = (None, None, None))
    /\ ((slow <= length closes)%nat ->
        exists l s h,
          calculate_macd closes fast slow signal = (Some l, Some s, Some h)
          /\ (h == l - s)%Q).
Proof.
  intros closes fast slow signal _ Hs _. split.
  - intros H. unfold calculate_macd. apply Nat.ltb_lt in H. rewrite H.
    reflexivity.
  - apply macd_defined. exact Hs.
Qed.

Lemma calculate_macd_presence_witness :
  calculate_macd (take 25 (c_close <$> rising_candles)) 12 26 9
  = (None, None, None)
  /\ exists l s h,
      calculate_macd (take 26 (c_close <$> rising_candles)) 12 26 9
      = (Some l, Some s, Some h)
      /\ (h == l - s)%Q.
Proof.
  split.
  - apply (proj1 (calculate_macd_presence _ 12 26 9
                    ltac:(lia) ltac:(lia) ltac:(lia))).
    vm_compute. lia.
  - apply (proj2 (calculate_macd_presence _ 12 26 9
                    ltac:(lia) ltac:(lia) ltac:(lia))).
    vm_compute. lia.
Defined.

Lemma ewm_from_constant alpha c xs : forall prev,
  (prev == c)%Q -> Forall (fun x => (x == c)%Q) xs ->
  Forall (fun y => (y == c)%Q) (ewm_from alpha prev xs).
Proof.
  induction xs as [| x xs IH]; intros prev Hp Hall; [constructor |].
  inversion Hall as [| ? ? Hx Hxs]; subst. cbn [ewm_from].
  assert (Hy : ((1 - alpha) * prev + alpha * x == c)%Q)
    by (rewrite Hp, Hx; ring).
  constructor; [exact Hy |]. apply IH; assumption.
Qed.

Lemma ewm_mean_constant span c xs :
  Forall (fun x => (x == c)%Q) xs ->
  Forall (fun y => (y == c)%Q) (ewm_mean span xs).
Proof.
  intros Hall. destruct xs as [| x xs]; [constructor |].
  inversion Hall as [| ? ? Hx Hxs]; subst. cbn [ewm_mean].
  constructor; [exact Hx |]. apply ewm_from_constant; assumption.
Qed.

Lemma zip_minus_constant c (a : list Q) : forall b,
  Forall (fun x => (x == c)%Q) a -> Forall (fun x => (x == c)%Q) b ->
  Forall (fun x => (x == 0)%Q) (zip_with Qminus a b).
Proof.
  induction a as [| x a IH]; intros b Ha Hb; [constructor |].
  destruct b as [| y b]; [constructor |].
  inversion Ha as [| ? ? Hx Ha']; inversion Hb as [| ? ? Hy Hb']; subst.
  cbn [zip_with]. constructor; [rewrite Hx, Hy; ring | apply IH; assumption].
Qed.

Lemma Forall_last {A} (P : A -> Prop) (l : list A) x :
  Forall P l -> last l = Some x -> P x.
Proof.
  intros Hall Hl. rewrite last_lookup in Hl.
  apply (proj1 (Forall_lookup P l) Hall _ _ Hl).
Qed.

(** X4.  For spans [fast], [slow] and [signal] of at least 1, on closes
    that are all equal the MACD line, signal and histogram are zero. *)
Theorem calculate_macd_flat :
  forall closes c fast slow signal,
    (1 <= fast)%nat -> (1 <= slow)%nat -> (1 <= signal)%nat ->
    (slow <= length closes)%nat ->
    Forall (fun x => (x == c)%Q) closes ->
    exists l s h,
      calculate_macd closes fast slow signal = (Some l, Some s, Some h)
      /\ (l == 0)%Q /\ (s == 0)%Q /\ (h == 0)%Q.
Proof.
  intros closes c fast slow signal _ Hs _ Hlen Hall.
  unfold calculate_macd.
  destruct (length closes <? slow)%nat eqn:E;
    [apply Nat.ltb_lt in E; lia |].
  set (line := zip_with Qminus (ewm_mean fast closes) (ewm_mean slow closes)).
  assert (Hline : Forall (fun x => (x == 0)%Q) line)
    by (apply (zip_minus_constant c); apply ewm_mean_constant; exact Hall).
  assert (Hsig : Forall (fun x => (x == 0)%Q) (ewm_mean signal line))
    by (apply ewm_mean_constant; exact Hline).
  assert (Hhist : Forall (fun x => (x == 0)%Q)
                    (zip_with Qminus line (ewm_mean signal line)))
    by (apply (zip_minus_constant 0); assumption).
  assert (Hl : length line = length closes).
  { unfold line. rewrite length_zip_with, !length_ewm_mean. lia. }
  destruct (last_is_Some line ltac:(lia)) as [l El].
  destruct (last_is_Some (ewm_mean signal line)
              ltac:(rewrite length_ewm_mean; lia)) as [s Es].
  destruct (last_is_Some (zip_with Qminus line (ewm_mean signal line))
              ltac:(rewrite length_zip_with, length_ewm_mean; lia))
    as [h Eh].
  exists l, s, h. rewrite El, Es, Eh.
  split; [reflexivity |].
  split; [exact (Forall_last _ _ _ Hline El) |].
  split; [exact (Forall_last _ _ _ Hsig Es) |].
  exact (Forall_last _ _ _ Hhist Eh).
Qed.

Lemma calculate_macd_flat_witness :
  exists l s h,
    calculate_macd flat_closes 12 26 9 = (Some l, Some s, Some h)
    /\ (l == 0)%Q /\ (s == 0)%Q /\ (h == 0)%Q.
Proof.
  apply (calculate_macd_flat flat_closes 100%Q 12 26 9);
    [lia | lia | lia | vm_compute; lia |].
  vm_compute.
  repeat (constructor; [reflexivity |]). constructor.
Defined.

Lemma smoothing_factor span :
  (1 <= span)%nat ->
  (0 < 2 / (Qnat span + 1) <= 1)%Q.
Proof.
  intros H. pose proof (Qnat_pred_nonneg span H) as Hn. split.
  - apply Qlt_shift_div_l; lra.
  - apply Qle_shift_div_r; lra.
Qed.

Lemma smoothing_factor_lt fast slow :
  (1 <= fast)%nat -> (fast < slow)%nat ->
  (2 / (Qnat slow + 1) < 2 / (Qnat fast + 1))%Q.
Proof.
  intros Hf Hlt.
  pose proof (Qnat_pos fast Hf) as Hfp.
  assert (Hq : (Qnat fast < Qnat slow)%Q)
    by (unfold Qnat; rewrite <- Zlt_Qlt; lia).
  apply Qlt_shift_div_l; [lra |].
  assert (E : (2 / (Qnat slow + 1) * (Qnat fast + 1)
               == 2 * ((Qnat fast + 1) / (Qnat slow + 1)))%Q)
    by (field; lra).
  rewrite E.
  assert ((Qnat fast + 1) / (Qnat slow + 1) < 1)%Q
    by (apply Qlt_shift_div_r; lra).
  lra.
Qed.

(** The fast average runs ahead of the slow one on rising closes. *)
Lemma ewm_gap_rising a b xs :
  (0 < b)%Q -> (b < a)%Q -> (a <= 1)%Q ->
  forall f s xp,
    (s <= f)%Q -> (f <= xp)%Q ->
    Forall (fun d => (0 < d)%Q) (diff (xp :: xs)) ->
    Forall (fun v => (0 < v)%Q)
           (zip_with Qminus (ewm_from a f xs) (ewm_from b s xs)).
Proof.
  intros Hb Hab Ha.
  induction xs as [| x xs IH]; intros f s xp Hsf Hfx Hinc; [constructor |].
  change (diff (xp :: x :: xs)) with ((x - xp)%Q :: diff (x :: xs)) in Hinc.
  inversion Hinc as [| ? ? Hd Hrest]; subst.
  cbn [ewm_from zip_with].
  assert (H1 : (0 <= (1 - a) * (f - s))%Q)
    by (apply Qmult_le_0_compat; lra).
  assert (H2 : (0 < (a - b) * (x - s))%Q)
    by (apply Qmult_lt_0_compat; lra).
  assert (H3 : (0 <= (1 - a) * (x - f))%Q)
    by (apply Qmult_le_0_compat; lra).
  constructor.
  - lra.
  - apply (IH _ _ x); [lra | lra | exact Hrest].
Qed.

Lemma ewm_gap_falling a b xs :
  (0 < b)%Q -> (b < a)%Q -> (a <= 1)%Q ->
  forall f s xp,
    (f <= s)%Q -> (xp <= f)%Q ->
    Forall (fun d => (d < 0)%Q) (diff (xp :: xs)) ->
    Forall (fun v => (v < 0)%Q)
           (zip_with Qminus (ewm_from a f xs) (ewm_from b s xs)).
Proof.
  intros Hb Hab Ha.
  induction xs as [| x xs IH]; intros f s xp Hsf Hfx Hinc; [constructor |].
  change (diff (xp :: x :: xs)) with ((x - xp)%Q :: diff (x :: xs)) in Hinc.
  inversion Hinc as [| ? ? Hd Hrest]; subst.
  cbn [ewm_from zip_with].
  assert (H1 : (0 <= (1 - a) * (s - f))%Q)
    by (apply Qmult_le_0_compat; lra).
  assert (H2 : (0 < (a - b) * (s - x))%Q)
    by (apply Qmult_lt_0_compat; lra).
  assert (H3 : (0 <= (1 - a) * (f - x))%Q)
    by (apply Qmult_le_0_compat; lra).
  constructor.
  - lra.
  - apply (IH _ _ x); [lra | lra | exact Hrest].
Qed.

(** X5.  With a faster and a slower average and spans of at least 1, the
    MACD line is positive on closes that rise at every step and negative on
    closes that fall at every step. *)
Theorem calculate_macd_trend :
  forall closes fast slow signal,
    (1 <= fast)%nat -> (fast < slow)%nat -> (1 <= signal)%nat ->
    (slow <= length closes)%nat ->
    (Forall (fun d => (0 < d)%Q) (diff closes) ->
     exists l s h,
       calculate_macd closes fast slow signal = (Some l, Some s, Some h)
       /\ (0 < l)%Q)
    /\ (Forall (fun d => (d < 0)%Q) (diff closes) ->
        exists l s h,
          calculate_macd closes fast slow signal = (Some l, Some s, Some h)
          /\ (l < 0)%Q).
Proof.
  intros closes fast slow signal Hf Hfs _ Hlen.
  destruct (macd_defined closes fast slow signal ltac:(lia) Hlen)
    as (l & s & h & Heq & _).
  pose proof (smoothing_factor fast Hf) as [_ Ha1].
  pose proof (smoothing_factor slow ltac:(lia)) as [Hb0 _].
  pose proof (smoothing_factor_lt fast slow Hf Hfs) as Hab.
  assert (Hline : last (zip_with Qminus (ewm_mean fast closes)
                          (ewm_mean slow closes)) = Some l).
  { unfold calculate_macd in Heq.
    destruct (length closes <? slow)%nat; [discriminate |].
    injection Heq as H1 _ _. exact H1. }
  destruct closes as [| x0 [| x1 xs]]; try (cbn in Hlen; lia).
  cbn [ewm_mean] in Hline.
  change (zip_with Qminus (x0 :: ?a) (x0 :: ?b))
    with ((x0 - x0)%Q :: zip_with Qminus a b) in Hline.
  split; intros Hmono; exists l, s, h; (split; [exact Heq |]).
  - pose proof (ewm_gap_rising _ _ (x1 :: xs) Hb0 Hab Ha1 x0 x0 x0
                  ltac:(lra) ltac:(lra) Hmono) as Hall.
    cbn [ewm_from zip_with] in Hall, Hline.
    exact (Forall_last _ _ _ Hall Hline).
  - pose proof (ewm_gap_falling _ _ (x1 :: xs) Hb0 Hab Ha1 x0 x0 x0
                  ltac:(lra) ltac:(lra) Hmono) as Hall.
    cbn [ewm_from zip_with] in Hall, Hline.
    exact (Forall_last _ _ _ Hall Hline).
Qed.

Lemma calculate_macd_trend_witness :
  (exists l s h,
      calculate_macd rising_closes 12 26 9 = (Some l, Some s, Some h)
      /\ (0 < l)%Q)
  /\ (exists l s h,
        calculate_macd falling_closes 12 26 9 = (Some l, Some s, Some h)
        /\ (l < 0)%Q).
Proof.
  split.
  - apply (calculate_macd_trend rising_closes 12 26 9);
      [lia | lia | lia | vm_compute; lia |].
    vm_compute.
    repeat (constructor; [reflexivity |]). constructor.
  - apply (calculate_macd_trend falling_closes 12 26 9);
      [lia | lia | lia | vm_compute; lia |].
    vm_compute.
    repeat (constructor; [reflexivity |]). constructor.
Defined.

End MacdFacts.

(** ** A new position and its first tick *)

Module FirstTickFacts.
Import StoreFacts CloseFacts TickFacts ExitFacts OpenFacts.

Lemma round_half_even_ge_int y r :
  (inject_Z r <= y)%Q -> (r <= round_half_even y)%Z.
Proof.
  intros H. apply Qfloor_resp_le in H. rewrite Qfloor_Z in H.
  unfold round_half_even.
  destruct (y - inject_Z (Qfloor y) ?= 1 # 2)%Q; try lia.
  destruct (Z.even (Qfloor y)); lia.
Qed.

Lemma round_half_even_le_int y r :
  (y <= inject_Z r)%Q -> (round_half_even y <= r)%Z.
Proof.
  intros H. pose proof (Qfloor_le y) as Hf.
  assert (Hfr : (Qfloor y <= r)%Z) by (rewrite Zle_Qle; lra).
  assert (Hup : (0 < y - inject_Z (Qfloor y))%Q -> (Qfloor y + 1 <= r)%Z).
  { intros Hpos. assert (Hlt : (inject_Z (Qfloor y) < inject_Z r)%Q) by lra.
    rewrite <- Zlt_Qlt in Hlt. lia. }
  unfold round_half_even.
  destruct (y - inject_Z (Qfloor y) ?= 1 # 2)%Q eqn:E.
  - apply Qeq_alt in E. destruct (Z.even (Qfloor y)); [exact Hfr |].
    apply Hup. lra.
  - exact Hfr.
  - apply Qgt_alt in E. apply Hup. lra.
Qed.

(** Rounding to cents never crosses a price that is itself in cents. *)
Lemma py_round_ge_cents x r :
  (inject_Z r / 100 <= x)%Q -> (inject_Z r / 100 <= py_round x 2)%Q.
Proof.
  intros H. unfold py_round.
  change (inject_Z (10 ^ Z.of_nat 2)) with 100%Q.
  apply Qle_shift_div_l; [lra |].
  assert (E : (inject_Z r / 100 * 100 == inject_Z r)%Q) by (field; lra).
  rewrite E. rewrite <- Zle_Qle. apply round_half_even_ge_int. lra.
Qed.

Lemma py_round_le_cents x r :
  (x <= inject_Z r / 100)%Q -> (py_round x 2 <= inject_Z r / 100)%Q.
Proof.
  intros H. unfold py_round.
  change (inject_Z (10 ^ Z.of_nat 2)) with 100%Q.
  apply Qle_shift_div_r; [lra |].
  assert (E : (inject_Z r / 100 * 100 == inject_Z r)%Q) by (field; lra).
  rewrite E. rewrite <- Zle_Qle. apply round_half_even_le_int. lra.
Qed.

Lemma exit_check_decides ltp entry pos tg sl :
  target pos = Some tg -> stoploss pos = Some sl ->
  (exit_check ltp entry pos).2
  = target_hit ltp entry tg || stoploss_hit ltp entry sl.
Proof.
  intros Ht Hs. unfold exit_check. rewrite Ht, Hs.
  destruct (target_hit ltp entry tg), (stoploss_hit ltp entry sl);
    reflexivity.
Qed.

(** For the target and stoploss [open_position_db] computes from a
    non-negative entry price, every price in cents meets one of the two
    exit conditions. *)
Lemma fresh_levels_always_hit side e raw :
  (0 <= e)%Q ->
  let ltp := (inject_Z raw / 100)%Q in
  target_hit ltp e (rounded_levels side e).1
  || stoploss_hit ltp e (rounded_levels side e).2 = true.
Proof.
  intros He ltp. unfold rounded_levels, levels.
  unfold target_hit, stoploss_hit, Qgeb.
  assert (Hrw : (reward_percent == 15 # 1000)%Q) by reflexivity.
  assert (Hrk : (risk_percent == 1 # 100)%Q) by reflexivity.
  destruct (Qlt_le_dec ltp e) as [Hlt | Hge].
  - (* the price is below the entry *)
    assert (E2 : Qle_bool ltp e = true) by (apply Qle_bool_iff; lra).
    destruct (String.eqb side "LONG"); cbn [fst snd];
      set (tg := round_computed _ (levels_b64 side e).1 2);
      set (sl := round_computed _ (levels_b64 side e).2 2).
    + assert (Htg : (ltp <= tg)%Q).
      { apply round_computed_ge_cents. fold ltp. rewrite Hrw.
        assert (0 <= e * (15 # 1000))%Q by (apply Qmult_le_0_compat; lra).
        lra. }
      assert (Htg0 : (0 <= tg)%Q).
      { apply round_computed_nonneg. apply Qmult_le_0_compat; [exact He |].
        rewrite Hrw. lra. }
      assert (E1 : Qle_bool ltp (tg * (101 # 100)) = true)
        by (apply Qle_bool_iff; lra).
      rewrite E1, E2. cbn. rewrite orb_true_r. reflexivity.
    + assert (Hsl : (ltp <= sl)%Q).
      { apply round_computed_ge_cents. fold ltp. rewrite Hrk.
        assert (0 <= e * (1 # 100))%Q by (apply Qmult_le_0_compat; lra).
        lra. }
      assert (E1 : Qle_bool ltp sl = true) by (apply Qle_bool_iff; lra).
      rewrite E1, E2. cbn. rewrite orb_true_r. reflexivity.
  - (* the price is at or above the entry *)
    assert (E2 : Qle_bool e ltp = true) by (apply Qle_bool_iff; lra).
    destruct (String.eqb side "LONG"); cbn [fst snd];
      set (tg := round_computed _ (levels_b64 side e).1 2);
      set (sl := round_computed _ (levels_b64 side e).2 2).
    + assert (Hsl : (sl <= ltp)%Q).
      { apply round_computed_le_cents. fold ltp. rewrite Hrk.
        assert (0 <= e * (1 # 100))%Q by (apply Qmult_le_0_compat; lra).
        lra. }
      assert (E1 : Qle_bool sl ltp = true) by (apply Qle_bool_iff; lra).
      rewrite E1, E2. cbn. rewrite !orb_true_r. reflexivity.
    + assert (Htg : (tg <= ltp)%Q).
      { apply round_computed_le_cents. fold ltp. rewrite Hrw.
        assert (0 <= e * (15 # 1000))%Q by (apply Qmult_le_0_compat; lra).
        lra. }
      assert (Htg0 : (0 <= tg)%Q).
      { apply round_computed_nonneg. apply Qmult_le_0_compat; [exact He |].
        rewrite Hrw. lra. }
      assert (E1 : Qle_bool (tg * (99 # 100)) ltp = true)
        by (apply Qle_bool_iff; lra).
      rewrite E1, E2. reflexivity.
Qed.

Lemma open_count_app tok (a b : list Position) :
  open_count tok (a ++ b) = (open_count tok a + open_count tok b)%nat.
Proof. unfold open_count. rewrite filter_app, length_app. reflexivity. Qed.

(** X6.  A position [open_position_db] has just stored, for a token without
    another open row and a non-negative entry price, is closed by the first
    priced tick of that token, whatever the price: one call of
    [close_position_db] at the price of the tick, after which the row is
    CLOSED and the token has no open row. *)
Theorem fresh_position_closed_by_first_tick :
  forall st tok side e qty lots st1 p raw,
    (0 <= e)%Q -> raw <> 0%Z ->
    open_count tok (table st) = 0%nat ->
    open_position_db st tok side e qty lots = (st1, Some p) ->
    let ltp := (inject_Z raw / 100)%Q in
    let st2 := on_data st1 (mkTick (Some tok) (Some raw)) in
    close_calls st2 = close_calls st1 ++ [(tok, ltp, (exit_check ltp e p).1)]
    /\ exists closed,
        table st2 !! length (table st) = Some closed
        /\ status closed = CLOSED
        /\ exit_price closed = Some ltp
        /\ open_count tok (table st2) = 0%nat.
Proof.
  intros st tok side e qty lots st1 p raw He Hraw Hnone Hopen ltp st2.
  destruct (open_position_db_row _ _ _ _ _ _ _ _ Hopen) as [Ht Hp].
  assert (Hfor : open_for tok p)
    by (rewrite Hp; split; reflexivity).
  assert (Hf : filter_open_first tok (table st1)
               = Some (length (table st), p)).
  { unfold filter_open_first. rewrite Ht. apply list_find_app_Some. right.
    split; [lia |]. split.
    - apply filter_open_first_None. exact Hnone.
    - rewrite Nat.sub_diag. cbn. rewrite decide_True by exact Hfor.
      reflexivity. }
  assert (Hentry : entry_price p = Some e) by (rewrite Hp; reflexivity).
  assert (Hx : (exit_check ltp e p).2 = true).
  { rewrite (exit_check_decides ltp e p _ _
               ltac:(rewrite Hp; reflexivity) ltac:(rewrite Hp; reflexivity)).
    apply fresh_levels_always_hit. exact He. }
  destruct (on_data_exit_closes st1 tok raw (length (table st)) p e
              Hraw Hf Hentry Hx) as [Hcalls Hrow].
  split; [exact Hcalls |].
  assert (Hone : (open_count tok (table st1) <= 1)%nat).
  { rewrite Ht, open_count_app, Hnone. unfold open_count.
    rewrite filter_cons_True by exact Hfor. cbn. lia. }
  destruct (Hrow Hone) as (closed & H1 & H2 & H3 & _ & H5).
  exists closed. repeat split; assumption.
Qed.

Lemma fresh_position_closed_by_first_tick_witness :
  close_calls (on_data long_opened (mkTick (Some "3045") (Some 12345%Z)))
  = close_calls long_opened
    ++ [("3045", (inject_Z 12345 / 100)%Q,
         (exit_check (inject_Z 12345 / 100) 100 long_row).1)].
Proof.
  assert (H : open_position_db session "3045" "LONG" 100%Q 50 1
              = (long_opened, Some long_row)) by (vm_compute; reflexivity).
  exact (proj1 (fresh_position_closed_by_first_tick session "3045" "LONG"
                  100%Q 50%nat 1%nat long_opened long_row 12345%Z
                  ltac:(discriminate) ltac:(discriminate) eq_refl H)).
Defined.

End FirstTickFacts.

(** ** Signals and sides *)

Module SignalFacts.

Lemma eqb_side s t : String.eqb s t = true -> s = t.
Proof. apply String.eqb_eq. Qed.

Lemma adx_signal_side adx side sig :
  check_adx_strategy adx side = Some sig -> fits side sig.
Proof.
  intros H. unfold fits. unfold check_adx_strategy in H.
  destruct (di_plus adx) as [| |dp]; try discriminate.
  destruct (di_minus adx) as [| |dm]; try discriminate.
  destruct (String.eqb side "NONE") eqn:E0.
  { apply eqb_side in E0. left. split; [exact E0 |].
    destruct (f_gt dp (Fin 20) && f_gt dp dm).
    - injection H as <-. left. reflexivity.
    - destruct (f_gt dm (Fin 20) && f_gt dm dp); [| discriminate].
      injection H as <-. right. reflexivity. }
  destruct (String.eqb side "LONG") eqn:E1.
  { apply eqb_side in E1. right.
    destruct (f_lt dp (Fin 18)); [| discriminate].
    injection H as <-. split; [left; exact E1 | reflexivity]. }
  destruct (String.eqb side "SHORT") eqn:E2; [| discriminate].
  apply eqb_side in E2. right.
  destruct (f_lt dm (Fin 18)); [| discriminate].
  injection H as <-. split; [right; exact E2 | reflexivity].
Qed.

Lemma macd_signal_side macd side sig :
  check_macd_strategy macd side = inl (Some sig) -> fits side sig.
Proof.
  intros H. unfold fits. unfold check_macd_strategy in H.
  destruct (line macd) as [|s|l]; try discriminate.
  { destruct (_ || _); discriminate. }
  destruct (String.eqb side "NONE") eqn:E0.
  { apply eqb_side in E0. left. split; [exact E0 |].
    destruct (f_gt l (Fin 0)).
    - injection H as <-. left. reflexivity.
    - destruct (f_lt l (Fin 0)); [| discriminate].
      injection H as <-. right. reflexivity. }
  destruct (String.eqb side "LONG") eqn:E1.
  { apply eqb_side in E1. right.
    destruct (f_lt l (Fin 0)); [| discriminate].
    injection H as <-. split; [left; exact E1 | reflexivity]. }
  destruct (String.eqb side "SHORT") eqn:E2; [| discriminate].
  apply eqb_side in E2. right.
  destruct (f_gt l (Fin 0)); [| discriminate].
  injection H as <-. split; [right; exact E2 | reflexivity].
Qed.

(** X7.  Whatever the indicator values, a signal of either strategy fits the
    side it was asked for: BUY and SELL only come without a position, EXIT
    only for a LONG or a SHORT one, and any other side gives no signal. *)
Theorem signals_fit_the_side :
  forall adx macd side sig,
    check_adx_strategy adx side = Some sig
    \/ check_macd_strategy macd side = inl (Some sig) ->
    (side = "NONE" /\ (action sig = BUY \/ action sig = SELL))
    \/ ((side = "LONG" \/ side = "SHORT") /\ action sig = EXIT).
Proof.
  intros adx macd side sig [H | H].
  - exact (adx_signal_side _ _ _ H).
  - exact (macd_signal_side _ _ _ H).
Qed.

Lemma signals_fit_the_side_witness :
  ("LONG" = "NONE" /\ (EXIT = BUY \/ EXIT = SELL))
  \/ (("LONG" = "LONG" \/ "LONG" = "SHORT") /\ EXIT = EXIT).
Proof.
  exact (signals_fit_the_side
           (mkAdxInfo VNone (VFloat (Fin 15)) (VFloat (Fin 10)))
           (mkMacdInfo VNone VNone VNone) "LONG"
           (mkSignal EXIT (R_adx_up_weak (Fin 15)) None)
           (or_introl eq_refl)).
Defined.

End SignalFacts.

(** ** What the handlers do to rows *)

Module LifecycleFacts.
Import StoreFacts CloseFacts TickFacts ExitFacts OpenFacts FirstTickFacts.

Lemma same_terms_refl p : same_terms p p.
Proof. unfold same_terms. repeat split. Qed.

Lemma same_terms_trans p q r :
  same_terms p q -> same_terms q r -> same_terms p r.
Proof.
  unfold same_terms.
  intros (a1 & a2 & a3 & a4 & a5 & a6 & a7 & a8 & a9)
         (b1 & b2 & b3 & b4 & b5 & b6 & b7 & b8 & b9).
  repeat split; congruence.
Qed.

Lemma row_step_refl p : row_step p p.
Proof. split; [apply same_terms_refl | reflexivity]. Qed.

Lemma row_step_trans p q r : row_step p q -> row_step q r -> row_step p r.
Proof.
  intros [T1 F1] [T2 F2]. split.
  - eapply same_terms_trans; eassumption.
  - intros Hp. pose proof (F1 Hp) as ->. apply F2, Hp.
Qed.

Lemma row_step_set_mtm p v : status p = OPEN -> row_step p (set_mtm v p).
Proof.
  intros Hp. split.
  - unfold same_terms. cbn. repeat split.
  - intros Hn. contradiction.
Qed.

Lemma row_step_set_closed p x t m :
  status p = OPEN -> row_step p (set_closed x t m p).
Proof.
  intros Hp. split.
  - unfold same_terms. cbn. repeat split.
  - intros Hn. contradiction.
Qed.

Lemma table_step_refl t : table_step t t.
Proof. intros i p H. exists p. split; [exact H | apply row_step_refl]. Qed.

Lemma table_step_trans t1 t2 t3 :
  table_step t1 t2 -> table_step t2 t3 -> table_step t1 t3.
Proof.
  intros H1 H2 i p Hp.
  destruct (H1 i p Hp) as (q & Hq & S1).
  destruct (H2 i q Hq) as (r & Hr & S2).
  exists r. split; [exact Hr | eapply row_step_trans; eassumption].
Qed.

Lemma table_step_app (t l : list Position) : table_step t (t ++ l).
Proof.
  intros i p H. exists p. split; [| apply row_step_refl].
  apply lookup_app_l_Some. exact H.
Qed.

Lemma table_step_insert (t : list Position) (i : nat) p q :
  t !! i = Some p -> row_step p q -> table_step t (<[i := q]> t).
Proof.
  intros Hi Hs j r Hj.
  destruct (decide (j = i)) as [-> | Hne].
  - rewrite Hi in Hj. injection Hj as <-.
    exists q. split; [| exact Hs].
    apply list_lookup_insert_eq. eapply lookup_lt_Some, Hi.
  - exists r. split; [| apply row_step_refl].
    rewrite list_lookup_insert_ne by congruence. exact Hj.
Qed.

Lemma write_table_step tok t t' : write tok t t' -> table_step t t'.
Proof.
  intros [p Ht Hs Hc | i p v Hi [_ Ho] | i p x a m Hi [_ Ho]].
  - apply table_step_app.
  - eapply table_step_insert; [exact Hi | apply row_step_set_mtm, Ho].
  - eapply table_step_insert; [exact Hi | apply row_step_set_closed, Ho].
Qed.

Lemma writes_table_step tok t t' : rtc (write tok) t t' -> table_step t t'.
Proof.
  induction 1 as [t | t1 t2 t3 H _ IH].
  - apply table_step_refl.
  - eapply table_step_trans; [eapply write_table_step, H | exact IH].
Qed.

(** A write for one token leaves the rows of the other tokens as they
    are. *)
Lemma write_isolated tok t t' :
  write tok t t' ->
  forall (i : nat) p, t !! i = Some p -> token p <> tok -> t' !! i = Some p.
Proof.
  intros [q Ht Hs Hc | j q v Hj [Hq _] | j q x a m Hj [Hq _]] i p Hi Hne.
  - apply lookup_app_l_Some. exact Hi.
  - rewrite list_lookup_insert_ne; [exact Hi |].
    intros ->. rewrite Hj in Hi. injection Hi as ->. contradiction.
  - rewrite list_lookup_insert_ne; [exact Hi |].
    intros ->. rewrite Hj in Hi. injection Hi as ->. contradiction.
Qed.

Lemma writes_isolated tok t t' :
  rtc (write tok) t t' ->
  forall (i : nat) p, t !! i = Some p -> token p <> tok -> t' !! i = Some p.
Proof.
  induction 1 as [t | t1 t2 t3 H _ IH]; intros i p Hi Hne.
  - exact Hi.
  - apply IH; [| exact Hne]. eapply write_isolated; eassumption.
Qed.

Lemma open_count_cons tok p (t : list Position) :
  open_count tok (p :: t)
  = ((if decide (open_for tok p) then 1 else 0) + open_count tok t)%nat.
Proof.
  unfold open_count. rewrite filter_cons.
  destruct (decide (open_for tok p)); reflexivity.
Qed.

Lemma open_count_insert tok (t : list Position) :
  forall (i : nat) p q,
    t !! i = Some p ->
    (open_count tok (<[i := q]> t)
     + (if decide (open_for tok p) then 1 else 0)
     = open_count tok t + (if decide (open_for tok q) then 1 else 0))%nat.
Proof.
  induction t as [| a t IH]; intros [| i] p q Hi; try discriminate.
  - cbn in Hi. injection Hi as ->.
    change (<[0%nat := q]> (p :: t)) with (q :: t).
    rewrite !open_count_cons. lia.
  - cbn in Hi.
    change (<[S i := q]> (a :: t)) with (a :: <[i := q]> t).
    rewrite !open_count_cons. pose proof (IH i p q Hi). lia.
Qed.

Lemma write_one_open tok t t' :
  write tok t t' ->
  forall tok', (open_count tok' t <= 1)%nat -> (open_count tok' t' <= 1)%nat.
Proof.
  intros [p Ht Hs Hc | i p v Hi Ho | i p x a m Hi Ho] tok' H.
  - rewrite open_count_app, (open_count_cons tok' p []).
    change (open_count tok' []) with 0%nat.
    destruct (decide (open_for tok' p)) as [[Hp _] | Hn].
    + assert (Et : tok' = tok) by congruence. rewrite Et, Hc. lia.
    + lia.
  - pose proof (open_count_insert tok' t i p (set_mtm v p) Hi) as E.
    destruct (decide (open_for tok' p)) as [Hp | Hp];
      destruct (decide (open_for tok' (set_mtm v p))) as [Hq | Hq];
      try lia.
    exfalso. apply Hp. exact Hq.
  - pose proof (open_count_insert tok' t i p (set_closed x a m p) Hi) as E.
    destruct (decide (open_for tok' (set_closed x a m p))) as [[_ Hq] | Hq].
    + discriminate.
    + destruct (decide (open_for tok' p)); lia.
Qed.

Lemma writes_one_open tok t t' :
  rtc (write tok) t t' ->
  forall tok', (open_count tok' t <= 1)%nat -> (open_count tok' t' <= 1)%nat.
Proof.
  induction 1 as [t | t1 t2 t3 H _ IH]; intros tok' Hc.
  - exact Hc.
  - apply IH. eapply write_one_open; eassumption.
Qed.

(** *** The table after each handler *)

Lemma close_position_db_writes st tok x r :
  rtc (write tok) (table st) (table (close_position_db st tok x r).1).
Proof.
  rewrite close_position_db_table.
  destruct (get_open_position_for_token tok (table st)) as [[i p] |] eqn:E.
  - apply get_open_Some in E as [Hi Ho].
    apply rtc_once. apply write_close; assumption.
  - apply rtc_refl.
Qed.

Lemma open_position_db_None st tok side e qty lots st' :
  open_position_db st tok side e qty lots = (st', None) -> st' = st.
Proof.
  unfold open_position_db.
  destruct (symbol_name_for st tok); [| congruence].
  destruct (rounded_levels side e); discriminate.
Qed.

Lemma open_position_db_appends st tok side e qty lots :
  table (open_position_db st tok side e qty lots).1 = table st
  \/ exists p, token p = tok /\ status p = OPEN
               /\ table (open_position_db st tok side e qty lots).1
                  = table st ++ [p].
Proof.
  destruct (open_position_db st tok side e qty lots) as [st' [p |]] eqn:E.
  - right. exists p. apply open_position_db_row in E as [Ht Hp].
    cbn [fst]. split; [rewrite Hp; reflexivity |].
    split; [rewrite Hp; reflexivity | exact Ht].
  - left. apply open_position_db_None in E. subst st'. reflexivity.
Qed.

Lemma handle_strategy_signal_writes st tok sig lc :
  rtc (write tok) (table st) (table (handle_strategy_signal st tok sig lc)).
Proof.
  unfold handle_strategy_signal.
  destruct sig as [sig |]; [| apply rtc_refl].
  destruct (get_open_position_for_token tok (table st)) as [[i p] |] eqn:E.
  - destruct (action sig); try apply rtc_refl.
    pose proof (close_position_db_writes st tok (default fallback_price lc)
                  (Some (reason sig))) as W.
    destruct (close_position_db st tok _ _) as [st' [c |]];
      cbn [fst] in W; exact W.
  - apply get_open_None in E.
    assert (forall side,
      rtc (write tok) (table st)
        (table (let '(st0, position) :=
                  open_position_db st tok side (default fallback_price lc) 50 1
                in match position with
                   | Some _ =>
                       send (MSignalOpened
                               (default tok (token_symbol_map st !! tok)) tok
                               side (default fallback_price lc) 1 50 sig) st0
                   | None => st0
                   end))) as Hopen.
    { intros side.
      destruct (open_position_db st tok side _ 50 1) as [st' [p |]] eqn:Eo.
      - apply open_position_db_row in Eo as [Ht Hp].
        change (table (send _ st')) with (table st'). rewrite Ht.
        apply rtc_once. apply write_open; [| | exact E];
          rewrite Hp; reflexivity.
      - apply open_position_db_None in Eo. subst st'. apply rtc_refl. }
    destruct (action sig); try apply rtc_refl; apply Hopen.
Qed.

Lemma on_data_writes st tick :
  match tick_token tick with
  | Some tok => rtc (write tok) (table st) (table (on_data st tick))
  | None => table (on_data st tick) = table st
  end.
Proof.
  unfold on_data.
  destruct (tick_token tick) as [tok |].
  - destruct (last_traded_price tick) as [[| raw | raw] |];
      try apply rtc_refl.
    all: cbn [table send].
    all: set (ltp := (inject_Z _ / 100)%Q).
    all: destruct (filter_open_first tok (table st)) as [[i p] |] eqn:E;
      [| apply rtc_refl].
    all: destruct (entry_price p) as [entry |]; [| apply rtc_refl].
    all: apply filter_open_first_Some in E as [Hi Ho].
    all: match goal with
         | |- context [on_data_mtm ?s ?t ?sy ?l ?i ?p ?e] =>
             assert (W1 : rtc (write tok) (table st)
                            (table (on_data_mtm s t sy l i p e).1))
         end.
    1, 3: unfold on_data_mtm;
      (destruct (mtm_moved _ _ _ _); [| apply rtc_refl]);
      cbn [fst table set_table send];
      rewrite (alter_set_mtm _ _ _ _ Hi);
      apply rtc_once; apply write_mtm; assumption.
    all: destruct (on_data_mtm _ _ _ _ _ _ _) as [st1 p1]; cbn [fst] in W1.
    all: unfold on_data_exit.
    all: destruct (exit_check ltp entry p1) as [reason should_exit].
    all: destruct should_exit; [| exact W1].
    all: pose proof (close_position_db_writes st1 tok ltp reason) as W2.
    all: destruct (close_position_db st1 tok ltp reason) as [st2 c];
      cbn [fst] in W2.
    all: change (table (send _ st2)) with (table st2).
    all: transitivity (table st1); assumption.
  - destruct (last_traded_price tick) as [[| raw | raw] |]; reflexivity.
Qed.

End LifecycleFacts.

(** ** Historical data with strategies *)

Module HistoricalFacts.
Import StoreFacts CloseFacts TickFacts ExitFacts OpenFacts FirstTickFacts.
Import RsiFacts MacdFacts SignalFacts LifecycleFacts.

(** [handle_get_historical] asks the strategies with the side ["OPEN"] when
    the token has a position; neither strategy has a rule for that side. *)
Lemma check_adx_open info : check_adx_strategy info "OPEN" = None.
Proof.
  unfold check_adx_strategy.
  destruct (di_plus info), (di_minus info); reflexivity.
Qed.

Lemma check_macd_open info : check_macd_strategy info "OPEN" = inl None.
Proof. unfold check_macd_strategy. destruct (line info); reflexivity. Qed.

(** The MACD line of the response is a number or absent, so the MACD
    strategy does not raise on it. *)
Lemma hist_macd_no_raise adx_core tok interval candles side :
  exists s,
    check_macd_strategy (h_macd (hist_response adx_core tok interval candles))
      side = inl s.
Proof.
  unfold hist_response.
  destruct (calculate_macd _ 12 26 9) as [[l s] h].
  destruct (calculate_adx _ _ _ _ _) as [[a dp] dm].
  cbn [h_macd]. unfold check_macd_strategy. cbn [line].
  destruct l; eexists; reflexivity.
Qed.


Lemma no_open_after_append tok (t : list Position) p :
  open_for tok p -> get_open_position_for_token tok (t ++ [p]) <> None.
Proof.
  intros Hp Hn. apply get_open_None in Hn.
  rewrite open_count_app, (open_count_cons tok p []) in Hn.
  destruct (decide (open_for tok p)); [lia | contradiction].
Qed.

(** An entry signal for a token that has an open position changes
    nothing. *)
Lemma entry_signal_when_open st tok sig lc :
  get_open_position_for_token tok (table st) <> None ->
  action sig = BUY \/ action sig = SELL ->
  handle_strategy_signal st tok (Some sig) lc = st.
Proof.
  intros Ho Ha. unfold handle_strategy_signal.
  destruct (get_open_position_for_token tok (table st)) as [[i p] |];
    [| contradiction].
  destruct Ha as [-> | ->]; reflexivity.
Qed.

(** An entry signal for a token without a symbol name: [open_position_db]
    fails and nothing is changed. *)
Lemma entry_signal_unnamed st tok sig lc :
  symbol_name_for st tok = None ->
  action sig = BUY \/ action sig = SELL ->
  handle_strategy_signal st tok (Some sig) lc = st.
Proof.
  intros Hn Ha. unfold handle_strategy_signal, open_position_db.
  rewrite Hn.
  destruct (get_open_position_for_token tok (table st)) as [[i p] |];
    destruct Ha as [-> | ->]; reflexivity.
Qed.

(** An entry signal for a token without a position and with a symbol
    name stores one open row. *)
Lemma entry_signal_opens st tok sig lc name :
  get_open_position_for_token tok (table st) = None ->
  symbol_name_for st tok = Some name ->
  action sig = BUY \/ action sig = SELL ->
  let st' := handle_strategy_signal st tok (Some sig) lc in
  exists p,
    table st' = table st ++ [p]
    /\ open_for tok p
    /\ entry_price p = Some (default fallback_price lc)
    /\ quantity p = 50%nat /\ lots p = 1%nat
    /\ close_calls st' = close_calls st.
Proof.
  intros Ho Hn Ha. cbn zeta.
  unfold handle_strategy_signal, open_position_db.
  rewrite Ho, Hn.
  destruct Ha as [-> | ->]; cbn -[py_round];
    eexists; (split; [reflexivity |]); repeat split.
Qed.

(** The loop over the two signals acts on the first one only. *)
Lemma forward_signals_first st tok a m lc :
  (get_open_position_for_token tok (table st) <> None -> a = None /\ m = None) ->
  (forall s, a = Some s -> action s = BUY \/ action s = SELL) ->
  (forall s, m = Some s -> action s = BUY \/ action s = SELL) ->
  forward_signals st tok [a; m] lc
  = match (match a with Some s => Some s | None => m end) with
    | Some s => handle_strategy_signal st tok (Some s) lc
    | None => st
    end.
Proof.
  intros Hopen Ha Hm. unfold forward_signals.
  destruct a as [s1 |], m as [s2 |]; cbn [omap list_omap id fold_left];
    cbv beta; try reflexivity.
  destruct (get_open_position_for_token tok (table st)) as [[i p] |] eqn:Eo.
  { destruct Hopen as [? _]; congruence. }
  pose proof (Ha s1 eq_refl) as A1. pose proof (Hm s2 eq_refl) as A2.
  destruct (symbol_name_for st tok) as [name |] eqn:En.
  - destruct (entry_signal_opens st tok s1 lc name Eo En A1)
      as (p & Ht & Hp & _).
    apply entry_signal_when_open; [| exact A2].
    rewrite Ht. apply no_open_after_append, Hp.
  - rewrite (entry_signal_unnamed st tok s1 lc En A1).
    apply entry_signal_unnamed; assumption.
Qed.

Lemma fits_none sig : fits "NONE" sig -> action sig = BUY \/ action sig = SELL.
Proof.
  intros [[_ H] | [[H | H] _]]; [exact H | discriminate | discriminate].
Qed.

(** The handler on a request it accepts. *)
Lemma handle_get_historical_accepted adx_core st tok ex iv from to api c data :
  truthy tok = true -> truthy from = true -> truthy to = true ->
  smart_api st = Some api ->
  let params := mkHistParams (Some tok) ex iv (Some from) (Some to) in
  let r := hist_response adx_core tok (default "FIFTEEN_MINUTE" iv)
             (c :: data) in
  let side :=
    match get_open_position_for_token tok (table st) with
    | Some _ => "OPEN"
    | None => "NONE"
    end in
  let first :=
    match check_adx_strategy (h_adx r) side with
    | Some s => Some s
    | None =>
        match check_macd_strategy (h_macd r) side with
        | inl s => s
        | inr _ => None
        end
    end in
  handle_get_historical adx_core st params (Reply true (c :: data))
  = (match first with
     | Some s => handle_strategy_signal st tok (Some s) (h_latest_close r)
     | None => st
     end, Some r).
Proof.
  intros Ht Hf Hto Hapi. cbn zeta.
  unfold handle_get_historical.
  cbn [p_symboltoken p_from_date p_to_date p_interval present].
  rewrite Ht, Hf, Hto, Hapi. cbn [andb negb length bool_decide].
  change (bool_decide (S (length data) = 0%nat)) with false.
  cbn [andb negb].
  set (r := hist_response adx_core tok (default "FIFTEEN_MINUTE" iv)
              (c :: data)).
  set (side := match get_open_position_for_token tok (table st) with
               | Some _ => "OPEN"
               | None => "NONE"
               end).
  destruct (hist_macd_no_raise adx_core tok (default "FIFTEEN_MINUTE" iv)
              (c :: data) side) as [m Hm].
  fold r in Hm. rewrite Hm. f_equal.
  rewrite (forward_signals_first st tok _ m _); [reflexivity | | |].
  - intros Ho. unfold side in *.
    destruct (get_open_position_for_token tok (table st)); [| contradiction].
    rewrite check_adx_open. rewrite check_macd_open in Hm.
    split; [reflexivity | congruence].
  - intros s Hs. apply adx_signal_side in Hs. unfold side in Hs.
    destruct (get_open_position_for_token tok (table st)).
    + destruct Hs as [[H _] | [[H | H] _]]; discriminate.
    + apply fits_none, Hs.
  - intros s Hs. subst m. apply macd_signal_side in Hm. unfold side in Hm.
    destruct (get_open_position_for_token tok (table st)).
    + destruct Hm as [[H _] | [[H | H] _]]; discriminate.
    + apply fits_none, Hm.
Qed.

Lemma present_Some s : present s = true -> exists v, s = Some v /\ truthy v = true.
Proof. destruct s as [v |]; [| discriminate]. intros H. exists v. auto. Qed.

(** When no response is built, one error message is all that happens. *)
Lemma handle_get_historical_refused adx_core st params reply :
  (handle_get_historical adx_core st params reply).2 = None ->
  exists text,
    handle_get_historical adx_core st params reply
    = (send (MError text) st, None).
Proof.
  unfold handle_get_historical.
  destruct (p_symboltoken params) as [tok |]; [| eexists; reflexivity].
  destruct (present (Some tok) && present (p_from_date params)
            && present (p_to_date params)); [| eexists; reflexivity].
  destruct (smart_api st); [| eexists; reflexivity].
  destruct reply as [| | status_true data]; try (eexists; reflexivity).
  destruct (status_true && negb (bool_decide (length data = 0%nat)));
    [| eexists; reflexivity].
  destruct (check_macd_strategy _ _); [discriminate |].
  eexists; reflexivity.
Qed.

(** A response is only built on the path of [handle_get_historical_accepted]. *)
Lemma handle_get_historical_response adx_core st params reply r :
  (handle_get_historical adx_core st params reply).2 = Some r ->
  exists tok ex iv from to api c data,
    params = mkHistParams (Some tok) ex iv (Some from) (Some to)
    /\ truthy tok = true /\ truthy from = true /\ truthy to = true
    /\ smart_api st = Some api /\ reply = Reply true (c :: data).
Proof.
  unfold handle_get_historical.
  destruct params as [tok ex iv from to]. cbn [p_symboltoken p_from_date
    p_to_date p_interval].
  destruct tok as [tok |]; [| discriminate].
  destruct (present (Some tok)) eqn:E1; [| discriminate].
  destruct (present from) eqn:E2; [| discriminate].
  destruct (present to) eqn:E3; [| discriminate].
  cbn [andb].
  destruct (smart_api st) as [api |]; [| discriminate].
  destruct reply as [| | status_true data]; try discriminate.
  destruct status_true; [| discriminate].
  destruct data as [| c data]; [discriminate |].
  intros _.
  apply present_Some in E2 as (f & -> & Hf).
  apply present_Some in E3 as (t & -> & Ht).
  exists tok, ex, iv, f, t, api, c, data. repeat split; assumption.
Qed.




(** The indicators of the response by number of candles. *)
Lemma hist_response_fields adx_core tok interval candles :
  let r := hist_response adx_core tok interval candles in
  h_num_candles r = length candles
  /\ (h_rsi_14 r = VStr "Not enough data" <-> (length candles < 15)%nat)
  /\ (line (h_macd r) = VNone <-> (length candles < 26)%nat)
  /\ (signal (h_macd r) = VNone <-> (length candles < 26)%nat)
  /\ (histogram (h_macd r) = VNone <-> (length candles < 26)%nat)
  /\ (adx (h_adx r) = VStr "Not enough data" <-> (length candles < 28)%nat)
  /\ (di_plus (h_adx r) = VNone <-> (length candles < 28)%nat)
  /\ (di_minus (h_adx r) = VNone <-> (length candles < 28)%nat).
Proof.
  cbn zeta. unfold hist_response.
  assert (Hrsi : calculate_rsi (c_close <$> candles) 14 = None
                 <-> (length candles < 15)%nat).
  { rewrite calculate_rsi_as_coded by lia. unfold rsi_as_coded.
    rewrite length_fmap.
    destruct (length candles <? 14 + 1)%nat eqn:E.
    - apply Nat.ltb_lt in E. split; [lia | reflexivity].
    - apply Nat.ltb_ge in E. destruct (fold_left _ _ _).
      split; [discriminate | lia]. }
  assert (Hmacd :
    (length candles < 26)%nat
    /\ calculate_macd (c_close <$> candles) 12 26 9 = (None, None, None)
    \/ (26 <= length candles)%nat
       /\ exists l s h, calculate_macd (c_close <$> candles) 12 26 9
                        = (Some l, Some s, Some h)).
  { destruct (le_lt_dec 26 (length candles)) as [H26 | H26].
    - right. split; [exact H26 |].
      destruct (macd_defined (c_close <$> candles) 12 26 9 ltac:(lia)
                  ltac:(rewrite length_fmap; exact H26))
        as (l & s & h & E & _). eauto.
    - left. split; [exact H26 |].
      unfold calculate_macd. rewrite length_fmap.
      apply Nat.ltb_lt in H26. rewrite H26. reflexivity. }
  assert (Hadx :
    (length candles < 28)%nat
    /\ calculate_adx adx_core (c_high <$> candles) (c_low <$> candles)
         (c_close <$> candles) 14 = (None, None, None)
    \/ (28 <= length candles)%nat
       /\ exists a dp dm,
            calculate_adx adx_core (c_high <$> candles) (c_low <$> candles)
              (c_close <$> candles) 14 = (Some a, Some dp, Some dm)).
  { unfold calculate_adx. rewrite length_fmap.
    destruct (length candles <? 14 * 2)%nat eqn:E28.
    - apply Nat.ltb_lt in E28. left. split; [lia | reflexivity].
    - apply Nat.ltb_ge in E28. right. split; [lia |].
      destruct (adx_core _ _ _ _) as [[a dp] dm]. eauto. }
  destruct Hmacd as [[H26 ->] | [H26 (l & s & h & ->)]];
    destruct Hadx as [[H28 ->] | [H28 (a & dp & dm & ->)]];
    cbn [h_num_candles h_rsi_14 h_macd h_adx line signal histogram adx
         di_plus di_minus];
    (split; [reflexivity |]);
    (split; [destruct (calculate_rsi (c_close <$> candles) 14);
             (split; [intros X; first [discriminate | apply Hrsi; reflexivity]
                     | intros X; apply Hrsi in X; first [discriminate | reflexivity]])
            |]);
    repeat split; intros X;
      first [lia | discriminate | reflexivity
            | destruct a; discriminate | destruct dp; discriminate
            | destruct dm; discriminate].
Qed.

(** X8.  The response of [handle_get_historical] reports the RSI from 15
    candles on, the three MACD values from 26 on and the three ADX values from
    28 on; below, the RSI and the ADX read "Not enough data" and the other
    values are absent. *)
Theorem historical_indicator_thresholds :
  forall adx_core tok interval candles,
    let r := hist_response adx_core tok interval candles in
    let n := length candles in
    h_num_candles r = n
    /\ (h_rsi_14 r = VStr "Not enough data" <-> (n < 15)%nat)
    /\ ((exists v, h_rsi_14 r = VFloat v) <-> (15 <= n)%nat)
    /\ (line (h_macd r) = VNone /\ signal (h_macd r) = VNone
        /\ histogram (h_macd r) = VNone <-> (n < 26)%nat)
    /\ (adx (h_adx r) = VStr "Not enough data" /\ di_plus (h_adx r) = VNone
        /\ di_minus (h_adx r) = VNone <-> (n < 28)%nat).
Proof.
  intros adx_core tok interval candles. cbn zeta.
  destruct (hist_response_fields adx_core tok interval candles)
    as (Hn & Hr & Hl & Hs & Hh & Ha & Hp & Hm).
  split; [exact Hn |]. split; [exact Hr |]. split; [| split].
  - split.
    + intros [v Hv].
      destruct (le_lt_dec 15 (length candles)) as [H | H]; [exact H |].
      apply Hr in H. congruence.
    + intros H.
      assert (Hne : h_rsi_14 (hist_response adx_core tok interval candles)
                    <> VStr "Not enough data")
        by (intros X; apply Hr in X; lia).
      revert Hne. unfold hist_response.
      destruct (calculate_macd _ 12 26 9) as [[l s] h].
      destruct (calculate_adx _ _ _ _ _) as [[a dp] dm].
      cbn [h_rsi_14].
      destruct (calculate_rsi _ 14); [eauto | congruence].
  - split.
    + intros (H & _). apply Hl, H.
    + intros H. split; [apply Hl, H |]. split; [apply Hs, H | apply Hh, H].
  - split.
    + intros (H & _). apply Ha, H.
    + intros H. split; [apply Ha, H |]. split; [apply Hp, H | apply Hm, H].
Qed.

(** X9.  On a request it accepts, [handle_get_historical] does nothing to a
    token that has an open position: it asks the strategies with the side
    ["OPEN"], for which neither has a rule, so no exit can come from it.  For
    a token without a position it acts on the ADX signal when there is one,
    and on the MACD signal only when ADX gave none. *)
Theorem historical_adx_before_macd :
  forall adx_core st tok ex iv from to api c data,
    truthy tok = true -> truthy from = true -> truthy to = true ->
    smart_api st = Some api ->
    let params := mkHistParams (Some tok) ex iv (Some from) (Some to) in
    let r := hist_response adx_core tok (default "FIFTEEN_MINUTE" iv)
               (c :: data) in
    let res :=
      handle_get_historical adx_core st params (Reply true (c :: data)) in
    res.2 = Some r
    /\ (get_open_position_for_token tok (table st) <> None -> res.1 = st)
    /\ (get_open_position_for_token tok (table st) = None ->
        match check_adx_strategy (h_adx r) "NONE",
              check_macd_strategy (h_macd r) "NONE" with
        | Some s, _ | None, inl (Some s) =>
            res.1 = handle_strategy_signal st tok (Some s) (h_latest_close r)
        | None, _ => res.1 = st
        end).
Proof.
  intros adx_core st tok ex iv from to api c data Ht Hf Hto Hapi.
  cbn zeta.
  rewrite (handle_get_historical_accepted adx_core st tok ex iv from to api
             c data Ht Hf Hto Hapi).
  cbn [fst snd]. split; [reflexivity |]. split.
  - intros Ho.
    destruct (get_open_position_for_token tok (table st)); [| contradiction].
    rewrite check_adx_open, check_macd_open. reflexivity.
  - intros ->.
    destruct (check_adx_strategy _ "NONE") as [s1 |]; [reflexivity |].
    destruct (check_macd_strategy _ "NONE") as [[s2 |] | []]; reflexivity.
Qed.

Lemma historical_adx_before_macd_witness :
  let c := mkCandle "" 100 101 99 100 1000 in
  let data := tail rising_candles in
  let r := hist_response adx_uptrend "3045" "FIFTEEN_MINUTE" (c :: data) in
  let res :=
    handle_get_historical adx_uptrend session hist_request
      (Reply true (c :: data)) in
  res.2 = Some r
  /\ (get_open_position_for_token "3045" (table session) <> None ->
      res.1 = session)
  /\ (get_open_position_for_token "3045" (table session) = None ->
      match check_adx_strategy (h_adx r) "NONE",
            check_macd_strategy (h_macd r) "NONE" with
      | Some s, _ | None, inl (Some s) =>
          res.1 = handle_strategy_signal session "3045" (Some s)
                    (h_latest_close r)
      | None, _ => res.1 = session
      end).
Proof.
  exact (historical_adx_before_macd adx_uptrend session "3045" (Some "NSE")
           (Some "FIFTEEN_MINUTE") "2026-01-01 09:15" "2026-01-10 15:30"
           no_candles (mkCandle "" 100 101 99 100 1000) (tail rising_candles)
           eq_refl eq_refl eq_refl eq_refl).
Defined.


(** X11.  [handle_get_historical] builds its response exactly when
    [symboltoken], [from_date] and [to_date] are given and not empty, the
    broker session exists and the broker's reply has a true status and at
    least one candle; in every other case it sends one error message and
    changes nothing else. *)
Theorem historical_response_iff :
  forall adx_core st params reply,
    let res := handle_get_historical adx_core st params reply in
    (is_Some res.2 <->
       present (p_symboltoken params) = true
       /\ present (p_from_date params) = true
       /\ present (p_to_date params) = true
       /\ is_Some (smart_api st)
       /\ exists c data, reply = Reply true (c :: data))
    /\ (res.2 = None -> exists text, res.1 = send (MError text) st).
Proof.
  intros adx_core st params reply. cbn zeta. split.
  - split.
    + intros [r Hr].
      apply handle_get_historical_response in Hr
        as (tok & ex & iv & from & to & api & c & data
            & -> & Ht & Hf & Hto & Hapi & ->).
      cbn [p_symboltoken p_from_date p_to_date present].
      repeat (split; [assumption |]).
      split; [rewrite Hapi; eauto | eauto].
    + intros (H1 & H2 & H3 & [api Hapi] & c & data & ->).
      apply present_Some in H1 as (tok & E1 & Ht).
      apply present_Some in H2 as (from & E2 & Hf).
      apply present_Some in H3 as (to & E3 & Hto).
      destruct params as [tok' ex iv from' to'].
      cbn [p_symboltoken p_from_date p_to_date] in E1, E2, E3. subst.
      rewrite (handle_get_historical_accepted adx_core st tok ex iv from to
                 api c data Ht Hf Hto Hapi).
      cbn [snd]. eauto.
  - intros H. apply handle_get_historical_refused in H as [text ->].
    exists text. reflexivity.
Qed.

(** X12.  With fewer than 26 candles an accepted request opens nothing: the
    MACD line and both directional indicators are absent, so neither strategy
    gives a signal and the state is left as it was. *)
Theorem historical_needs_26_candles :
  forall adx_core st tok ex iv from to api c data,
    truthy tok = true -> truthy from = true -> truthy to = true ->
    smart_api st = Some api ->
    (length (c :: data) < 26)%nat ->
    let params := mkHistParams (Some tok) ex iv (Some from) (Some to) in
    handle_get_historical adx_core st params (Reply true (c :: data))
    = (st, Some (hist_response adx_core tok (default "FIFTEEN_MINUTE" iv)
                   (c :: data))).
Proof.
  intros adx_core st tok ex iv from to api c data Ht Hf Hto Hapi Hlen.
  cbn zeta.
  rewrite (handle_get_historical_accepted adx_core st tok ex iv from to api
             c data Ht Hf Hto Hapi).
  destruct (hist_response_fields adx_core tok (default "FIFTEEN_MINUTE" iv)
              (c :: data)) as (_ & _ & Hl & _ & _ & _ & Hp & _).
  cbn zeta in Hl, Hp.
  assert (El : line (h_macd (hist_response adx_core tok
                               (default "FIFTEEN_MINUTE" iv) (c :: data)))
               = VNone) by (apply Hl; exact Hlen).
  assert (Ep : di_plus (h_adx (hist_response adx_core tok
                                 (default "FIFTEEN_MINUTE" iv) (c :: data)))
               = VNone) by (apply Hp; lia).
  f_equal.
  unfold check_adx_strategy, check_macd_strategy. rewrite El, Ep.
  reflexivity.
Qed.

Lemma historical_needs_26_candles_witness :
  let c := mkCandle "" 100 101 99 100 1000 in
  let data := take 19 (tail rising_candles) in
  handle_get_historical adx_uptrend session hist_request
    (Reply true (c :: data))
  = (session,
     Some (hist_response adx_uptrend "3045" "FIFTEEN_MINUTE" (c :: data))).
Proof.
  exact (historical_needs_26_candles adx_uptrend session "3045" (Some "NSE")
           (Some "FIFTEEN_MINUTE") "2026-01-01 09:15" "2026-01-10 15:30"
           no_candles (mkCandle "" 100 101 99 100 1000)
           (take 19 (tail rising_candles))
           eq_refl eq_refl eq_refl eq_refl ltac:(vm_compute; lia)).
Defined.

End HistoricalFacts.

(** ** Unsubscribing *)

Module UnsubscribeFacts.
Import SubscribeFacts.

Lemma lookup_complete ts exchange instruments :
  complete instruments ->
  forall key, lookup_instrument ts exchange instruments <> KeyError key.
Proof.
  intros Hc key. induction Hc as [| instr rest (Ht & Hs & Hx) _ IH];
    [discriminate |].
  cbn [lookup_instrument].
  destruct Hs as [s ->], Hx as [seg ->], Ht as [t ->].
  destruct (String.eqb s ts); [| exact IH].
  destruct (String.eqb seg exchange); [discriminate | exact IH].
Qed.

Lemma unsubscribe_scan_inl st instruments exchange et syms :
  forall acc tokens,
    unsubscribe_scan st instruments exchange et syms acc = inl tokens ->
    tokens = acc ++ to_drop st instruments exchange et syms.
Proof.
  unfold to_drop.
  induction syms as [| ts rest IH]; intros acc tokens H; cbn in H.
  - injection H as <-. cbn. rewrite app_nil_r. reflexivity.
  - cbn [omap list_omap]. unfold found at 1.
    destruct (lookup_instrument ts exchange instruments) as [t | | key];
      [| exact (IH _ _ H) | discriminate].
    rewrite filter_cons.
    destruct (subscribed_under st et t) eqn:E.
    + rewrite decide_True by reflexivity.
      rewrite (IH _ _ H), <- app_assoc. reflexivity.
    + rewrite decide_False by discriminate. exact (IH _ _ H).
Qed.

Lemma unsubscribe_scan_complete st instruments exchange et syms :
  complete instruments ->
  forall acc,
    unsubscribe_scan st instruments exchange et syms acc
    = inl (acc ++ to_drop st instruments exchange et syms).
Proof.
  intros Hc. induction syms as [| ts rest IH]; intros acc.
  - unfold to_drop. cbn. rewrite app_nil_r. reflexivity.
  - destruct (unsubscribe_scan st instruments exchange et (ts :: rest) acc)
      as [tokens | key] eqn:E.
    + f_equal. eapply unsubscribe_scan_inl, E.
    + exfalso. cbn in E.
      pose proof (lookup_complete ts exchange instruments Hc) as Hk.
      destruct (lookup_instrument ts exchange instruments) as [t | | k];
        [| | exact (Hk k eq_refl)]; rewrite IH in E; discriminate.
Qed.

Lemma elem_of_to_drop st instruments exchange et syms t :
  t ∈ to_drop st instruments exchange et syms
  <-> (exists ts, ts ∈ syms /\ found instruments exchange ts = Some t)
      /\ subscribed_under st et t = true.
Proof.
  unfold to_drop. rewrite list_elem_of_filter, list_elem_of_omap. tauto.
Qed.

Lemma subscribed_under_true st et t :
  subscribed_under st et t = true
  <-> exists s, subscribed_tokens st !! et = Some s /\ t ∈ s.
Proof.
  unfold subscribed_under.
  destruct (subscribed_tokens st !! et) as [s |].
  - rewrite bool_decide_eq_true. split; [eauto |].
    intros (s' & E & H). injection E as <-. exact H.
  - split; [discriminate | intros (s & E & _); discriminate].
Qed.

Lemma fold_delete_lookup (tokens : list string) :
  forall (m : gmap string string) t,
    fold_left (fun m token => delete token m) tokens m !! t
    = if bool_decide (t ∈ tokens) then None else m !! t.
Proof.
  induction tokens as [| a rest IH]; intros m t; cbn [fold_left].
  - rewrite bool_decide_eq_false_2 by apply not_elem_of_nil. reflexivity.
  - rewrite IH.
    destruct (bool_decide (t ∈ rest)) eqn:E.
    + apply bool_decide_eq_true in E.
      rewrite bool_decide_eq_true_2 by (right; exact E). reflexivity.
    + apply bool_decide_eq_false in E.
      destruct (decide (t = a)) as [-> | Hne].
      * rewrite bool_decide_eq_true_2 by left. apply lookup_delete_eq.
      * rewrite bool_decide_eq_false_2
          by (intros X; apply elem_of_cons in X as [? | ?]; contradiction).
        apply lookup_delete_ne. congruence.
Qed.

(** The state a successful call leaves. *)
Lemma handle_unsubscribe_done st instr0 instrs syms exchange :
  instrument_list st = Some (instr0 :: instrs) ->
  complete (instr0 :: instrs) ->
  let et := default 1%Z (EXCHANGE_MAP !! exchange) in
  let tokens := to_drop st (instr0 :: instrs) exchange et syms in
  tokens <> [] ->
  handle_unsubscribe st None syms exchange
  = mkOutcome
      (with_registry st
         (if decide (default ∅ (subscribed_tokens st !! et)
                     ∖ list_to_set tokens = (∅ : gset string))
          then delete et (subscribed_tokens st)
          else <[et := default ∅ (subscribed_tokens st !! et)
                       ∖ list_to_set tokens]> (subscribed_tokens st))
         (fold_left (fun m token => delete token m) tokens
                    (token_symbol_map st)))
      (Some (et, tokens)) None (Some syms).
Proof.
  intros Hil Hc et tokens Hne. unfold handle_unsubscribe.
  rewrite Hil. fold et.
  rewrite (unsubscribe_scan_complete st _ exchange et syms Hc []).
  cbn [app]. fold tokens.
  destruct tokens as [| t0 rest]; [contradiction | reflexivity].
Qed.

Lemma subscribed_after st et (tokens : list string) et' t :
  let remaining :=
    default ∅ (subscribed_tokens st !! et) ∖ list_to_set tokens in
  let subscribed :=
    if decide (remaining = (∅ : gset string))
    then delete et (subscribed_tokens st)
    else <[et := remaining]> (subscribed_tokens st) in
  (exists s, subscribed !! et' = Some s /\ t ∈ s)
  <-> (exists s, subscribed_tokens st !! et' = Some s /\ t ∈ s)
      /\ ~ (et' = et /\ t ∈ tokens).
Proof.
  cbn zeta.
  set (remaining := default ∅ (subscribed_tokens st !! et)
                    ∖ list_to_set tokens).
  destruct (decide (et' = et)) as [-> | Hne].
  - destruct (decide (remaining = ∅)) as [He | He].
    + rewrite lookup_delete_eq. split.
      * intros (s & E & _). discriminate.
      * intros [(s & E & Hs) Hn]. exfalso.
        assert (Hin : t ∈ remaining);
          [| rewrite He in Hin; exact (not_elem_of_empty t Hin)].
        unfold remaining. rewrite E. cbn.
        apply elem_of_difference. split; [exact Hs |].
        rewrite elem_of_list_to_set. intros X. apply Hn. auto.
    + rewrite lookup_insert_eq. split.
      * intros (s & E & Hs). injection E as <-.
        unfold remaining in Hs. apply elem_of_difference in Hs as [H1 H2].
        rewrite elem_of_list_to_set in H2.
        destruct (subscribed_tokens st !! et) as [s |]; cbn in H1.
        -- split; [eauto | tauto].
        -- exfalso. exact (not_elem_of_empty t H1).
      * intros [(s & E & Hs) Hn]. exists remaining. split; [reflexivity |].
        unfold remaining. rewrite E. cbn.
        apply elem_of_difference. split; [exact Hs |].
        rewrite elem_of_list_to_set. intros X. apply Hn. auto.
  - assert (E : (if decide (remaining = ∅)
                 then delete et (subscribed_tokens st)
                 else <[et := remaining]> (subscribed_tokens st)) !! et'
                = subscribed_tokens st !! et').
    { destruct (decide (remaining = ∅)).
      - apply lookup_delete_ne. congruence.
      - apply lookup_insert_ne. congruence. }
    rewrite E. split.
    + intros H. split; [exact H | tauto].
    + tauto.
Qed.

Lemma no_empty_after st et (tokens : list string) :
  no_empty_sets st ->
  let remaining :=
    default ∅ (subscribed_tokens st !! et) ∖ list_to_set tokens in
  forall et' s,
    (if decide (remaining = (∅ : gset string))
     then delete et (subscribed_tokens st)
     else <[et := remaining]> (subscribed_tokens st)) !! et' = Some s ->
    s <> ∅.
Proof.
  intros Hinv remaining et' s.
  destruct (decide (remaining = ∅)) as [He | He].
  - destruct (decide (et' = et)) as [-> | Hne].
    + rewrite lookup_delete_eq. discriminate.
    + rewrite lookup_delete_ne by congruence. apply Hinv.
  - destruct (decide (et' = et)) as [-> | Hne].
    + rewrite lookup_insert_eq. intros E. injection E as <-. exact He.
    + rewrite lookup_insert_ne by congruence. apply Hinv.
Qed.

(** X13.  A successful unsubscribe (complete instrument list, feed accepting)
    removes exactly the requested tokens that were subscribed under the
    exchange type of the request: they are asked of the feed in one request,
    leave the registry and lose their symbol names, and no exchange type is
    left with an empty set.  The call answers with the ["unsubscribed"]
    message for the requested symbols ([u_reply]) and sends no message
    other than that answer ([sent], which holds the other messages, is as
    before); the list of monitored tokens and the rows are untouched. *)
Theorem handle_unsubscribe_removes :
  forall st instr0 instrs syms exchange,
    instrument_list st = Some (instr0 :: instrs) ->
    complete (instr0 :: instrs) ->
    let et := default 1%Z (EXCHANGE_MAP !! exchange) in
    let tokens := to_drop st (instr0 :: instrs) exchange et syms in
    tokens <> [] ->
    let o := handle_unsubscribe st None syms exchange in
    u_raised o = None
    /\ u_request o = Some (et, tokens)
    /\ u_reply o = Some syms
    /\ (forall et' t,
          subscribed_under (u_state o) et' t = true
          <-> subscribed_under st et' t = true /\ ~ (et' = et /\ t ∈ tokens))
    /\ (no_empty_sets st -> no_empty_sets (u_state o))
    /\ (forall t,
          token_symbol_map (u_state o) !! t
          = if bool_decide (t ∈ tokens) then None
            else token_symbol_map st !! t)
    /\ monitor_symbols (u_state o) = monitor_symbols st
    /\ sent (u_state o) = sent st
    /\ table (u_state o) = table st.
Proof.
  intros st instr0 instrs syms exchange Hil Hc et tokens Hne. cbn zeta.
  rewrite (handle_unsubscribe_done st instr0 instrs syms exchange Hil Hc Hne).
  fold et. fold tokens.
  cbn [u_raised u_request u_reply u_state with_registry subscribed_tokens
       token_symbol_map monitor_symbols sent table].
  split; [reflexivity |]. split; [reflexivity |]. split; [reflexivity |].
  split; [| split; [| split; [| split; [| split]]]]; try reflexivity.
  - intros et' t. rewrite !subscribed_under_true.
    cbn [subscribed_tokens]. apply subscribed_after.
  - intros Hinv et' s. cbn [subscribed_tokens].
    apply (no_empty_after st et tokens Hinv).
  - intros t. apply fold_delete_lookup.
Qed.

Lemma complete_instruments : complete instruments.
Proof. unfold complete, instruments. repeat constructor; eauto. Qed.

Lemma handle_unsubscribe_removes_witness :
  let st := subscribed_nse in
  let o := handle_unsubscribe st None ["SBIN-EQ"] "NSE" in
  u_raised o = None
  /\ u_request o = Some (1%Z, to_drop st instruments "NSE" 1 ["SBIN-EQ"])
  /\ u_reply o = Some ["SBIN-EQ"]
  /\ (forall et' t,
        subscribed_under (u_state o) et' t = true
        <-> subscribed_under st et' t = true
            /\ ~ (et' = 1%Z
                  /\ t ∈ to_drop st instruments "NSE" 1 ["SBIN-EQ"]))
  /\ (no_empty_sets st -> no_empty_sets (u_state o))
  /\ (forall t,
        token_symbol_map (u_state o) !! t
        = if bool_decide (t ∈ to_drop st instruments "NSE" 1 ["SBIN-EQ"])
          then None else token_symbol_map st !! t)
  /\ monitor_symbols (u_state o) = monitor_symbols st
  /\ sent (u_state o) = sent st
  /\ table (u_state o) = table st.
Proof.
  refine (handle_unsubscribe_removes subscribed_nse
            (mkInstrument (Some "3045") (Some "USDINR25NOVFUT") (Some "CDS"))
            [mkInstrument (Some "3045") (Some "SBIN-EQ") (Some "NSE");
             mkInstrument (Some "2885") (Some "RELIANCE-EQ") (Some "NSE")]
            ["SBIN-EQ"] "NSE" _ complete_instruments _).
  - vm_compute. reflexivity.
  - vm_compute. discriminate.
Defined.

(** X14.  With a complete instrument list, [handle_unsubscribe] answers
    exactly when some requested token is subscribed and the feed accepts the
    request.  When none is subscribed it returns without a message and without
    a request on the feed; when the feed raises, the registry is left as it
    was and [receive] sends the text of the exception. *)
Theorem unsubscribe_reply_iff :
  forall st feed_error instr0 instrs syms exchange,
    instrument_list st = Some (instr0 :: instrs) ->
    complete (instr0 :: instrs) ->
    let et := default 1%Z (EXCHANGE_MAP !! exchange) in
    let tokens := to_drop st (instr0 :: instrs) exchange et syms in
    let o := handle_unsubscribe st feed_error syms exchange in
    (is_Some (u_reply o) <-> tokens <> [] /\ feed_error = None)
    /\ (tokens = [] ->
        o = mkOutcome st None None None
        /\ receive_unsubscribe st feed_error syms exchange = st)
    /\ (forall text,
          tokens <> [] -> feed_error = Some text ->
          o = mkOutcome st (Some (et, tokens)) (Some text) None
          /\ receive_unsubscribe st feed_error syms exchange
             = send (MError text) st).
Proof.
  intros st feed_error instr0 instrs syms exchange Hil Hc et tokens.
  cbn zeta. unfold receive_unsubscribe, handle_unsubscribe.
  rewrite Hil. fold et.
  rewrite (unsubscribe_scan_complete st _ exchange et syms Hc []).
  cbn [app]. fold tokens.
  destruct tokens as [| t0 rest].
  - cbn. split; [| split].
    + split; [intros [x Hx]; discriminate | intros [H _]; contradiction].
    + intros _. split; reflexivity.
    + intros text H. contradiction.
  - destruct feed_error as [text |]; cbn.
    + split; [| split].
      * split; [intros [x Hx]; discriminate | intros [_ H]; discriminate].
      * discriminate.
      * intros text' _ E. injection E as <-. split; reflexivity.
    + split; [| split].
      * split; [intros _; split; [discriminate | reflexivity] | eauto].
      * discriminate.
      * intros text _ E. discriminate.
Qed.

Lemma unsubscribe_reply_iff_witness :
  let tokens := to_drop session instruments "NSE" 1 ["SBIN-EQ"] in
  let o := handle_unsubscribe session None ["SBIN-EQ"] "NSE" in
  (is_Some (u_reply o) <-> tokens <> [] /\ @None string = None)
  /\ (tokens = [] ->
      o = mkOutcome session None None None
      /\ receive_unsubscribe session None ["SBIN-EQ"] "NSE" = session)
  /\ (forall text,
        tokens <> [] -> @None string = Some text ->
        o = mkOutcome session (Some (1%Z, tokens)) (Some text) None
        /\ receive_unsubscribe session None ["SBIN-EQ"] "NSE"
           = send (MError text) session).
Proof.
  refine (unsubscribe_reply_iff session None
            (mkInstrument (Some "3045") (Some "USDINR25NOVFUT") (Some "CDS"))
            [mkInstrument (Some "3045") (Some "SBIN-EQ") (Some "NSE");
             mkInstrument (Some "2885") (Some "RELIANCE-EQ") (Some "NSE")]
            ["SBIN-EQ"] "NSE" _ complete_instruments).
  vm_compute. reflexivity.
Defined.

Lemma resolve_found instruments exchange ts t :
  complete instruments ->
  resolve instruments exchange ts = Some t ->
  found instruments exchange ts = Some t.
Proof.
  unfold resolve, found.
  intros Hc. induction Hc as [| instr rest (Ht & Hs & Hx) _ IH];
    [discriminate |].
  cbn [List.find lookup_instrument]. unfold instr_matches at 1.
  destruct Hs as [s Es], Hx as [seg Ex], Ht as [tk Et].
  rewrite Es, Ex.
  destruct (String.eqb s ts) eqn:E1.
  - apply String.eqb_eq in E1. subst s.
    rewrite (bool_decide_eq_true_2 _ eq_refl). cbn [andb].
    destruct (String.eqb seg exchange) eqn:E2.
    + apply String.eqb_eq in E2. subst seg.
      rewrite (bool_decide_eq_true_2 _ eq_refl).
      cbn [mbind option_bind]. rewrite Et. cbn [mbind option_bind].
      destruct (truthy tk); [| discriminate].
      intros H. exact H.
    + apply String.eqb_neq in E2.
      rewrite bool_decide_eq_false_2 by congruence. exact IH.
  - apply String.eqb_neq in E1.
    rewrite bool_decide_eq_false_2 by congruence. cbn [andb]. exact IH.
Qed.

(** X15.  Subscribing symbols of which none was subscribed and then
    unsubscribing the same symbols puts the registry of subscribed tokens back
    as it was, and drops the symbol names of the tokens; the tokens stay in
    the list the indicator refresh reads. *)
Theorem subscribe_then_unsubscribe :
  forall st instr0 instrs syms exchange,
    instrument_list st = Some (instr0 :: instrs) ->
    complete (instr0 :: instrs) ->
    no_empty_sets st ->
    let et := default 1%Z (EXCHANGE_MAP !! exchange) in
    let tokens := net_new st (instr0 :: instrs) exchange et syms in
    (forall ts t, ts ∈ syms -> found (instr0 :: instrs) exchange ts = Some t ->
                  subscribed_under st et t = false) ->
    tokens <> [] ->
    sws_accepts st et tokens = true ->
    let st1 := handle_subscribe st syms exchange in
    let o := handle_unsubscribe st1 None syms exchange in
    subscribed_tokens (u_state o) = subscribed_tokens st
    /\ u_reply o = Some syms
    /\ (forall t, t ∈ tokens ->
          subscribed_under st1 et t = true
          /\ subscribed_under (u_state o) et t = false
          /\ token_symbol_map (u_state o) !! t = None
          /\ t ∈ monitor_symbols (u_state o)).
Proof.
  intros st instr0 instrs syms exchange Hil Hc Hinv et tokens Hfresh Hne Hacc.
  cbn zeta.
  destruct (handle_subscribe_eq st instr0 instrs syms exchange Hil)
    as [_ (m & ws & Heq0)].
  cbn zeta in Heq0. fold et in Heq0. fold tokens in Heq0.
  assert (Etok : tokens = net_new st (instr0 :: instrs) exchange et syms)
    by reflexivity.
  clearbody tokens.
  assert (Heq : handle_subscribe st syms exchange
                = send (MSubscribed syms tokens exchange
                          (length (fold_left monitor_add tokens
                                     (monitor_symbols st))))
                    (mkState
                       (<[et := default ∅ (subscribed_tokens st !! et)
                                ∪ list_to_set tokens]> (subscribed_tokens st))
                       (m ∪ token_symbol_map st)
                       (token_to_symbol st) (instrument_list st)
                       (fold_left monitor_add tokens (monitor_symbols st))
                       (if (0 <? length (fold_left monitor_add tokens
                                           (monitor_symbols st))
                                 - length (monitor_symbols st))%nat
                        then true else indicator_refresh_task st)
                       (smart_api st) (sws_accepts st) (table st) (now st)
                       (sent st ++ ws) (feed_requests st ++ [(et, tokens)])
                       (close_calls st))).
  { rewrite Heq0. destruct tokens as [| t0 rest]; [contradiction |].
    rewrite Hacc. reflexivity. }
  clear Heq0.
  set (st1 := handle_subscribe st syms exchange) in *.
  set (S0 := default ∅ (subscribed_tokens st !! et)) in *.
  assert (Hil1 : instrument_list st1 = Some (instr0 :: instrs))
    by (rewrite Heq; exact Hil).
  assert (Hsub1 : subscribed_tokens st1
                  = <[et := S0 ∪ list_to_set tokens]> (subscribed_tokens st))
    by (rewrite Heq; reflexivity).
  assert (Hmon1 : forall t, t ∈ tokens -> t ∈ monitor_symbols st1).
  { intros t Ht. rewrite Heq. cbn [monitor_symbols send].
    apply (proj1 (monitor_add_fold tokens (monitor_symbols st))). auto. }
  assert (Hunder1 : forall t,
            subscribed_under st1 et t = true <-> t ∈ S0 \/ t ∈ tokens).
  { intros t. rewrite subscribed_under_true, Hsub1, lookup_insert_eq.
    split.
    - intros (s & E & Hs). injection E as <-.
      apply elem_of_union in Hs as [? | Hs]; [auto |].
      apply elem_of_list_to_set in Hs. auto.
    - intros H. eexists. split; [reflexivity |].
      apply elem_of_union. destruct H; [auto |].
      right. apply elem_of_list_to_set. assumption. }
  assert (HS0 : forall t, t ∈ S0 <-> subscribed_under st et t = true).
  { intros t. rewrite subscribed_under_true. unfold S0.
    destruct (subscribed_tokens st !! et) as [s |]; cbn.
    - split; [eauto |]. intros (s' & E & H). injection E as <-. exact H.
    - split; [intros H; destruct (not_elem_of_empty t H) |].
      intros (s' & E & _). discriminate. }
  set (drop := to_drop st1 (instr0 :: instrs) exchange et syms).
  assert (Hdrop : forall t, t ∈ drop <-> t ∈ tokens).
  { intros t. unfold drop. rewrite elem_of_to_drop, Hunder1. split.
    - intros [(ts & Hts & Hf) [H | H]]; [| exact H].
      apply HS0 in H. rewrite (Hfresh ts t Hts Hf) in H. discriminate.
    - intros H. split; [| auto].
      rewrite Etok in H.
      apply elem_of_net_new in H as [(ts & Hts & Hr) _].
      exists ts. split; [exact Hts | apply resolve_found; assumption]. }
  assert (Hdne : drop <> []).
  { intros E. destruct tokens as [| t0 rest]; [contradiction |].
    assert (Hin : t0 ∈ drop) by (apply Hdrop; left).
    rewrite E in Hin. exact (not_elem_of_nil t0 Hin). }
  assert (Hdisj : forall t, t ∈ S0 -> t ∈ tokens -> False).
  { intros t H1 H2. apply HS0 in H1. rewrite Etok in H2.
    apply elem_of_net_new in H2 as [_ H2]. congruence. }
  assert (Hrem : default ∅ (subscribed_tokens st1 !! et) ∖ list_to_set drop
                 = S0).
  { rewrite Hsub1, lookup_insert_eq.
    change (default (∅ : gset string) (Some (S0 ∪ list_to_set tokens)))
      with (S0 ∪ list_to_set tokens : gset string).
    apply set_eq. intros t.
    rewrite elem_of_difference, elem_of_union, !elem_of_list_to_set, Hdrop.
    split.
    - intros [[H | H] Hn]; [exact H | contradiction].
    - intros H. split; [auto |]. intros X. exact (Hdisj t H X). }
  unfold drop in Hdne.
  rewrite (handle_unsubscribe_done st1 instr0 instrs syms exchange Hil1 Hc Hdne).
  fold et. fold drop. rewrite Hrem.
  cbn [u_state u_reply with_registry subscribed_tokens token_symbol_map
       monitor_symbols].
  assert (Hback : (if decide (S0 = ∅)
                   then delete et (subscribed_tokens st1)
                   else <[et := S0]> (subscribed_tokens st1))
                  = subscribed_tokens st).
  { rewrite Hsub1. destruct (decide (S0 = ∅)) as [He | He].
    - rewrite delete_insert_eq.
      apply delete_id.
      destruct (subscribed_tokens st !! et) as [s |] eqn:E; [| reflexivity].
      exfalso. apply (Hinv et s E). exact He.
    - rewrite insert_insert_eq. apply insert_id.
      destruct (subscribed_tokens st !! et) as [s |] eqn:E;
        [reflexivity |]. exfalso. apply He. reflexivity. }
  split; [exact Hback |]. split; [reflexivity |].
  intros t Ht. split; [apply Hunder1; auto |]. split; [| split].
  - destruct (subscribed_under _ et t) eqn:E; [| reflexivity].
    exfalso. apply subscribed_under_true in E as (s & Es & Hs).
    cbn [subscribed_tokens] in Es. rewrite Hback in Es.
    apply (Hdisj t); [| exact Ht]. apply HS0, subscribed_under_true. eauto.
  - rewrite fold_delete_lookup.
    rewrite bool_decide_eq_true_2 by (apply Hdrop; exact Ht). reflexivity.
  - apply Hmon1, Ht.
Qed.

Lemma session_registry_empty : subscribed_tokens session = ∅.
Proof. reflexivity. Qed.

Lemma subscribe_then_unsubscribe_witness :
  let tokens := net_new session instruments "NSE" 1 ["SBIN-EQ"] in
  let st1 := handle_subscribe session ["SBIN-EQ"] "NSE" in
  let o := handle_unsubscribe st1 None ["SBIN-EQ"] "NSE" in
  subscribed_tokens (u_state o) = subscribed_tokens session
  /\ u_reply o = Some ["SBIN-EQ"]
  /\ (forall t, t ∈ tokens ->
        subscribed_under st1 1 t = true
        /\ subscribed_under (u_state o) 1 t = false
        /\ token_symbol_map (u_state o) !! t = None
        /\ t ∈ monitor_symbols (u_state o)).
Proof.
  refine (subscribe_then_unsubscribe session
            (mkInstrument (Some "3045") (Some "USDINR25NOVFUT") (Some "CDS"))
            [mkInstrument (Some "3045") (Some "SBIN-EQ") (Some "NSE");
             mkInstrument (Some "2885") (Some "RELIANCE-EQ") (Some "NSE")]
            ["SBIN-EQ"] "NSE" _ complete_instruments _ _ _ _).
  - reflexivity.
  - intros et s H. rewrite session_registry_empty, lookup_empty in H.
    discriminate.
  - intros ts t _ _. unfold subscribed_under.
    rewrite session_registry_empty, lookup_empty. reflexivity.
  - vm_compute. discriminate.
  - reflexivity.
Defined.

End UnsubscribeFacts.

(** ** Runs of commands *)

Module RunFacts.
Import StoreFacts CloseFacts TickFacts ExitFacts OpenFacts FirstTickFacts.
Import RefreshFacts SubscribeFacts MtmTheorems.
Import SignalFacts LifecycleFacts HistoricalFacts UnsubscribeFacts.

(** *** The registry is only written by subscribe and unsubscribe *)

Lemma keeps_registry_refl st : keeps_registry st st.
Proof. split; reflexivity. Qed.

Lemma keeps_registry_trans a b c :
  keeps_registry a b -> keeps_registry b c -> keeps_registry a c.
Proof. intros [H1 H2] [H3 H4]. split; congruence. Qed.

Lemma keeps_registry_send m st : keeps_registry st (send m st).
Proof. split; reflexivity. Qed.

Lemma close_keeps_registry st tok x r :
  keeps_registry st (close_position_db st tok x r).1.
Proof.
  unfold close_position_db. cbn [table note_close_call].
  destruct (get_open_position_for_token tok (table st)) as [[i p] |];
    split; reflexivity.
Qed.

Lemma open_keeps_registry st tok side e qty lots :
  keeps_registry st (open_position_db st tok side e qty lots).1.
Proof.
  unfold open_position_db.
  destruct (symbol_name_for st tok); [| split; reflexivity].
  destruct (String.eqb side "LONG"); split; reflexivity.
Qed.

Lemma signal_keeps_registry st tok sig lc :
  keeps_registry st (handle_strategy_signal st tok sig lc).
Proof.
  unfold handle_strategy_signal.
  destruct sig as [sig |]; [| apply keeps_registry_send].
  destruct (action sig),
    (get_open_position_for_token tok (table st)) as [[i p] |];
    try apply keeps_registry_refl.
  - pose proof (open_keeps_registry st tok "LONG" (default fallback_price lc)
                  50 1) as H.
    cbn [decide_rel] in *.
    destruct (open_position_db st tok _ _ 50 1) as [st' [q |]];
      cbn [fst] in H; [| exact H].
    eapply keeps_registry_trans; [exact H | apply keeps_registry_send].
  - pose proof (open_keeps_registry st tok "SHORT" (default fallback_price lc)
                  50 1) as H.
    destruct (open_position_db st tok _ _ 50 1) as [st' [q |]];
      cbn [fst] in H; [| exact H].
    eapply keeps_registry_trans; [exact H | apply keeps_registry_send].
  - pose proof (close_keeps_registry st tok (default fallback_price lc)
                  (Some (reason sig))) as H.
    destruct (close_position_db st tok _ _) as [st' [c |]];
      cbn [fst] in H; [| exact H].
    eapply keeps_registry_trans; [exact H | apply keeps_registry_send].
Qed.

Lemma on_data_keeps_registry st tick : keeps_registry st (on_data st tick).
Proof.
  unfold on_data.
  destruct (last_traded_price tick) as [[| raw | raw] |];
    try apply keeps_registry_refl.
  all: destruct (tick_token tick) as [tok |];
    [| apply keeps_registry_send].
  all: cbn [table send].
  all: destruct (filter_open_first tok (table st)) as [[i p] |];
    [| apply keeps_registry_send].
  all: destruct (entry_price p) as [entry |]; [| apply keeps_registry_send].
  all: match goal with
       | |- context [on_data_mtm ?s ?t ?sy ?l ?i ?p ?e] =>
           assert (K1 : keeps_registry st (on_data_mtm s t sy l i p e).1)
             by (unfold on_data_mtm; destruct (mtm_moved _ _ _ _);
                 split; reflexivity);
           destruct (on_data_mtm s t sy l i p e) as [st1 p1]
       end.
  all: cbn [fst] in K1. all: unfold on_data_exit.
  all: match goal with
       | |- context [exit_check ?l ?e ?p] =>
           destruct (exit_check l e p) as [reason should_exit]
       end.
  all: destruct should_exit; [| exact K1].
  all: match goal with
       | |- context [close_position_db ?s ?t ?x ?r] =>
           pose proof (close_keeps_registry s t x r) as K2;
           destruct (close_position_db s t x r) as [st2 c]
       end.
  all: cbn [fst] in K2.
  all: eapply keeps_registry_trans; [exact K1 |].
  all: eapply keeps_registry_trans; [exact K2 | apply keeps_registry_send].
Qed.

Lemma refresh_keeps_registry st : keeps_registry st (refresh_cycle st).
Proof. rewrite refresh_cycle_sends, sends_state. split; reflexivity. Qed.

Lemma historical_keeps_registry adx_core st params reply :
  keeps_registry st (handle_get_historical adx_core st params reply).1.
Proof.
  destruct (handle_get_historical adx_core st params reply).2 as [r |] eqn:E.
  - apply handle_get_historical_response in E
      as (tok & ex & iv & from & to & api & c & data
          & -> & Ht & Hf & Hto & Hapi & ->).
    rewrite (handle_get_historical_accepted adx_core st tok ex iv from to
               api c data Ht Hf Hto Hapi).
    cbn [fst].
    match goal with
    | |- context [match ?f with Some s => _ | None => st end] =>
        destruct f as [s |]
    end; [apply signal_keeps_registry | apply keeps_registry_refl].
  - apply handle_get_historical_refused in E as [text ->].
    apply keeps_registry_send.
Qed.

Lemma historical_writes adx_core st params reply :
  match p_symboltoken params with
  | Some tok =>
      rtc (write tok) (table st)
        (table (handle_get_historical adx_core st params reply).1)
  | None =>
      table (handle_get_historical adx_core st params reply).1 = table st
  end.
Proof.
  destruct (handle_get_historical adx_core st params reply).2 as [r |] eqn:E.
  - apply handle_get_historical_response in E
      as (tok & ex & iv & from & to & api & c & data
          & -> & Ht & Hf & Hto & Hapi & ->).
    rewrite (handle_get_historical_accepted adx_core st tok ex iv from to
               api c data Ht Hf Hto Hapi).
    cbn [fst p_symboltoken].
    match goal with
    | |- context [match ?f with Some s => _ | None => st end] =>
        destruct f as [s |]
    end; [apply handle_strategy_signal_writes | apply rtc_refl].
  - apply handle_get_historical_refused in E as [text ->].
    cbn [fst]. destruct (p_symboltoken params); [apply rtc_refl | reflexivity].
Qed.

Lemma receive_unsubscribe_fields st feed_error syms exchange :
  let st' := receive_unsubscribe st feed_error syms exchange in
  table st' = table st /\ monitor_symbols st' = monitor_symbols st.
Proof.
  cbn zeta. unfold receive_unsubscribe, handle_unsubscribe.
  destruct (instrument_list st) as [[| instr0 instrs] |];
    try (split; reflexivity).
  destruct (unsubscribe_scan _ _ _ _ _ _) as [[| t0 rest] | key];
    try (split; reflexivity).
  destruct feed_error; split; reflexivity.
Qed.

(** What a command does to the table. *)
Lemma perform_table adx_core st cmd :
  let st' := perform adx_core st cmd in
  table st' = table st
  \/ (exists tok, token_of cmd = Some tok
                  /\ rtc (write tok) (table st) (table st'))
  \/ (exists tok p, token_of cmd = Some tok /\ ~ made_by_program cmd
                    /\ token p = tok /\ status p = OPEN
                    /\ table st' = table st ++ [p]).
Proof.
  cbn zeta. destruct cmd as [op | feed_error syms exchange | params reply].
  - destruct op as [api il tts acc clock | tick | tok sig lc
                   | tok side e qty lots | tok x r | syms exchange |];
      cbn [perform run token_of].
    + left. reflexivity.
    + pose proof (on_data_writes st tick) as H.
      destruct (tick_token tick) as [tok |]; [| left; exact H].
      right. left. eauto.
    + right. left. exists tok.
      split; [reflexivity | apply handle_strategy_signal_writes].
    + destruct (open_position_db_appends st tok side e qty lots)
        as [H | (p & Ht & Hs & H)]; [left; exact H |].
      right. right. exists tok, p. cbn. auto.
    + right. left. exists tok.
      split; [reflexivity | apply close_position_db_writes].
    + left. apply handle_subscribe_table.
    + left. rewrite refresh_cycle_sends, sends_state. reflexivity.
  - left. cbn [perform].
    apply (receive_unsubscribe_fields st feed_error syms exchange).
  - cbn [perform token_of].
    pose proof (historical_writes adx_core st params reply) as H.
    destruct (p_symboltoken params) as [tok |]; [| left; exact H].
    right. left. eauto.
Qed.

Lemma perform_table_step adx_core st cmd :
  table_step (table st) (table (perform adx_core st cmd)).
Proof.
  destruct (perform_table adx_core st cmd)
    as [H | [(tok & _ & H) | (tok & p & _ & _ & _ & _ & H)]].
  - rewrite H. apply table_step_refl.
  - eapply writes_table_step, H.
  - rewrite H. apply table_step_app.
Qed.

Lemma run_table_step adx_core cmds :
  forall st,
    table_step (table st) (table (fold_left (perform adx_core) cmds st)).
Proof.
  induction cmds as [| cmd rest IH]; intros st; cbn [fold_left].
  - apply table_step_refl.
  - eapply table_step_trans; [apply perform_table_step | apply IH].
Qed.

Lemma perform_one_open adx_core st cmd :
  made_by_program cmd ->
  one_open_per_token (table st) ->
  one_open_per_token (table (perform adx_core st cmd)).
Proof.
  intros Hm Hone tok'.
  destruct (perform_table adx_core st cmd)
    as [H | [(tok & _ & H) | (tok & p & _ & Hn & _)]].
  - rewrite H. apply Hone.
  - eapply writes_one_open; [exact H | apply Hone].
  - contradiction.
Qed.

Lemma perform_isolated adx_core st cmd (i : nat) p :
  token_of cmd <> Some (token p) ->
  table st !! i = Some p ->
  table (perform adx_core st cmd) !! i = Some p.
Proof.
  intros Hne Hi.
  destruct (perform_table adx_core st cmd)
    as [H | [(tok & Ht & H) | (tok & q & _ & _ & _ & _ & H)]].
  - rewrite H. exact Hi.
  - eapply writes_isolated; [exact H | exact Hi |]. congruence.
  - rewrite H. apply lookup_app_l_Some, Hi.
Qed.

(** *** What subscribe and unsubscribe do to the registry *)

Lemma handle_subscribe_registry st syms exchange :
  let st' := handle_subscribe st syms exchange in
  keeps_registry st st'
  \/ exists et tokens,
       tokens <> []
       /\ subscribed_tokens st'
          = <[et := default ∅ (subscribed_tokens st !! et)
                    ∪ list_to_set tokens]> (subscribed_tokens st)
       /\ monitor_symbols st'
          = fold_left monitor_add tokens (monitor_symbols st).
Proof.
  cbn zeta.
  destruct (instrument_list st) as [[| instr0 instrs] |] eqn:Hil.
  1, 3: left; unfold handle_subscribe; rewrite Hil; split; reflexivity.
  destruct (handle_subscribe_eq st instr0 instrs syms exchange Hil)
    as [_ (m & ws & ->)].
  cbn zeta.
  set (et := default 1%Z (EXCHANGE_MAP !! exchange)).
  destruct (net_new st (instr0 :: instrs) exchange et syms)
    as [| t0 rest] eqn:E.
  - left. rewrite sends_state. split; reflexivity.
  - destruct (sws_accepts st et (t0 :: rest)).
    + right. exists et, (t0 :: rest).
      split; [discriminate |]. split; reflexivity.
    + left. split; reflexivity.
Qed.

Lemma receive_unsubscribe_registry st feed_error syms exchange :
  let st' := receive_unsubscribe st feed_error syms exchange in
  keeps_registry st st'
  \/ exists et (tokens : list string),
       subscribed_tokens st'
       = (if decide (default ∅ (subscribed_tokens st !! et)
                     ∖ list_to_set tokens = (∅ : gset string))
          then delete et (subscribed_tokens st)
          else <[et := default ∅ (subscribed_tokens st !! et)
                       ∖ list_to_set tokens]> (subscribed_tokens st))
       /\ monitor_symbols st' = monitor_symbols st.
Proof.
  cbn zeta. unfold receive_unsubscribe, handle_unsubscribe.
  destruct (instrument_list st) as [[| instr0 instrs] |];
    try (left; split; reflexivity).
  destruct (unsubscribe_scan _ _ _ _ _ _) as [[| t0 rest] | key];
    try (left; split; reflexivity).
  destruct feed_error; [left; split; reflexivity |].
  right. eexists _, (t0 :: rest). split; reflexivity.
Qed.

Lemma perform_registry adx_core st cmd :
  let st' := perform adx_core st cmd in
  keeps_registry st st'
  \/ (exists et tokens,
        tokens <> []
        /\ subscribed_tokens st'
           = <[et := default ∅ (subscribed_tokens st !! et)
                     ∪ list_to_set tokens]> (subscribed_tokens st)
        /\ monitor_symbols st'
           = fold_left monitor_add tokens (monitor_symbols st))
  \/ (exists et (tokens : list string),
        subscribed_tokens st'
        = (if decide (default ∅ (subscribed_tokens st !! et)
                      ∖ list_to_set tokens = (∅ : gset string))
           then delete et (subscribed_tokens st)
           else <[et := default ∅ (subscribed_tokens st !! et)
                        ∖ list_to_set tokens]> (subscribed_tokens st))
        /\ monitor_symbols st' = monitor_symbols st).
Proof.
  cbn zeta. destruct cmd as [op | feed_error syms exchange | params reply].
  - destruct op as [api il tts acc clock | tick | tok sig lc
                   | tok side e qty lots | tok x r | syms exchange |];
      cbn [perform run].
    + left. split; reflexivity.
    + left. apply on_data_keeps_registry.
    + left. apply signal_keeps_registry.
    + left. apply open_keeps_registry.
    + left. apply close_keeps_registry.
    + destruct (handle_subscribe_registry st syms exchange) as [H | H];
        [left; exact H | right; left; exact H].
    + left. apply refresh_keeps_registry.
  - cbn [perform].
    destruct (receive_unsubscribe_registry st feed_error syms exchange)
      as [H | H]; [left; exact H | right; right; exact H].
  - left. apply historical_keeps_registry.
Qed.

Lemma perform_monitor adx_core st cmd :
  monitor_symbols st `prefix_of` monitor_symbols (perform adx_core st cmd)
  /\ (NoDup (monitor_symbols st) ->
      NoDup (monitor_symbols (perform adx_core st cmd))).
Proof.
  destruct (perform_registry adx_core st cmd)
    as [[_ H] | [(et & tokens & _ & _ & H) | (et & tokens & _ & H)]];
    rewrite H.
  - split; [reflexivity | auto].
  - destruct (monitor_add_fold tokens (monitor_symbols st)) as (_ & Hn & Hp).
    split; [exact Hp | exact Hn].
  - split; [reflexivity | auto].
Qed.

Lemma perform_invariants adx_core st cmd :
  no_empty_sets st /\ subscribed_are_monitored st ->
  no_empty_sets (perform adx_core st cmd)
  /\ subscribed_are_monitored (perform adx_core st cmd).
Proof.
  intros [Hne Hsm].
  destruct (perform_registry adx_core st cmd)
    as [[Hs Hm] | [(et & tokens & Ht & Hs & Hm) | (et & tokens & Hs & Hm)]].
  - split.
    + intros et s. rewrite Hs. apply Hne.
    + intros et s t. rewrite Hs, Hm. apply Hsm.
  - destruct (monitor_add_fold tokens (monitor_symbols st)) as (Hin & _ & _).
    split.
    + intros et' s. rewrite Hs.
      destruct (decide (et' = et)) as [-> | Hd].
      * rewrite lookup_insert_eq. intros E. injection E as <-.
        destruct tokens as [| t0 rest]; [contradiction |].
        intros He.
        assert (Hin0 : t0 ∈ default ∅ (subscribed_tokens st !! et)
                          ∪ (list_to_set (t0 :: rest) : gset string)).
        { apply elem_of_union. right. apply elem_of_list_to_set. left. }
        rewrite He in Hin0. exact (not_elem_of_empty t0 Hin0).
      * rewrite lookup_insert_ne by congruence. apply Hne.
    + intros et' s t. rewrite Hs, Hm.
      destruct (decide (et' = et)) as [-> | Hd].
      * rewrite lookup_insert_eq. intros E. injection E as <-.
        intros Hu. apply Hin.
        apply elem_of_union in Hu as [Hu | Hu].
        -- left. destruct (subscribed_tokens st !! et) as [s |] eqn:E.
           ++ eapply Hsm; [exact E | exact Hu].
           ++ destruct (not_elem_of_empty t Hu).
        -- right. apply elem_of_list_to_set in Hu. exact Hu.
      * rewrite lookup_insert_ne by congruence.
        intros E Hu. apply Hin. left. eapply Hsm; eassumption.
  - split.
    + intros et' s. rewrite Hs. apply (no_empty_after st et tokens Hne).
    + intros et' s t E Hu. rewrite Hm.
      rewrite Hs in E.
      destruct (proj1 (subscribed_after st et tokens et' t)
                  (ex_intro _ s (conj E Hu))) as [(s0 & E0 & H0) _].
      eapply Hsm; eassumption.
Qed.

Lemma run_monitor adx_core cmds :
  forall st,
    monitor_symbols st
      `prefix_of` monitor_symbols (fold_left (perform adx_core) cmds st)
    /\ (NoDup (monitor_symbols st) ->
        NoDup (monitor_symbols (fold_left (perform adx_core) cmds st))).
Proof.
  induction cmds as [| cmd rest IH]; intros st; cbn [fold_left].
  - split; [reflexivity | auto].
  - destruct (perform_monitor adx_core st cmd) as [P1 N1].
    destruct (IH (perform adx_core st cmd)) as [P2 N2].
    split; [etrans; eassumption | auto].
Qed.

Lemma take_prefix {A} (l l' : list A) n :
  l `prefix_of` l' -> (n <= length l)%nat -> take n l' = take n l.
Proof. intros [k ->] H. apply take_app_le. exact H. Qed.

(** X16.  Rows keep their terms and closed rows are final.  Whatever commands
    run (ticks, signals, direct opens and closes, subscribe, unsubscribe,
    historical requests, refresh cycles, environment changes), a row of the
    table is still there afterwards at the same primary key, with the same
    symbol, exchange, token, entry price and time, target, stoploss, lots and
    quantity; and a row that was not OPEN is unchanged altogether. *)
Theorem rows_keep_their_terms :
  forall adx_core cmds st (i : nat) p,
    table st !! i = Some p ->
    exists q,
      table (fold_left (perform adx_core) cmds st) !! i = Some q
      /\ same_terms p q
      /\ (status p <> OPEN -> q = p).
Proof.
  intros adx_core cmds st i p Hi.
  destruct (run_table_step adx_core cmds st i p Hi) as (q & Hq & Ht & Hf).
  exists q. split; [exact Hq |]. split; [exact Ht | exact Hf].
Qed.

Lemma rows_keep_their_terms_witness :
  exists q,
    table (fold_left (perform adx_uptrend) sample_run long_closed) !! 0%nat
    = Some q
    /\ same_terms long_closed_row q
    /\ (status long_closed_row <> OPEN -> q = long_closed_row).
Proof.
  apply (rows_keep_their_terms adx_uptrend sample_run long_closed 0
           long_closed_row).
  vm_compute. reflexivity.
Defined.

(** X17.  The program never holds two open positions for a token.  If no token
    has more than one OPEN row, then after any commands the program makes (all
    but a direct call of [open_position_db], which only
    [handle_strategy_signal] makes, after checking) no token has more than one
    OPEN row. *)
Theorem one_open_position_per_token :
  forall adx_core cmds st,
    Forall made_by_program cmds ->
    (forall tok, (open_count tok (table st) <= 1)%nat) ->
    forall tok,
      (open_count tok (table (fold_left (perform adx_core) cmds st)) <= 1)%nat.
Proof.
  intros adx_core cmds. induction cmds as [| cmd rest IH];
    intros st Hall Hone; cbn [fold_left].
  - exact Hone.
  - apply Forall_cons in Hall as [Hc Hrest].
    apply IH; [exact Hrest |].
    exact (perform_one_open adx_core st cmd Hc Hone).
Qed.

Lemma one_open_position_per_token_witness :
  (open_count "3045"
     (table (fold_left (perform adx_uptrend) sample_run session)) <= 1)%nat.
Proof.
  apply (one_open_position_per_token adx_uptrend sample_run session).
  - unfold sample_run. repeat constructor.
  - intros tok. cbn. lia.
Defined.

(** X18.  Commands for one token leave the rows of every other token as they
    are: a row is unchanged by any sequence of commands none of which names
    its token. *)
Theorem other_tokens_untouched :
  forall adx_core cmds st (i : nat) p,
    Forall (fun cmd => token_of cmd <> Some (token p)) cmds ->
    table st !! i = Some p ->
    table (fold_left (perform adx_core) cmds st) !! i = Some p.
Proof.
  intros adx_core cmds. induction cmds as [| cmd rest IH];
    intros st i p Hall Hi; cbn [fold_left].
  - exact Hi.
  - apply Forall_cons in Hall as [Hc Hrest].
    apply IH; [exact Hrest |].
    apply perform_isolated; assumption.
Qed.

Lemma other_tokens_untouched_witness :
  table (fold_left (perform adx_uptrend) reliance_run long_opened) !! 0%nat
  = Some long_row.
Proof.
  apply (other_tokens_untouched adx_uptrend reliance_run long_opened 0
           long_row).
  - unfold reliance_run. repeat constructor; cbn; discriminate.
  - vm_compute. reflexivity.
Defined.

(** X19.  The list of monitored tokens only grows at its end: no command
    removes or reorders an entry, unsubscribe included.  So once five tokens
    are monitored, every later refresh cycle reports on those same five
    tokens, whatever is subscribed or unsubscribed in between. *)
Theorem monitored_tokens_stay :
  forall adx_core cmds st,
    let st' := fold_left (perform adx_core) cmds st in
    monitor_symbols st `prefix_of` monitor_symbols st'
    /\ ((5 <= length (monitor_symbols st))%nat ->
        take 5 (monitor_symbols st') = take 5 (monitor_symbols st)
        /\ sent (refresh_cycle st')
           = sent st'
             ++ omap (fun tok => live_indicators st' tok
                                   <$> candles_for st' tok)
                  (take 5 (monitor_symbols st))).
Proof.
  intros adx_core cmds st. cbn zeta.
  destruct (run_monitor adx_core cmds st) as [Hp _].
  split; [exact Hp |].
  intros H5.
  pose proof (take_prefix _ _ 5 Hp H5) as Ht.
  split; [exact Ht |].
  rewrite refresh_cycle_sends, sends_state. cbn [sent]. rewrite Ht.
  reflexivity.
Qed.

(** X20.  In every state the commands lead to from a fresh connection, the
    registry is consistent: no exchange type is kept with an empty set of
    tokens, every subscribed token is in the list of monitored tokens, and
    that list has no duplicates. *)
Theorem registry_invariants :
  forall adx_core cmds st,
    no_empty_sets st ->
    subscribed_are_monitored st ->
    NoDup (monitor_symbols st) ->
    let st' := fold_left (perform adx_core) cmds st in
    no_empty_sets st'
    /\ subscribed_are_monitored st'
    /\ NoDup (monitor_symbols st').
Proof.
  intros adx_core cmds st H1 H2 H3. cbn zeta.
  split; [| split].
  3: exact (proj2 (run_monitor adx_core cmds st) H3).
  all: revert st H1 H2 H3.
  all: induction cmds as [| cmd rest IH]; intros st H1 H2 H3;
    cbn [fold_left]; [assumption |].
  all: destruct (perform_invariants adx_core st cmd (conj H1 H2)) as [I1 I2].
  all: apply IH; [exact I1 | exact I2 |].
  all: exact (proj2 (perform_monitor adx_core st cmd) H3).
Qed.

Lemma registry_invariants_witness :
  let st' := fold_left (perform adx_uptrend) sample_run connected in
  no_empty_sets st'
  /\ subscribed_are_monitored st'
  /\ NoDup (monitor_symbols st').
Proof.
  apply (registry_invariants adx_uptrend sample_run connected).
  - intros et s H. cbn in H. rewrite lookup_empty in H. discriminate.
  - intros et s t H. cbn in H. rewrite lookup_empty in H. discriminate.
  - cbn. constructor.
Defined.

End RunFacts.

(** ** A position opened and closed by signals *)

Module RoundTripFacts.
Import NumFacts StoreFacts CloseFacts TickFacts ExitFacts OpenFacts.
Import FirstTickFacts LifecycleFacts HistoricalFacts.

Lemma exit_signal_closes st tok sig lc (i : nat) p :
  action sig = EXIT ->
  get_open_position_for_token tok (table st) = Some (i, p) ->
  let x := default fallback_price lc in
  let st' := handle_strategy_signal st tok (Some sig) lc in
  table st'
  = <[i := set_closed x (now st) (py_round (realized_pnl p x) 2) p]> (table st)
  /\ close_calls st' = close_calls st ++ [(tok, x, Some (reason sig))].
Proof.
  intros Ha Ho. cbn zeta.
  unfold handle_strategy_signal, close_position_db.
  cbn [table note_close_call]. rewrite Ho, Ha.
  split; reflexivity.
Qed.

Lemma realized_pnl_abs p x e :
  entry_price p = Some e ->
  (realized_pnl p x == Qabs (x - e) * Qnat (quantity p))%Q.
Proof.
  intros He. unfold realized_pnl. rewrite He.
  destruct (Qltb e x) eqn:E.
  - apply Qltb_lt in E. rewrite Qabs_pos by lra. reflexivity.
  - apply Qltb_ge in E. rewrite Qabs_neg by lra. ring.
Qed.

(** The row an entry signal stores. *)
Lemma entry_signal_row st tok sig lc name :
  get_open_position_for_token tok (table st) = None ->
  symbol_name_for st tok = Some name ->
  action sig = BUY \/ action sig = SELL ->
  let st' := handle_strategy_signal st tok (Some sig) lc in
  exists p,
    table st' = table st ++ [p]
    /\ token p = tok /\ status p = OPEN /\ symbol p = name
    /\ entry_price p = Some (default fallback_price lc)
    /\ quantity p = 50%nat
    /\ now st' = now st
    /\ close_calls st' = close_calls st.
Proof.
  intros Ho Hn Ha. cbn zeta.
  unfold handle_strategy_signal, open_position_db.
  rewrite Ho, Hn.
  destruct Ha as [-> | ->]; cbn -[py_round];
    eexists; (split; [reflexivity |]); repeat split.
Qed.

(** X21.  A position opened by a BUY or SELL signal and closed by an EXIT
    signal leaves one CLOSED row, stored under the token's symbol name with
    the two prices; its [mtm] is the absolute price difference times the
    quantity 50, rounded to cents, the same for a BUY as for a SELL entry.
    [close_position_db] was called once and the token has no open row. *)
Theorem signal_round_trip :
  forall st tok entry_signal exit_signal e x name,
    get_open_position_for_token tok (table st) = None ->
    symbol_name_for st tok = Some name ->
    action entry_signal = BUY \/ action entry_signal = SELL ->
    action exit_signal = EXIT ->
    let st1 := handle_strategy_signal st tok (Some entry_signal) (Some e) in
    let st2 := handle_strategy_signal st1 tok (Some exit_signal) (Some x) in
    exists row,
      table st2 = table st ++ [row]
      /\ status row = CLOSED
      /\ token row = tok /\ symbol row = name
      /\ entry_price row = Some e /\ exit_price row = Some x
      /\ quantity row = 50%nat
      /\ mtm row = py_round (Qabs (x - e) * 50) 2
      /\ open_count tok (table st2) = 0%nat
      /\ close_calls st2
         = close_calls st ++ [(tok, x, Some (reason exit_signal))].
Proof.
  intros st tok s1 s2 e x name Ho Hn Ha1 Ha2. cbn zeta.
  destruct (entry_signal_row st tok s1 (Some e) name Ho Hn Ha1)
    as (p & Ht & Hp & Hs & Hsym & He & Hq & Hnow & Hc).
  change (default fallback_price (Some e)) with e in He.
  set (st1 := handle_strategy_signal st tok (Some s1) (Some e)) in *.
  assert (H0 : open_count tok (table st) = 0%nat) by (apply get_open_None, Ho).
  assert (Hget : get_open_position_for_token tok (table st1)
                 = Some (length (table st), p)).
  { apply get_open_the_one.
    - rewrite Ht, open_count_app, H0, (open_count_cons tok p []).
      destruct (decide (open_for tok p)); cbn; lia.
    - rewrite Ht. apply list_lookup_middle. reflexivity.
    - split; assumption. }
  destruct (exit_signal_closes st1 tok s2 (Some x) _ p Ha2 Hget) as [Ht2 Hc2].
  change (default fallback_price (Some x)) with x in Ht2, Hc2.
  exists (set_closed x (now st1) (py_round (realized_pnl p x) 2) p).
  split.
  { rewrite Ht2, Ht. rewrite insert_app_r_alt by lia.
    rewrite Nat.sub_diag. reflexivity. }
  split; [reflexivity |]. split; [exact Hp |]. split; [exact Hsym |].
  split; [exact He |]. split; [reflexivity |]. split; [exact Hq |].
  split.
  { cbn [mtm set_closed]. apply py_round_proper.
    rewrite (realized_pnl_abs p x e He), Hq. reflexivity. }
  split.
  { rewrite Ht2, Ht. rewrite insert_app_r_alt by lia.
    rewrite Nat.sub_diag. cbn [insert list_insert].
    rewrite open_count_app, H0, (open_count_cons tok _ []).
    destruct (decide (open_for tok (set_closed x (now st1)
                                      (py_round (realized_pnl p x) 2) p)))
      as [[_ Hopen] | _]; [discriminate | reflexivity]. }
  rewrite Hc2, Hc. reflexivity.
Qed.

Lemma signal_round_trip_witness :
  let buy := mkSignal BUY (R_macd_bullish (Fin 1)) None in
  let leave :=
    mkSignal EXIT (R_text "MACD line crossed below 0 (bearish crossover)")
      None in
  let st1 := handle_strategy_signal session "3045" (Some buy) (Some 100%Q) in
  let st2 := handle_strategy_signal st1 "3045" (Some leave) (Some 95%Q) in
  exists row,
    table st2 = table session ++ [row]
    /\ status row = CLOSED
    /\ token row = "3045" /\ symbol row = "SBIN-EQ"
    /\ entry_price row = Some 100%Q /\ exit_price row = Some 95%Q
    /\ quantity row = 50%nat
    /\ mtm row = py_round (Qabs (95 - 100) * 50) 2
    /\ open_count "3045" (table st2) = 0%nat
    /\ close_calls st2
       = close_calls session ++ [("3045", 95%Q, Some (reason leave))].
Proof.
  refine (signal_round_trip session "3045"
            (mkSignal BUY (R_macd_bullish (Fin 1)) None)
            (mkSignal EXIT
               (R_text "MACD line crossed below 0 (bearish crossover)") None)
            100%Q 95%Q "SBIN-EQ" _ _ _ _).
  - reflexivity.
  - vm_compute. reflexivity.
  - left. reflexivity.
  - reflexivity.
Defined.

(** *** The token-to-symbol map of the instrument list *)

Lemma build_fold instrs :
  forall (m : gmap string string) tok,
    Forall (fun instr => ~ names tok instr) instrs ->
    fold_left
      (fun m instr =>
         match i_token instr, i_symbol instr with
         | Some token, Some ts =>
             if truthy token && truthy ts then <[token := ts]> m else m
         | _, _ => m
         end) instrs m !! tok
    = m !! tok.
Proof.
  induction instrs as [| instr rest IH]; intros m tok Hall; [reflexivity |].
  apply Forall_cons in Hall as [Hn Hrest]. cbn [fold_left].
  rewrite IH by exact Hrest.
  destruct (i_token instr) as [t |] eqn:Et; [| reflexivity].
  destruct (i_symbol instr) as [s |] eqn:Es; [| reflexivity].
  destruct (truthy t && truthy s) eqn:E; [| reflexivity].
  apply andb_prop in E as [_ Hs].
  apply lookup_insert_ne. intros ->. apply Hn. split; [exact Et | eauto].
Qed.

(** X22.  In the token-to-symbol map [setup_connection] builds from the
    instrument list, a token stands for the symbol of the last instrument that
    carries it (with a non-empty token and symbol), whatever the segment of
    that instrument; a token no instrument carries is not in the map. *)
Theorem token_to_symbol_last_wins :
  forall tok,
    (forall before instr after s,
        i_token instr = Some tok -> i_symbol instr = Some s ->
        truthy tok = true -> truthy s = true ->
        Forall (fun later => ~ names tok later) after ->
        build_token_to_symbol (before ++ instr :: after) !! tok = Some s)
    /\ (forall instrs,
          Forall (fun instr => ~ names tok instr) instrs ->
          build_token_to_symbol instrs !! tok = None).
Proof.
  intros tok. split.
  - intros before instr after s Et Es Ht Hs Hafter.
    unfold build_token_to_symbol. rewrite fold_left_app. cbn [fold_left].
    rewrite build_fold by exact Hafter.
    rewrite Et, Es, Ht, Hs. cbn [andb]. apply lookup_insert_eq.
  - intros instrs Hall. unfold build_token_to_symbol.
    rewrite build_fold by exact Hall. apply lookup_empty.
Qed.

Lemma token_to_symbol_last_wins_witness :
  build_token_to_symbol instruments !! "3045" = Some "SBIN-EQ".
Proof.
  apply (proj1 (token_to_symbol_last_wins "3045")
           [mkInstrument (Some "3045") (Some "USDINR25NOVFUT") (Some "CDS")]
           (mkInstrument (Some "3045") (Some "SBIN-EQ") (Some "NSE"))
           [mkInstrument (Some "2885") (Some "RELIANCE-EQ") (Some "NSE")]
           "SBIN-EQ"); try reflexivity.
  repeat constructor. intros [H _]. discriminate.
Defined.

End RoundTripFacts.
